(** * Falling 3D objects: a shallow embedding of the animation's logic

    The embedding follows [config.js], [utils.js], [modelLoader.js] and
    [main.js] (the cleaned main script).  JavaScript numbers are modelled
    as exact rationals ([Q]) for what rounding does not touch: the
    order of values, the ranges they stay in and where data flows.
    What depends on how binary64 rounds the results of arithmetic (the
    object count at a rounding boundary, heights and angles summed over
    frames) is stated over the doubles themselves, in [Binary64].  Counts that
    the source obtains through [Math.round], [Math.ceil] or [.length]
    are integers ([Z], [nat]).  [Math.random] reads successive elements
    of a stream; the cursor into the stream is threaded explicitly.
    Console diagnostics and the rendering calls are left out: they do
    not feed back into the values modelled here.  Loads are taken as
    settled, in the order [Promise.all] reports them. *)

From Stdlib Require Import QArith Qround Lqa ZArith Lia Sorted Floats.
From stdpp Require Import gmap strings list fin_maps.

#[local] Set Warnings "-inexact-float".

Local Open Scope Q_scope.

(** ** JavaScript numeric built-ins *)

(** [Math.round]: nearest integer, ties towards +infinity. *)
Definition Math_round (x : Q) : Z := Qfloor (x + (1 # 2)).

Definition Math_ceil (x : Q) : Z := Qceiling x.

Definition Math_floor (x : Q) : Z := Qfloor x.

Definition Math_min (a b : Z) : Z := Z.min a b.

(** The binary64 value of [Math.PI], which is itself a rational. *)
Definition Math_PI : Q := 884279719003555 # 281474976710656.

(** ** config.js *)

Record ObjectConfig := {
  TARGET_DENSITY : Q;
  X_SPREAD : Q;
  Y_SPREAD : Q;
  Z_SPREAD : Q;
  Y_OFFSET : Q;
  MIN_SCALE : Q;
  MAX_SCALE : Q
}.

Record AnimationConfig := {
  FALL_SPEED : Q;
  MAX_ROTATION_SPEED : Q;
  ROTATION_MULTIPLIER : Q
}.

Record MaterialConfig := {
  METALNESS : Q;
  ROUGHNESS : Q
}.

Record ModelConfig := {
  DIRECTORY : string;
  FALLBACK_MODELS : list string
}.

Definition default_OBJECT_CONFIG : ObjectConfig := {|
  TARGET_DENSITY := 4;
  X_SPREAD := 200;
  Y_SPREAD := 600;
  Z_SPREAD := 100;
  Y_OFFSET := 0;
  MIN_SCALE := 0.02;
  MAX_SCALE := 0.1
|}.

Definition default_ANIMATION_CONFIG : AnimationConfig := {|
  FALL_SPEED := 0.8;
  MAX_ROTATION_SPEED := 0.5;
  ROTATION_MULTIPLIER := 0.02
|}.

Definition default_MATERIAL_CONFIG : MaterialConfig := {|
  METALNESS := 0.45;
  ROUGHNESS := 0.9
|}.

Definition default_MODEL_CONFIG : ModelConfig := {|
  DIRECTORY := "models/";
  FALLBACK_MODELS := [
    "models/dd.glb";
    "models/Gemini_Generated_Image_1ngjh61ngjh61ngj.glb";
    "models/Gemini_Generated_Image_99jcve99jcve99jc.glb";
    "models/Gemini_Generated_Image_cwr7vxcwr7vxcwr7.glb";
    "models/Gemini_Generated_Image_nkujwpnkujwpnkuj.glb";
    "models/Gemini_Generated_Image_tbskldtbskldtbsk.glb";
    "models/Gemini_Generated_Image_w7lk6xw7lk6xw7lk.glb";
    "models/Gemini_Generated_Image_xvlftixvlftixvlf.glb" ]
|}.

(** The palette, as 24-bit RGB values. *)
Definition default_OBJECT_COLORS : list Z := [
  0xf7aef8; 0x990e9c; 0xef61f1; 0xf8bff9; 0xfacffb;
  0xb388eb; 0x43167f; 0x8b4ae0; 0xc3a1ef; 0xd2b8f3;
  0x8093f1; 0x0f2284; 0x3c59e9; 0x98a7f4; 0xb2bdf6;
  0x72ddf7; 0x086f89; 0x2fccf3; 0x8fe3f8; 0xabeafa ]%Z.

(** ** utils.js: the density-based object count

    The exact reading, which gives the pool its target count; the
    count that binary64 gives at a rounding boundary is
    [Binary64.calculateObjectCount]. *)

Definition calculateObjectCount (OBJECT_CONFIG : ObjectConfig) : Z :=
  let volume :=
    X_SPREAD OBJECT_CONFIG * Y_SPREAD OBJECT_CONFIG * Z_SPREAD OBJECT_CONFIG in
  let densityPerCubicUnit := TARGET_DENSITY OBJECT_CONFIG / 1000000 in
  let calculatedCount := Math_round (volume * densityPerCubicUnit) in
  calculatedCount.

(** The count as the specification words it: one product divided by a
    million, then rounded. *)
Definition spec_objectCount (xs ys zs density : Q) : Z :=
  Math_round (xs * ys * zs * density / 1000000).

(** ** three.js values used by the program

    [BufferGeometry.attributes] is a JavaScript object keyed by the
    attribute name; an attribute carries its flat array and the number
    of array items per vertex. *)

Record BufferAttribute := {
  array : list Q;
  itemSize : nat
}.

Module Vector3.
Record t := { x : Q; y : Q; z : Q }.
End Vector3.

Module Euler.
Record t := { x : Q; y : Q; z : Q }.
End Euler.

Record Sphere := {
  center : Vector3.t;
  radius : Q
}.

Record BufferGeometry := {
  attributes : gmap string BufferAttribute;
  index : option (list nat);
  boundingSphere : option Sphere
}.

(** [new THREE.BufferGeometry()] *)
Definition new_BufferGeometry : BufferGeometry :=
  {| attributes := ∅; index := None; boundingSphere := None |}.

Definition setAttribute (name : string) (attribute : BufferAttribute)
    (g : BufferGeometry) : BufferGeometry :=
  {| attributes := <[name := attribute]> (attributes g);
     index := index g;
     boundingSphere := boundingSphere g |}.

(** [geometry.clone()] copies every attribute, the index and the
    bounding volumes; the copy has the same contents. *)
Definition clone (g : BufferGeometry) : BufferGeometry := g.

(** [attribute.count] *)
Definition count_of (a : BufferAttribute) : nat :=
  (length (array a) / itemSize a)%nat.

(** The vertices of a flat position array, three coordinates each. *)
Fixpoint vertices (a : list Q) : list Vector3.t :=
  match a with
  | px :: py :: pz :: rest =>
      {| Vector3.x := px; Vector3.y := py; Vector3.z := pz |} :: vertices rest
  | _ => []
  end.

Definition distanceToSquared (p c : Vector3.t) : Q :=
  let dx := Vector3.x p - Vector3.x c in
  let dy := Vector3.y p - Vector3.y c in
  let dz := Vector3.z p - Vector3.z c in
  dx * dx + dy * dy + dz * dz.

(** [sphere.containsPoint(p)] *)
Definition containsPoint (s : Sphere) (p : Vector3.t) : Prop :=
  distanceToSquared p (center s) <= radius s * radius s.

(** [new THREE.Sphere()] before any point is added. *)
Definition empty_Sphere : Sphere :=
  {| center := {| Vector3.x := 0; Vector3.y := 0; Vector3.z := 0 |};
     radius := -1 |}.

(** Exceptions: a computation either returns or throws. *)
Inductive Result (A : Type) : Type :=
  | Ok (a : A)
  | Throw.
Arguments Ok {A} a.
Arguments Throw {A}.

Definition bindR {A B} (r : Result A) (k : A -> Result B) : Result B :=
  match r with
  | Ok a => k a
  | Throw => Throw
  end.

Notation "x <-! r ; k" := (bindR r (fun x => k))
  (at level 60, r at next level, right associativity).

(** ** Random draws: a state monad over the cursor into the stream *)

Definition Rand (A : Type) : Type := nat -> A * nat.

Definition ret {A} (a : A) : Rand A := fun n => (a, n).

Definition bind {A B} (m : Rand A) (k : A -> Rand B) : Rand B :=
  fun n => let '(a, n') := m n in k a n'.

Notation "x <- m ;; k" := (bind m (fun x => k))
  (at level 60, m at next level, right associativity).

(** ** Scene values of main.js *)

(** A node that [gltf.scene.traverse] visits. *)
Record Object3D := {
  isMesh : bool;
  geometry : option BufferGeometry
}.

(** What [gltfLoader.load] calls back with. *)
Inductive LoadOutcome : Type :=
  | OnLoad (scene : list Object3D)
  | OnError.

(** [{ path, geometry }] *)
Record LoadedModel := {
  path : string;
  model_geometry : BufferGeometry
}.

(** The instance matrix that [dummy.updateMatrix()] composes from
    position, rotation and scale; a fresh instance buffer holds zeros. *)
Inductive Matrix4 : Type :=
  | ZeroMatrix
  | Compose (position : Vector3.t) (rotation : Euler.t) (scale : Vector3.t).

Record Material := {
  metalness : Q;
  roughness : Q;
  color : Z
}.

Record InstancedMesh := {
  mesh_geometry : BufferGeometry;
  material : Material;
  mesh_count : Z;
  instanceMatrix : list Matrix4;
  instanceColor : option (list Q)
}.

Record ObjectState := {
  meshIndex : nat;
  instanceIndex : nat;
  position : Vector3.t;
  rotation : Euler.t;
  scale : Q;
  rotationSpeedX : Q;
  rotationSpeedZ : Q
}.

(** An entry of [instancedMeshes].  [objects] holds references to the
    object states, which [allObjects] holds too: a reference is the
    object's index in [allObjects]. *)
Record MeshData := {
  mesh : InstancedMesh;
  objects : list nat;
  count : Z;
  colorArray : list Q
}.

(** What [initializeScene] has built when the animation starts. *)
Record SceneState := {
  instancedMeshes : list MeshData;
  allObjects : list ObjectState
}.

(** [new THREE.Color(hex)]; without an argument the colour stays white. *)
Definition new_Color (hex : option Z) : Q * Q * Q :=
  match hex with
  | Some h =>
      (inject_Z (Z.land (Z.shiftr h 16) 255) / 255,
       inject_Z (Z.land (Z.shiftr h 8) 255) / 255,
       inject_Z (Z.land h 255) / 255)
  | None => (1, 1, 1)
  end.

(** [new THREE.InstancedMesh(geometry, material, count)] *)
Definition new_InstancedMesh (g : BufferGeometry) (m : Material) (n : Z)
    : InstancedMesh :=
  {| mesh_geometry := g;
     material := m;
     mesh_count := n;
     instanceMatrix := replicate (Z.to_nat n) ZeroMatrix;
     instanceColor := None |}.

(** [mesh.setMatrixAt(i, matrix)] writes into a typed array, where a
    write past the end is dropped. *)
Definition setMatrixAt (i : nat) (m : Matrix4) (im : InstancedMesh)
    : InstancedMesh :=
  {| mesh_geometry := mesh_geometry im;
     material := material im;
     mesh_count := mesh_count im;
     instanceMatrix := <[i := m]> (instanceMatrix im);
     instanceColor := instanceColor im |}.

(** [dummy.position.copy(p); dummy.rotation.copy(r);
    dummy.scale.set(s, s, s); dummy.updateMatrix()] *)
Definition dummy_matrix (p : Vector3.t) (r : Euler.t) (s : Q) : Matrix4 :=
  Compose p r {| Vector3.x := s; Vector3.y := s; Vector3.z := s |}.

Definition with_position (obj : ObjectState) (p : Vector3.t) : ObjectState :=
  {| meshIndex := meshIndex obj;
     instanceIndex := instanceIndex obj;
     position := p;
     rotation := rotation obj;
     scale := scale obj;
     rotationSpeedX := rotationSpeedX obj;
     rotationSpeedZ := rotationSpeedZ obj |}.

Definition with_rotation (obj : ObjectState) (r : Euler.t) : ObjectState :=
  {| meshIndex := meshIndex obj;
     instanceIndex := instanceIndex obj;
     position := position obj;
     rotation := r;
     scale := scale obj;
     rotationSpeedX := rotationSpeedX obj;
     rotationSpeedZ := rotationSpeedZ obj |}.

Definition with_mesh (meshData : MeshData) (m : InstancedMesh) : MeshData :=
  {| mesh := m;
     objects := objects meshData;
     count := count meshData;
     colorArray := colorArray meshData |}.

(** [array[i]] for a JavaScript index: [undefined] outside the array. *)
Definition array_get {A} (l : list A) (i : Z) : option A :=
  if (i <? 0)%Z then None else l !! Z.to_nat i.

(** A loop with effects on the random cursor, left to right. *)
Fixpoint foldM {A B} (f : A -> B -> Rand A) (a : A) (l : list B) : Rand A :=
  match l with
  | [] => ret a
  | b :: rest => a' <- f a b;; foldM f a' rest
  end.

Section Program.

(** Configuration, as the modules import it from config.js. *)
Variable OBJECT_CONFIG : ObjectConfig.
Variable ANIMATION_CONFIG : AnimationConfig.
Variable MATERIAL_CONFIG : MaterialConfig.
Variable MODEL_CONFIG : ModelConfig.
Variable OBJECT_COLORS : list Z.

(** The environment.  [random] lists the values that successive calls
    of [Math.random()] return.  [directoryListing] is the outcome of
    fetching the model directory: the [.glb] links of an OK response.
    [gltfLoader_load] is the outcome of loading one path, with the
    scene's nodes in traversal order.  [Float32Array_fits] tells
    whether the runtime allocates a typed array of that length;
    otherwise the constructor throws a RangeError. *)
Variable random : nat -> Q.
Variable directoryListing : option (list string).
Variable gltfLoader_load : string -> LoadOutcome.
Variable Float32Array_fits : nat -> bool.

(** Numeric routines of three.js: the normals that
    [computeVertexNormals] derives from the positions and the index,
    and the sphere that [computeBoundingSphere] fits to the positions. *)
Variable vertexNormals : list Q -> option (list nat) -> list Q.
Variable sphereFromPositions : list Q -> Sphere.

Definition Math_random : Rand Q := fun n => (random n, S n).

(** *** utils.js: model discovery *)

Definition discoverModelPaths : list string :=
  match directoryListing with
  | Some links => map (fun href => DIRECTORY MODEL_CONFIG +:+ href) links
  | None => FALLBACK_MODELS MODEL_CONFIG
  end.

(** *** modelLoader.js *)

(** [new THREE.Float32BufferAttribute(array, itemSize)] *)
Definition Float32BufferAttribute (a : list Q) (size : nat)
    : Result BufferAttribute :=
  if Float32Array_fits (length a)
  then Ok {| array := a; itemSize := size |}
  else Throw.

(** [geometry.computeVertexNormals()]: three.js acts only on a
    geometry that has positions, and then (re)writes every normal. *)
Definition computeVertexNormals (g : BufferGeometry) : BufferGeometry :=
  match attributes g !! "position" with
  | Some positionAttribute =>
      setAttribute "normal"
        {| array := vertexNormals (array positionAttribute) (index g);
           itemSize := 3 |} g
  | None => g
  end.

(** [geometry.computeBoundingSphere()] *)
Definition computeBoundingSphere (g : BufferGeometry) : BufferGeometry :=
  {| attributes := attributes g;
     index := index g;
     boundingSphere :=
       Some match attributes g !! "position" with
            | Some positionAttribute =>
                sphereFromPositions (array positionAttribute)
            | None => empty_Sphere
            end |}.

(** [for (let i = 0; i < a.length; i++) target.push(a[i])], guarded by
    the attribute being present. *)
Definition pushAll (target : list Q) (source : option BufferAttribute)
    : list Q :=
  match source with
  | Some a => target ++ array a
  | None => target
  end.

(** The body of [geometries.forEach] in [mergeGeometries]. *)
Definition mergeStep (acc : list Q * list Q * list Q) (geom : BufferGeometry)
    : list Q * list Q * list Q :=
  let '(positions, normals, uvs) := acc in
  (pushAll positions (attributes geom !! "position"),
   pushAll normals (attributes geom !! "normal"),
   pushAll uvs (attributes geom !! "uv")).

Definition mergeGeometries (geometries : list BufferGeometry)
    : Result BufferGeometry :=
  let mergedGeometry := new_BufferGeometry in
  let '(positions, normals, uvs) :=
    fold_left mergeStep geometries ([], [], []) in
  positionAttribute <-! Float32BufferAttribute positions 3;
  let mergedGeometry := setAttribute "position" positionAttribute mergedGeometry in
  mergedGeometry <-!
    (if (0 <? length normals)%nat then
       normalAttribute <-! Float32BufferAttribute normals 3;
       Ok (setAttribute "normal" normalAttribute mergedGeometry)
     else
       Ok (computeVertexNormals mergedGeometry));
  mergedGeometry <-!
    (if (0 <? length uvs)%nat then
       uvAttribute <-! Float32BufferAttribute uvs 2;
       Ok (setAttribute "uv" uvAttribute mergedGeometry)
     else
       Ok mergedGeometry);
  Ok (computeBoundingSphere mergedGeometry).

(** The single-mesh branch after the clone: normals are computed when
    the geometry has none. *)
Definition ensureNormals (modelGeometry : BufferGeometry) : BufferGeometry :=
  match attributes modelGeometry !! "normal" with
  | None => computeVertexNormals modelGeometry
  | Some _ => modelGeometry
  end.

(** The traversal callback: meshes that carry a geometry. *)
Definition collectGeometries (scene : list Object3D) : list BufferGeometry :=
  omap (fun child => if isMesh child then geometry child else None) scene.

(** The success callback of [gltfLoader.load]: the value the promise
    resolves with ([None] for [null]). *)
Definition onLoad (p : string) (scene : list Object3D) : option LoadedModel :=
  let geometries := collectGeometries scene in
  match geometries with
  | [] => None
  | [g] =>
      Some {| path := p; model_geometry := ensureNormals (clone g) |}
  | g0 :: _ =>
      Some {| path := p;
              model_geometry :=
                match mergeGeometries geometries with
                | Ok merged => merged
                | Throw => g0
                end |}
  end.

(** One element of [loadPromises], settled. *)
Definition loadPromise (p : string) : option LoadedModel :=
  match gltfLoader_load p with
  | OnLoad scene => onLoad p scene
  | OnError => None
  end.

(** [loadAllModels] from the path list on: [Promise.all] keeps the
    order of the paths, the filter drops the [null] entries. *)
Definition loadModels (modelPaths : list string) : list LoadedModel :=
  let loadedModels := omap id (map loadPromise modelPaths) in
  if (length loadedModels =? 0)%nat then [] else loadedModels.

Definition loadAllModels : list LoadedModel :=
  loadModels discoverModelPaths.

(** *** main.js: building the instance pool *)

Definition OBJECT_COUNT : Z := calculateObjectCount OBJECT_CONFIG.

(** The body of the first [loadedModels.forEach]; the accumulator is
    [instancedMeshes] with [totalObjectsCreated]. *)
Definition createBatch (objectsPerModel : Z) (acc : list MeshData * Z)
    (model : LoadedModel) : list MeshData * Z :=
  let '(instancedMeshes, totalObjectsCreated) := acc in
  let objectsForThisModel :=
    Math_min objectsPerModel (OBJECT_COUNT - totalObjectsCreated) in
  if (objectsForThisModel <=? 0)%Z then acc
  else
    let baseMaterial :=
      {| metalness := METALNESS MATERIAL_CONFIG;
         roughness := ROUGHNESS MATERIAL_CONFIG;
         color := 0xffffff |} in
    let instancedMesh :=
      new_InstancedMesh (model_geometry model) baseMaterial
        objectsForThisModel in
    let colorArray := replicate (Z.to_nat (objectsForThisModel * 3)) 0 in
    (instancedMeshes ++
       [ {| mesh := instancedMesh;
            objects := [];
            count := objectsForThisModel;
            colorArray := colorArray |} ],
     (totalObjectsCreated + objectsForThisModel)%Z).

Definition objectsPerModel (loadedModels : list LoadedModel) : Z :=
  Math_ceil (inject_Z OBJECT_COUNT
             / inject_Z (Z.of_nat (length loadedModels))).

Definition createBatches (loadedModels : list LoadedModel)
    : list MeshData * Z :=
  fold_left (createBatch (objectsPerModel loadedModels)) loadedModels
    ([], 0%Z).

(** The [objectState] literal: nine draws, in source order. *)
Definition newObjectState (mi i : nat) : Rand ObjectState :=
  r1 <- Math_random;;
  r2 <- Math_random;;
  r3 <- Math_random;;
  r4 <- Math_random;;
  r5 <- Math_random;;
  r6 <- Math_random;;
  r7 <- Math_random;;
  r8 <- Math_random;;
  r9 <- Math_random;;
  ret {| meshIndex := mi;
         instanceIndex := i;
         position :=
           {| Vector3.x := (r1 - 0.5) * X_SPREAD OBJECT_CONFIG;
              Vector3.y :=
                Y_OFFSET OBJECT_CONFIG + (r2 - 0.5) * Y_SPREAD OBJECT_CONFIG;
              Vector3.z := (r3 - 0.5) * Z_SPREAD OBJECT_CONFIG |};
         rotation :=
           {| Euler.x := r4 * Math_PI;
              Euler.y := r5 * Math_PI;
              Euler.z := r6 * Math_PI |};
         scale :=
           r7 * (MAX_SCALE OBJECT_CONFIG - MIN_SCALE OBJECT_CONFIG)
           + MIN_SCALE OBJECT_CONFIG;
         rotationSpeedX := (r8 - 0.5) * MAX_ROTATION_SPEED ANIMATION_CONFIG;
         rotationSpeedZ := (r9 - 0.5) * MAX_ROTATION_SPEED ANIMATION_CONFIG |}.

(** The body of [for (let i = 0; i < meshData.count; i++)]. *)
Definition initInstance (mi : nat) (st : MeshData * list ObjectState)
    (i : nat) : Rand (MeshData * list ObjectState) :=
  let '(meshData, allObjects) := st in
  objectState <- newObjectState mi i;;
  let ref := length allObjects in
  let allObjects := allObjects ++ [objectState] in
  r <- Math_random;;
  let randomColor :=
    array_get OBJECT_COLORS
      (Math_floor (r * inject_Z (Z.of_nat (length OBJECT_COLORS)))) in
  let '(cr, cg, cb) := new_Color randomColor in
  let colorArray :=
    <[(i * 3 + 2)%nat := cb]>
      (<[(i * 3 + 1)%nat := cg]>
         (<[(i * 3)%nat := cr]> (colorArray meshData))) in
  let m :=
    setMatrixAt i
      (dummy_matrix (position objectState) (rotation objectState)
         (scale objectState))
      (mesh meshData) in
  ret ({| mesh := m;
          objects := objects meshData ++ [ref];
          count := count meshData;
          colorArray := colorArray |},
       allObjects).

(** After the inner loop: [mesh.instanceColor] wraps the colour array. *)
Definition attachColors (meshData : MeshData) : MeshData :=
  with_mesh meshData
    {| mesh_geometry := mesh_geometry (mesh meshData);
       material := material (mesh meshData);
       mesh_count := mesh_count (mesh meshData);
       instanceMatrix := instanceMatrix (mesh meshData);
       instanceColor := Some (colorArray meshData) |}.

(** The second [forEach], over [instancedMeshes] from [mi] on. *)
Fixpoint populate (mi : nat) (todo : list MeshData)
    (allObjects : list ObjectState) : Rand (list MeshData * list ObjectState) :=
  match todo with
  | [] => ret ([], allObjects)
  | meshData :: rest =>
      st <- foldM (initInstance mi) (meshData, allObjects)
              (seq 0 (Z.to_nat (count meshData)));;
      let '(meshData', allObjects') := st in
      tl <- populate (S mi) rest allObjects';;
      let '(rest', allObjects'') := tl in
      ret (attachColors meshData' :: rest', allObjects'')
  end.

(** [initializeScene] up to the start of the animation; [None] when
    it returns early because no model was loaded. *)
Definition initializeScene : Rand (option SceneState) :=
  let loadedModels := loadAllModels in
  if (length loadedModels =? 0)%nat then ret None
  else
    let '(instancedMeshes, totalObjectsCreated) :=
      createBatches loadedModels in
    st <- populate 0 instancedMeshes [];;
    let '(instancedMeshes, allObjects) := st in
    ret (Some {| instancedMeshes := instancedMeshes;
                 allObjects := allObjects |}).

(** *** main.js: the frame update *)

(** Fall and spin: the first three assignments of the loop body. *)
Definition fallAndSpin (obj : ObjectState) : ObjectState :=
  let obj :=
    with_position obj
      {| Vector3.x := Vector3.x (position obj);
         Vector3.y := Vector3.y (position obj) - FALL_SPEED ANIMATION_CONFIG;
         Vector3.z := Vector3.z (position obj) |} in
  with_rotation obj
    {| Euler.x :=
         Euler.x (rotation obj)
         + rotationSpeedX obj * ROTATION_MULTIPLIER ANIMATION_CONFIG;
       Euler.y := Euler.y (rotation obj);
       Euler.z :=
         Euler.z (rotation obj)
         + rotationSpeedZ obj * ROTATION_MULTIPLIER ANIMATION_CONFIG |}.

Definition recycleThreshold : Q :=
  Y_OFFSET OBJECT_CONFIG - Y_SPREAD OBJECT_CONFIG / 2 - 10.

(** The recycling test and its branch. *)
Definition recycle (obj : ObjectState) : Rand ObjectState :=
  if Qlt_le_dec (Vector3.y (position obj)) recycleThreshold then
    let py := Y_OFFSET OBJECT_CONFIG + Y_SPREAD OBJECT_CONFIG / 2 in
    r1 <- Math_random;;
    let px := (r1 - 0.5) * X_SPREAD OBJECT_CONFIG in
    r2 <- Math_random;;
    let pz := (r2 - 0.5) * Z_SPREAD OBJECT_CONFIG in
    ret (with_position obj
           {| Vector3.x := px; Vector3.y := py; Vector3.z := pz |})
  else ret obj.

Definition updateObject (obj : ObjectState) : Rand ObjectState :=
  recycle (fallAndSpin obj).

(** The end of the loop body: the object's matrix goes into its slot.
    [instancedMeshes[obj.meshIndex]] is [undefined] out of range and
    reading [.mesh] from it throws. *)
Definition writeInstance (instancedMeshes : list MeshData) (obj : ObjectState)
    : Result (list MeshData) :=
  match instancedMeshes !! meshIndex obj with
  | Some meshData =>
      Ok (<[meshIndex obj :=
             with_mesh meshData
               (setMatrixAt (instanceIndex obj)
                  (dummy_matrix (position obj) (rotation obj) (scale obj))
                  (mesh meshData))]> instancedMeshes)
  | None => Throw
  end.

(** [allObjects.forEach] of one frame.  A throw leaves the frame and
    the animation is not scheduled again.  The camera log, the controls
    and the two render calls of [animate] read this state and leave it
    as it is. *)
Fixpoint forEachObject (objs : list ObjectState) (instancedMeshes : list MeshData)
    : Rand (Result (list ObjectState * list MeshData)) :=
  match objs with
  | [] => ret (Ok ([], instancedMeshes))
  | obj :: rest =>
      obj' <- updateObject obj;;
      match writeInstance instancedMeshes obj' with
      | Throw => ret Throw
      | Ok instancedMeshes' =>
          r <- forEachObject rest instancedMeshes';;
          ret (res <-! r; Ok (obj' :: fst res, snd res))
      end
  end.

Definition animate (s : SceneState) : Rand (Result SceneState) :=
  r <- forEachObject (allObjects s) (instancedMeshes s);;
  ret (res <-! r;
       Ok {| instancedMeshes := snd res; allObjects := fst res |}).

(** [k] frames in a row. *)
Fixpoint frames (k : nat) (s : SceneState) : Rand (Result SceneState) :=
  match k with
  | O => ret (Ok s)
  | S k' =>
      r <- animate s;;
      match r with
      | Ok s' => frames k' s'
      | Throw => ret Throw
      end
  end.

End Program.

(** ** Notions used in the statements *)

(** The partition rule as the specification words it: each of
    [numModels] models in order receives
    [min(perModel, N - alreadyAssigned)]. *)
Fixpoint spec_assign (perModel N alreadyAssigned : Z) (numModels : nat)
    : list Z :=
  match numModels with
  | O => []
  | S n =>
      let k := Z.min perModel (N - alreadyAssigned) in
      k :: spec_assign perModel N (alreadyAssigned + k) n
  end.

Definition sumZ (l : list Z) : Z := fold_right Z.add 0%Z l.

(** What the pool builder allocates for a batch of [count] objects. *)
Definition batch_ok (perModel : Z) (b : MeshData) : Prop :=
  (0 < count b <= perModel)%Z
  /\ mesh_count (mesh b) = count b
  /\ length (instanceMatrix (mesh b)) = Z.to_nat (count b)
  /\ length (colorArray b) = Z.to_nat (count b * 3)
  /\ objects b = [].

(** Every object refers to a batch that exists. *)
Definition scene_wf (s : SceneState) : Prop :=
  Forall (fun o => (meshIndex o < length (instancedMeshes s))%nat) (allObjects s).

(** The top of the fall range, where a recycled object reappears. *)
Definition respawnHeight (cfg : ObjectConfig) : Q :=
  Y_OFFSET cfg + Y_SPREAD cfg / 2.

(** The colours of a batch: the colour array and the instance attribute
    that wraps it. *)
Definition batchColors (meshData : MeshData) : list Q * option (list Q) :=
  (colorArray meshData, instanceColor (mesh meshData)).

(** The array of a named attribute, empty when the geometry lacks it. *)
Definition attributeArray (name : string) (g : BufferGeometry) : list Q :=
  match attributes g !! name with
  | Some a => array a
  | None => []
  end.

(** The vertical range in which objects are created. *)
Definition in_fall_range (cfg : ObjectConfig) (o : ObjectState) : Prop :=
  Y_OFFSET cfg - Y_SPREAD cfg / 2 <= Vector3.y (position o)
  /\ Vector3.y (position o) <= Y_OFFSET cfg + Y_SPREAD cfg / 2.

(** The number of objects that the batches ask for. *)
Definition requested (batches : list MeshData) : nat :=
  fold_right (fun b acc => (Z.to_nat (count b) + acc)%nat) 0%nat batches.

(** ** Sample inputs: geometries, a loader and a random stream *)

Definition attr3 (a : list Q) : BufferAttribute := {| array := a; itemSize := 3 |}.
Definition attr2 (a : list Q) : BufferAttribute := {| array := a; itemSize := 2 |}.

Definition triangle_positions : list Q := [0; 0; 0; 1; 0; 0; 0; 1; 0].
Definition triangle_normals : list Q := [0; 0; 1; 0; 0; 1; 0; 0; 1].
Definition triangle_uvs : list Q := [0; 0; 1; 0; 0; 1].

Definition quad_positions : list Q := [2; 0; 0; 3; 0; 0; 3; 1; 0; 2; 1; 0].
Definition quad_normals : list Q := [0; 0; 1; 0; 0; 1; 0; 0; 1; 0; 0; 1].
Definition quad_uvs : list Q := [0; 0; 1; 0; 1; 1; 0; 1].

(** Three vertices with position, normal and uv. *)
Definition triangle : BufferGeometry :=
  {| attributes :=
       <["uv" := attr2 triangle_uvs]>
         (<["normal" := attr3 triangle_normals]>
            (<["position" := attr3 triangle_positions]> ∅));
     index := None;
     boundingSphere := None |}.

(** Four vertices with position, normal and uv. *)
Definition quad : BufferGeometry :=
  {| attributes :=
       <["uv" := attr2 quad_uvs]>
         (<["normal" := attr3 quad_normals]>
            (<["position" := attr3 quad_positions]> ∅));
     index := None;
     boundingSphere := None |}.

(** Four vertices with positions only. *)
Definition bare_quad : BufferGeometry :=
  {| attributes := <["position" := attr3 quad_positions]> ∅;
     index := None;
     boundingSphere := None |}.

Definition mesh_of (g : BufferGeometry) : Object3D :=
  {| isMesh := true; geometry := Some g |}.

Definition group_node : Object3D := {| isMesh := false; geometry := None |}.

(** A loader that knows three files and fails on every other path. *)
Definition sample_load (p : string) : LoadOutcome :=
  if String.eqb p "models/one.glb" then OnLoad [group_node; mesh_of triangle]
  else if String.eqb p "models/two.glb" then
    OnLoad [group_node; mesh_of triangle; mesh_of quad]
  else if String.eqb p "models/bare.glb" then
    OnLoad [mesh_of bare_quad; mesh_of triangle]
  else OnError.

(** The stream 0, 1/8, ..., 7/8, 0, 1/8, ... *)
Definition sample_random (n : nat) : Q := Z.of_nat (n mod 8) # 8.

(** Unit normals along z, one per vertex. *)
Definition sample_vertexNormals (positions : list Q) (idx : option (list nat))
    : list Q :=
  flat_map (fun _ => [0; 0; 1]) (vertices positions).

Definition sumSquares (a : list Q) : Q :=
  fold_right (fun c acc => c * c + acc) 0 a.

(** A sphere about the origin that is large enough for the positions. *)
Definition sample_sphere (positions : list Q) : Sphere :=
  {| center := {| Vector3.x := 0; Vector3.y := 0; Vector3.z := 0 |};
     radius := 1 + sumSquares positions |}.

(** A configuration that yields a chosen object count. *)
Definition config_with_count (n : Z) : ObjectConfig :=
  {| TARGET_DENSITY := 1000000;
     X_SPREAD := inject_Z n;
     Y_SPREAD := 1;
     Z_SPREAD := 1;
     Y_OFFSET := 0;
     MIN_SCALE := 0.02;
     MAX_SCALE := 0.1 |}.

Definition sample_models (n : nat) : list LoadedModel :=
  replicate n {| path := "models/one.glb"; model_geometry := triangle |}.

(** A scene of one batch with two objects, one high up and one near the
    bottom of the fall range of the default configuration. *)
Definition sample_object (i : nat) (py : Q) : ObjectState :=
  {| meshIndex := 0;
     instanceIndex := i;
     position := {| Vector3.x := 5; Vector3.y := py; Vector3.z := -3 |};
     rotation := {| Euler.x := 0.1; Euler.y := 0.2; Euler.z := 0.3 |};
     scale := 0.05;
     rotationSpeedX := 0.1;
     rotationSpeedZ := -0.2 |}.

Definition sample_meshData : MeshData :=
  {| mesh :=
       {| mesh_geometry := triangle;
          material := {| metalness := 0.45; roughness := 0.9; color := 0xffffff |};
          mesh_count := 2;
          instanceMatrix := [ZeroMatrix; ZeroMatrix];
          instanceColor := Some [1; 0; 0; 0; 0; 1] |};
     objects := [0%nat; 1%nat];
     count := 2;
     colorArray := [1; 0; 0; 0; 0; 1] |}.

Definition sample_scene : SceneState :=
  {| instancedMeshes := [sample_meshData];
     allObjects := [sample_object 0%nat 100; sample_object 1%nat (-299.5)] |}.

(** A triangle with an index and a vertex-colour attribute besides
    its positions. *)
Definition indexed_triangle : BufferGeometry :=
  {| attributes :=
       <["color" := attr3 [1; 0; 0; 0; 1; 0; 0; 0; 1]]>
         (<["position" := attr3 triangle_positions]> ∅);
     index := Some [0; 1; 2]%nat;
     boundingSphere := None |}.

(** The place of an object in the instance buffers: its batch and its
    slot in that batch. *)
Definition slot (o : ObjectState) : nat * nat :=
  (meshIndex o, instanceIndex o).

(** [instancedMeshes[mi].mesh.getMatrixAt(ii)], when both exist. *)
Definition matrixAt (meshes : list MeshData) (sl : nat * nat) : option Matrix4 :=
  match meshes !! fst sl with
  | Some meshData => instanceMatrix (mesh meshData) !! snd sl
  | None => None
  end.

(** The buffer holds the matrix of the object's current state. *)
Definition mirrored (meshes : list MeshData) (o : ObjectState) : Prop :=
  matrixAt meshes (slot o)
  = Some (dummy_matrix (position o) (rotation o) (scale o)).

(** Every object has a slot of its own that exists in the buffers. *)
Definition slots_ok (s : SceneState) : Prop :=
  NoDup (map slot (allObjects s))
  /\ Forall (fun o => is_Some (matrixAt (instancedMeshes s) (slot o)))
       (allObjects s).


(** The colour that the draw [r] picks from the palette. *)
Definition drawnColor (colors : list Z) (r : Q) : Q * Q * Q :=
  new_Color
    (array_get colors (Math_floor (r * inject_Z (Z.of_nat (length colors))))).



(** Whether the coming frame recycles the object. *)
Definition willRecycle (cfg : ObjectConfig) (anim : AnimationConfig)
    (o : ObjectState) : bool :=
  if Qlt_le_dec (Vector3.y (position o) - FALL_SPEED anim) (recycleThreshold cfg)
  then true else false.

(** What any number of frames leave of an object and in which
    direction they turn it, whether or not it is recycled. *)
Definition turned (anim : AnimationConfig) (o o' : ObjectState) : Prop :=
  slot o' = slot o
  /\ scale o' = scale o
  /\ rotationSpeedX o' = rotationSpeedX o
  /\ rotationSpeedZ o' = rotationSpeedZ o
  /\ Euler.y (rotation o') = Euler.y (rotation o)
  /\ (0 <= rotationSpeedX o * ROTATION_MULTIPLIER anim ->
      Euler.x (rotation o) <= Euler.x (rotation o'))
  /\ (rotationSpeedX o * ROTATION_MULTIPLIER anim <= 0 ->
      Euler.x (rotation o') <= Euler.x (rotation o))
  /\ (0 <= rotationSpeedZ o * ROTATION_MULTIPLIER anim ->
      Euler.z (rotation o) <= Euler.z (rotation o'))
  /\ (rotationSpeedZ o * ROTATION_MULTIPLIER anim <= 0 ->
      Euler.z (rotation o') <= Euler.z (rotation o)).

(** ** utils.js: the frame-rate limiter

    [createFrameRateLimitedAnimation(animateFunction, targetFPS)]
    returns a closure.  Its state is what [animateFunction] acts on and,
    in the limited case, [lastFrameTime]; a tick is one call of the
    closure, with the timestamp that [requestAnimationFrame] passes or
    without an argument.  Every call requests the next frame, so the
    ticks go on whatever a call does.  Without a timestamp
    [currentTime - lastFrameTime] is NaN and the comparison is false. *)
Definition limitedAnimate {S : Type} (animateFunction : S -> S)
    (targetFPS : Q) (currentTime : option Q) (st : S * Q) : S * Q :=
  let '(state, lastFrameTime) := st in
  if Qle_bool targetFPS 0 then (animateFunction state, lastFrameTime)
  else
    let targetFrameTime := 1000 / targetFPS in
    match currentTime with
    | Some t =>
        if Qle_bool targetFrameTime (t - lastFrameTime)
        then (animateFunction state, t)
        else (state, lastFrameTime)
    | None => (state, lastFrameTime)
    end.

(** The ticks of a run, from [lastFrameTime = 0]. *)
Definition limitedRun {S : Type} (animateFunction : S -> S) (targetFPS : Q)
    (ticks : list (option Q)) (state : S) : S * Q :=
  fold_left (fun st t => limitedAnimate animateFunction targetFPS t st)
    ticks (state, 0).

(** Ticks that come at least [gap] after one another, the first at
    least [gap] after [from]. *)
Fixpoint spaced (gap from : Q) (ticks : list (option Q)) : Prop :=
  match ticks with
  | [] => True
  | Some t :: rest => gap <= t - from /\ spaced gap t rest
  | None :: _ => False
  end.

(** ** main.js: the camera log of [animate]

    [animate.lastLoggedTime] starts undefined; a frame at
    [elapsedTime] logs the camera when the whole second is a multiple
    of five and differs from the last logged one. *)
Definition cameraLogStep (elapsedTime : Q) (lastLoggedTime : option Z)
    : bool * option Z :=
  let second := Math_floor elapsedTime in
  if (Z.rem second 5 =? 0)%Z
     && negb match lastLoggedTime with
             | Some l => (second =? l)%Z
             | None => false
             end
  then (true, Some second)
  else (false, lastLoggedTime).

(** The seconds at which the frames of a run log the camera. *)
Fixpoint cameraLogs (times : list Q) (lastLoggedTime : option Z) : list Z :=
  match times with
  | [] => []
  | t :: rest =>
      let '(logged, last') := cameraLogStep t lastLoggedTime in
      (if logged then [Math_floor t] else []) ++ cameraLogs rest last'
  end.

(** ** utils.js: the directory listing behind [discoverModelPaths]

    The fetch of the model directory (with the reading of its body)
    fails, or yields a response with its [ok] flag and, once parsed as
    HTML, the [href] values of its anchors in document order. *)
Inductive FetchOutcome : Type :=
  | FetchFails
  | FetchResponse (ok : bool) (hrefs : list string).

(** The attribute selector [href$=".glb"]: the value ends with the
    suffix, letter case included. *)
Definition endsWith (suffix s : string) : bool :=
  bool_decide (String.list_ascii_of_string suffix
               `suffix_of` String.list_ascii_of_string s).

(** [doc.querySelectorAll('a[href$=".glb"]')] of an OK response; a
    failed fetch or a response that is not OK falls through to the
    fallback list. *)
Definition glbLinks (r : FetchOutcome) : option (list string) :=
  match r with
  | FetchResponse true hrefs => Some (List.filter (endsWith ".glb") hrefs)
  | FetchResponse false _ => None
  | FetchFails => None
  end.

(** ** The earlier single-model scripts: choosing the geometry

    [modelGeometry] starts undefined and the traversal callback
    assigns [child.geometry] to it at every mesh. *)
Definition legacy_pickGeometry (scene : list Object3D) : option BufferGeometry :=
  fold_left
    (fun modelGeometry child =>
       if isMesh child then geometry child else modelGeometry)
    scene None.

(** Everything in a batch that is not an instance matrix. *)
Definition batchFrame (meshData : MeshData)
    : list nat * Z * list Q * BufferGeometry * Material * Z
      * option (list Q) * nat :=
  (objects meshData, count meshData, colorArray meshData,
   mesh_geometry (mesh meshData), material (mesh meshData),
   mesh_count (mesh meshData), instanceColor (mesh meshData),
   length (instanceMatrix (mesh meshData))).

(** The object lists of the batches refer to the batches' own objects:
    entry [j] of batch [i] is the index in [allObjects] of the object
    in slot [j] of batch [i]. *)
Definition references_ok (first : nat) (meshes : list MeshData)
    (all : list ObjectState) : Prop :=
  forall (i : nat) (meshData : MeshData),
    meshes !! i = Some meshData ->
    length (objects meshData) = Z.to_nat (count meshData)
    /\ forall (j r : nat),
         objects meshData !! j = Some r ->
         exists o : ObjectState,
           all !! r = Some o /\ slot o = ((first + i)%nat, j).


(** * The binary64 reading

    Where a statement depends on how the results of arithmetic are
    rounded, the program is read with the numbers JavaScript has:
    [float] is binary64, and its operations round to nearest, ties to
    even, as the source's [*], [/], [+] and [-] do.  The literals of
    config.js denote the doubles nearest to them. *)

Module Binary64.

(** The rational that a finite double denotes, in lowest terms; NaN and
    the infinities denote none. *)
Definition value (x : float) : option Q :=
  match Prim2SF x with
  | S754_zero _ => Some 0
  | S754_finite s m e =>
      let n := if s then Z.neg m else Z.pos m in
      Some (if (0 <=? e)%Z
            then inject_Z (n * 2 ^ e)
            else Qred (n # (2 ^ Z.to_pos (- e))%positive))
  | S754_infinity _ => None
  | S754_nan => None
  end.

(** [Math.round] of a finite number: the nearest integer, ties towards
    +infinity.  NaN and the infinities are returned as they are, which
    is no integer. *)
Definition Math_round (x : float) : option Z :=
  option_map (fun v => Qfloor (v + (1 # 2))) (value x).

(** *** config.js *)

Record ObjectConfig := {
  TARGET_DENSITY : float;
  X_SPREAD : float;
  Y_SPREAD : float;
  Z_SPREAD : float;
  Y_OFFSET : float;
  MIN_SCALE : float;
  MAX_SCALE : float
}.

Record AnimationConfig := {
  FALL_SPEED : float;
  MAX_ROTATION_SPEED : float;
  ROTATION_MULTIPLIER : float
}.

Definition default_OBJECT_CONFIG : ObjectConfig := {|
  TARGET_DENSITY := 4;
  X_SPREAD := 200;
  Y_SPREAD := 600;
  Z_SPREAD := 100;
  Y_OFFSET := 0;
  MIN_SCALE := 0.02;
  MAX_SCALE := 0.1
|}.

Definition default_ANIMATION_CONFIG : AnimationConfig := {|
  FALL_SPEED := 0.8;
  MAX_ROTATION_SPEED := 0.5;
  ROTATION_MULTIPLIER := 0.02
|}.

(** *** utils.js: the density-based object count *)

Definition calculateObjectCount (OBJECT_CONFIG : ObjectConfig) : option Z :=
  let volume :=
    (X_SPREAD OBJECT_CONFIG * Y_SPREAD OBJECT_CONFIG
     * Z_SPREAD OBJECT_CONFIG)%float in
  let densityPerCubicUnit := (TARGET_DENSITY OBJECT_CONFIG / 1000000)%float in
  let calculatedCount := Math_round (volume * densityPerCubicUnit)%float in
  calculatedCount.

(** *** main.js: the state of an object *)

Module Vector3.
Record t := { x : float; y : float; z : float }.
End Vector3.

Module Euler.
Record t := { x : float; y : float; z : float }.
End Euler.

Record ObjectState := {
  meshIndex : nat;
  instanceIndex : nat;
  position : Vector3.t;
  rotation : Euler.t;
  scale : float;
  rotationSpeedX : float;
  rotationSpeedZ : float
}.

Definition with_position (obj : ObjectState) (p : Vector3.t) : ObjectState :=
  {| meshIndex := meshIndex obj;
     instanceIndex := instanceIndex obj;
     position := p;
     rotation := rotation obj;
     scale := scale obj;
     rotationSpeedX := rotationSpeedX obj;
     rotationSpeedZ := rotationSpeedZ obj |}.

Definition with_rotation (obj : ObjectState) (r : Euler.t) : ObjectState :=
  {| meshIndex := meshIndex obj;
     instanceIndex := instanceIndex obj;
     position := position obj;
     rotation := r;
     scale := scale obj;
     rotationSpeedX := rotationSpeedX obj;
     rotationSpeedZ := rotationSpeedZ obj |}.

(** The matrix that [dummy.updateMatrix()] composes from the position,
    the rotation and the scale, kept symbolic. *)
Inductive Matrix4 : Type :=
  | ZeroMatrix
  | Compose (position : Vector3.t) (rotation : Euler.t) (scale : float).

(** Of an entry of [instancedMeshes] the frame update touches the
    instance matrices only: a batch is its [mesh.instanceMatrix]. *)
Record SceneState := {
  instancedMeshes : list (list Matrix4);
  allObjects : list ObjectState
}.

(** *** main.js: the frame update *)

Section Frame.

Variable OBJECT_CONFIG : ObjectConfig.
Variable ANIMATION_CONFIG : AnimationConfig.
Variable random : nat -> float.

Definition Math_random : Rand float := fun n => (random n, S n).

Definition fallAndSpin (obj : ObjectState) : ObjectState :=
  let obj :=
    with_position obj
      {| Vector3.x := Vector3.x (position obj);
         Vector3.y :=
           (Vector3.y (position obj) - FALL_SPEED ANIMATION_CONFIG)%float;
         Vector3.z := Vector3.z (position obj) |} in
  with_rotation obj
    {| Euler.x :=
         (Euler.x (rotation obj)
          + rotationSpeedX obj * ROTATION_MULTIPLIER ANIMATION_CONFIG)%float;
       Euler.y := Euler.y (rotation obj);
       Euler.z :=
         (Euler.z (rotation obj)
          + rotationSpeedZ obj * ROTATION_MULTIPLIER ANIMATION_CONFIG)%float |}.

Definition recycleThreshold : float :=
  (Y_OFFSET OBJECT_CONFIG - Y_SPREAD OBJECT_CONFIG / 2 - 10)%float.

Definition recycle (obj : ObjectState) : Rand ObjectState :=
  if (Vector3.y (position obj) <? recycleThreshold)%float then
    let py := (Y_OFFSET OBJECT_CONFIG + Y_SPREAD OBJECT_CONFIG / 2)%float in
    r1 <- Math_random;;
    let px := ((r1 - 0.5) * X_SPREAD OBJECT_CONFIG)%float in
    r2 <- Math_random;;
    let pz := ((r2 - 0.5) * Z_SPREAD OBJECT_CONFIG)%float in
    ret (with_position obj
           {| Vector3.x := px; Vector3.y := py; Vector3.z := pz |})
  else ret obj.

Definition updateObject (obj : ObjectState) : Rand ObjectState :=
  recycle (fallAndSpin obj).

(** The end of the loop body.  [instancedMeshes[obj.meshIndex]] is
    [undefined] out of range and reading [.mesh] from it throws; a
    write past the end of the typed array is dropped. *)
Definition writeInstance (instancedMeshes : list (list Matrix4))
    (obj : ObjectState) : Result (list (list Matrix4)) :=
  match instancedMeshes !! meshIndex obj with
  | Some instanceMatrix =>
      Ok (<[meshIndex obj :=
             <[instanceIndex obj :=
                 Compose (position obj) (rotation obj) (scale obj)]>
               instanceMatrix]> instancedMeshes)
  | None => Throw
  end.

(** [allObjects.forEach] of one frame; a throw leaves the frame and the
    animation is not scheduled again. *)
Fixpoint forEachObject (objs : list ObjectState)
    (instancedMeshes : list (list Matrix4))
    : Rand (Result (list ObjectState * list (list Matrix4))) :=
  match objs with
  | [] => ret (Ok ([], instancedMeshes))
  | obj :: rest =>
      obj' <- updateObject obj;;
      match writeInstance instancedMeshes obj' with
      | Throw => ret Throw
      | Ok instancedMeshes' =>
          r <- forEachObject rest instancedMeshes';;
          ret (res <-! r; Ok (obj' :: fst res, snd res))
      end
  end.

Definition animate (s : SceneState) : Rand (Result SceneState) :=
  r <- forEachObject (allObjects s) (instancedMeshes s);;
  ret (res <-! r;
       Ok {| instancedMeshes := snd res; allObjects := fst res |}).

(** [k] frames in a row. *)
Fixpoint frames (k : nat) (s : SceneState) : Rand (Result SceneState) :=
  match k with
  | O => ret (Ok s)
  | S k' =>
      r <- animate s;;
      match r with
      | Ok s' => frames k' s'
      | Throw => ret Throw
      end
  end.

End Frame.

(** *** Notions used in the statements *)

(** [k] times [y -= step], each difference rounded. *)
Definition lowered (step : float) (k : nat) (y : float) : float :=
  Nat.iter k (fun y => (y - step)%float) y.

(** [k] times [r += step], each sum rounded. *)
Definition advanced (step : float) (k : nat) (r : float) : float :=
  Nat.iter k (fun r => (r + step)%float) r.

Definition respawnHeight (cfg : ObjectConfig) : float :=
  (Y_OFFSET cfg + Y_SPREAD cfg / 2)%float.

(** What [K] frames make of an object. *)
Definition moved (cfg : ObjectConfig) (anim : AnimationConfig) (K : nat)
    (o o' : ObjectState) : Prop :=
  meshIndex o' = meshIndex o
  /\ instanceIndex o' = instanceIndex o
  /\ scale o' = scale o
  /\ rotationSpeedX o' = rotationSpeedX o
  /\ rotationSpeedZ o' = rotationSpeedZ o
  /\ Euler.x (rotation o')
     = advanced (rotationSpeedX o * ROTATION_MULTIPLIER anim)%float K
         (Euler.x (rotation o))
  /\ Euler.y (rotation o') = Euler.y (rotation o)
  /\ Euler.z (rotation o')
     = advanced (rotationSpeedZ o * ROTATION_MULTIPLIER anim)%float K
         (Euler.z (rotation o))
  /\ (Vector3.y (position o')
      = lowered (FALL_SPEED anim) K (Vector3.y (position o))
      \/ exists j : nat,
           (j < K)%nat
           /\ Vector3.y (position o')
              = lowered (FALL_SPEED anim) j (respawnHeight cfg))
  /\ ((forall j : nat,
          (j < K)%nat ->
          (lowered (FALL_SPEED anim) (S j) (Vector3.y (position o))
           <? recycleThreshold cfg)%float = false) ->
      position o'
      = {| Vector3.x := Vector3.x (position o);
           Vector3.y := lowered (FALL_SPEED anim) K (Vector3.y (position o));
           Vector3.z := Vector3.z (position o) |}).

(** Every object refers to a batch that exists. *)
Definition scene_wf (s : SceneState) : Prop :=
  Forall (fun o => (meshIndex o < length (instancedMeshes s))%nat)
    (allObjects s).

(** The heights of the objects of a completed run. *)
Definition heights (r : Result SceneState) : option (list float) :=
  match r with
  | Ok s => Some (map (fun o => Vector3.y (position o)) (allObjects s))
  | Throw => None
  end.

(** An object in slot 0 of batch 0, at height [py]. *)
Definition sample_object (py : float) : ObjectState :=
  {| meshIndex := 0;
     instanceIndex := 0;
     position := {| Vector3.x := 1; Vector3.y := py; Vector3.z := 2 |};
     rotation := {| Euler.x := 0; Euler.y := 0.25; Euler.z := 0 |};
     scale := 0.05;
     rotationSpeedX := 0.25;
     rotationSpeedZ := -0.125 |}.

(** The stream 0, 1/8, ..., 7/8, 0, 1/8, ... *)
Definition sample_random (n : nat) : float :=
  (PrimFloat.of_uint63 (Uint63.of_Z (Z.of_nat (n mod 8))) / 8)%float.

(** One batch with one instance, and the object at height [py]. *)
Definition sample_scene (py : float) : SceneState :=
  {| instancedMeshes := [[ZeroMatrix]]; allObjects := [sample_object py] |}.

End Binary64.

(** ** The object count *)

Lemma Math_round_comp (a b : Q) : a == b -> Math_round a = Math_round b.
Proof.
  intros E. unfold Math_round. apply Qfloor_comp. now rewrite E.
Qed.

Lemma Math_round_Z (n : Z) : Math_round (inject_Z n) = n.
Proof.
  unfold Math_round.
  assert (L : (n <= Qfloor (inject_Z n + (1 # 2)))%Z).
  { rewrite <- (Qfloor_Z n) at 1. apply Qfloor_resp_le. lra. }
  assert (U : (Qfloor (inject_Z n + (1 # 2)) < n + 1)%Z).
  { rewrite Zlt_Qlt. eapply Qle_lt_trans; [apply Qfloor_le|].
    rewrite inject_Z_plus. change (inject_Z 1) with 1. lra. }
  lia.
Qed.

Lemma config_with_count_ok (n : Z) :
  calculateObjectCount (config_with_count n) = n.
Proof.
  unfold calculateObjectCount, config_with_count; simpl.
  rewrite <- (Math_round_Z n) at 2. apply Math_round_comp. field.
Qed.

(** ** The instance pool: partition of the count *)

Lemma Math_ceil_div (a b : Z) :
  (0 < b)%Z -> Math_ceil (inject_Z a / inject_Z b) = ((a + b - 1) / b)%Z.
Proof.
  intros Hb. unfold Math_ceil, Qceiling.
  assert (E : - (inject_Z a / inject_Z b) == inject_Z (- a) / inject_Z b).
  { rewrite inject_Z_opp. field.
    intros H. unfold Qeq in H. simpl in H. lia. }
  rewrite (Qfloor_comp _ _ E), <- Zdiv_Qdiv.
  pose proof (Z.div_mod (- a) b ltac:(lia)).
  pose proof (Z.mod_pos_bound (- a) b Hb).
  pose proof (Z.div_mod (a + b - 1) b ltac:(lia)).
  pose proof (Z.mod_pos_bound (a + b - 1) b Hb).
  nia.
Qed.

Lemma Math_ceil_div_bounds (a b : Z) :
  (0 < b)%Z ->
  let c := Math_ceil (inject_Z a / inject_Z b) in
  (a <= c * b < a + b)%Z.
Proof.
  intros Hb c. subst c. rewrite Math_ceil_div by assumption.
  pose proof (Z.div_mod (a + b - 1) b ltac:(lia)).
  pose proof (Z.mod_pos_bound (a + b - 1) b Hb).
  nia.
Qed.

Lemma sumZ_app (l1 l2 : list Z) : sumZ (l1 ++ l2) = (sumZ l1 + sumZ l2)%Z.
Proof. induction l1 as [|a l1 IH]; simpl; [reflexivity | rewrite IH; lia]. Qed.

Lemma sumZ_nonneg (l : list Z) : Forall (fun k => (0 < k)%Z) l -> (0 <= sumZ l)%Z.
Proof. induction 1; simpl; lia. Qed.

Lemma sumZ_zero_nil (l : list Z) :
  Forall (fun k => (0 < k)%Z) l -> sumZ l = 0%Z -> l = [].
Proof.
  destruct 1 as [|k l Hk Hl]; [reflexivity|]. simpl.
  pose proof (sumZ_nonneg l Hl). lia.
Qed.

Lemma sumZ_take_le (l : list Z) (i : nat) :
  Forall (fun k => (0 < k)%Z) l -> (sumZ (take i l) <= sumZ l)%Z.
Proof.
  intros H. rewrite <- (take_drop i l) at 2. rewrite sumZ_app.
  assert (Forall (fun k => (0 < k)%Z) (drop i l)) by (apply Forall_drop; exact H).
  pose proof (sumZ_nonneg _ H0). lia.
Qed.

Section Partition.

Variable OBJECT_CONFIG : ObjectConfig.
Variable MATERIAL_CONFIG : MaterialConfig.

Let N : Z := OBJECT_COUNT OBJECT_CONFIG.

(** The loop invariant of the first [forEach], from any state with
    [0 <= totalObjectsCreated <= N]. *)
Lemma createBatch_fold (perModel : Z) (models : list LoadedModel) :
  (0 <= perModel)%Z ->
  forall (bs : list MeshData) (t : Z),
    (0 <= t <= N)%Z ->
    exists newbs : list MeshData,
      fold_left (createBatch OBJECT_CONFIG MATERIAL_CONFIG perModel) models (bs, t)
      = (bs ++ newbs, (t + sumZ (map count newbs))%Z)
      /\ map count newbs
         = List.filter (Z.ltb 0) (spec_assign perModel N t (length models))
      /\ (t + sumZ (map count newbs))%Z
         = Z.min N (t + perModel * Z.of_nat (length models))
      /\ Forall (batch_ok perModel) newbs
      /\ map (fun b => mesh_geometry (mesh b)) newbs
         = map model_geometry (take (length newbs) models).
Proof.
  intros HP. induction models as [|m rest IH]; intros bs t Ht.
  - exists []. simpl. rewrite app_nil_r.
    repeat split; try constructor; f_equal; lia.
  - cbn [fold_left length spec_assign]. unfold createBatch at 2.
    fold N. unfold Math_min.
    set (k := Z.min perModel (N - t)).
    destruct (Z.leb_spec k 0) as [Hk|Hk].
    + assert (k = 0%Z) by lia.
      destruct (IH bs t Ht) as (newbs & Hf & Hc & Hs & Hok & Hg).
      assert (Hnil : newbs = []).
      { assert (sumZ (map count newbs) = 0%Z) by nia.
        assert (map count newbs = []) as E.
        { apply sumZ_zero_nil; [|assumption].
          apply Forall_map. eapply Forall_impl; [exact Hok|].
          intros b Hb. destruct Hb as [? _]. simpl. lia. }
        destruct newbs; [reflexivity | discriminate]. }
      subst newbs. exists []. simpl in *. rewrite app_nil_r in *.
      replace (0 <? k)%Z with false by (symmetry; apply Z.ltb_ge; lia).
      replace (t + k)%Z with t by lia.
      repeat split; try assumption; try constructor; nia.
    + set (b := {| mesh := _; objects := []; count := k; colorArray := _ |}).
      destruct (IH (bs ++ [b]) (t + k)%Z ltac:(lia))
        as (newbs & Hf & Hc & Hs & Hok & Hg).
      exists (b :: newbs). cbn [map sumZ fold_right length take].
      change (fold_right Z.add 0%Z (map count newbs)) with (sumZ (map count newbs)).
      rewrite Hf, <- app_assoc. simpl app.
      cbn [List.filter]. rewrite <- Hc.
      replace (0 <? k)%Z with true by (symmetry; apply Z.ltb_lt; lia).
      split; [|split; [|split; [|split]]].
      * f_equal. simpl. ring.
      * reflexivity.
      * simpl count. rewrite Z.add_assoc, Hs. clear -Hk HP Ht. subst k.
        rewrite Nat2Z.inj_succ. nia.
      * constructor; [|exact Hok].
        unfold batch_ok, b, new_InstancedMesh; simpl.
        rewrite !length_replicate. repeat split; lia.
      * simpl. f_equal. exact Hg.
Qed.

End Partition.

(** C2: for a target count N >= 0 and a non-empty list of M loaded
    models, the pool builder takes perModel = ceil(N / M); the batch
    counts are, in model order, the values min(perModel, N - assigned)
    with the non-positive ones left out; the batches belong to the
    leading models; every batch count is positive and at most perModel,
    no prefix of the batches exceeds N, and the counts add up to N,
    which is also the final [totalObjectsCreated]. *)
Theorem createBatches_partition
    (cfg : ObjectConfig) (mat : MaterialConfig)
    (loadedModels : list LoadedModel)
    (HN : (0 <= OBJECT_COUNT cfg)%Z)
    (HM : loadedModels <> []) :
  objectsPerModel cfg loadedModels
  = ((OBJECT_COUNT cfg + Z.of_nat (length loadedModels) - 1)
     / Z.of_nat (length loadedModels))%Z
  /\ map count (fst (createBatches cfg mat loadedModels))
     = List.filter (Z.ltb 0)
         (spec_assign (objectsPerModel cfg loadedModels) (OBJECT_COUNT cfg) 0
            (length loadedModels))
  /\ map (fun b => mesh_geometry (mesh b)) (fst (createBatches cfg mat loadedModels))
     = map model_geometry
         (take (length (fst (createBatches cfg mat loadedModels))) loadedModels)
  /\ Forall (batch_ok (objectsPerModel cfg loadedModels))
       (fst (createBatches cfg mat loadedModels))
  /\ (forall i : nat,
         (sumZ (take i (map count (fst (createBatches cfg mat loadedModels))))
          <= OBJECT_COUNT cfg)%Z)
  /\ sumZ (map count (fst (createBatches cfg mat loadedModels))) = OBJECT_COUNT cfg
  /\ snd (createBatches cfg mat loadedModels) = OBJECT_COUNT cfg.
Proof.
  assert (HMpos : (0 < Z.of_nat (length loadedModels))%Z).
  { destruct loadedModels; [congruence | simpl length; lia]. }
  pose proof (Math_ceil_div_bounds (OBJECT_COUNT cfg) _ HMpos) as HB.
  cbv zeta in HB. fold (objectsPerModel cfg loadedModels) in HB.
  assert (HP : (0 <= objectsPerModel cfg loadedModels)%Z) by nia.
  destruct (createBatch_fold cfg mat _ loadedModels HP [] 0%Z ltac:(lia))
    as (newbs & Hf & Hc & Hs & Hok & Hg).
  unfold createBatches. rewrite Hf. simpl fst. simpl snd. simpl app.
  assert (Hsum : sumZ (map count newbs) = OBJECT_COUNT cfg) by lia.
  assert (Hpos : Forall (fun k => (0 < k)%Z) (map count newbs)).
  { apply Forall_map. eapply Forall_impl; [exact Hok|].
    intros b Hb. destruct Hb as [? _]. simpl. lia. }
  split; [apply Math_ceil_div; exact HMpos|].
  split; [exact Hc|]. split; [exact Hg|]. split; [exact Hok|].
  split; [|split; [exact Hsum | lia]].
  intros i. rewrite <- Hsum. apply sumZ_take_le. exact Hpos.
Qed.

Lemma createBatches_partition_witness :
  (0 <= OBJECT_COUNT default_OBJECT_CONFIG)%Z
  /\ sample_models 5 <> []
  /\ objectsPerModel default_OBJECT_CONFIG (sample_models 5) = 10%Z
  /\ map count
       (fst (createBatches default_OBJECT_CONFIG default_MATERIAL_CONFIG
               (sample_models 5)))
     = [10; 10; 10; 10; 8]%Z
  /\ sumZ (map count
             (fst (createBatches default_OBJECT_CONFIG default_MATERIAL_CONFIG
                     (sample_models 5))))
     = 48%Z.
Proof.
  assert (H1 : (0 <= OBJECT_COUNT default_OBJECT_CONFIG)%Z)
    by (vm_compute; discriminate).
  assert (H2 : sample_models 5 <> []) by discriminate.
  destruct (createBatches_partition default_OBJECT_CONFIG
              default_MATERIAL_CONFIG (sample_models 5) H1 H2)
    as (Hp & Hc & _ & _ & _ & Hs & _).
  split; [exact H1|]. split; [exact H2|].
  split; [rewrite Hp; reflexivity|].
  split; [rewrite Hc, Hp; reflexivity | rewrite Hs; reflexivity].
Defined.

Example partition_zero_count :
  createBatches (config_with_count 0) default_MATERIAL_CONFIG (sample_models 3)
  = ([], 0%Z).
Proof. vm_compute. reflexivity. Qed.

Example partition_seven_over_three :
  map count
    (fst (createBatches (config_with_count 7) default_MATERIAL_CONFIG
            (sample_models 3)))
  = [3; 3; 1]%Z.
Proof. vm_compute. reflexivity. Qed.

Example partition_four_over_three :
  map count
    (fst (createBatches (config_with_count 4) default_MATERIAL_CONFIG
            (sample_models 3)))
  = [2; 2]%Z.
Proof. vm_compute. reflexivity. Qed.

(** ** The frame update of one object *)

Lemma Qhalf (a : Q) : a / 2 == a * (1 # 2).
Proof. field. Qed.

Lemma centred_range (r spread : Q) :
  0 <= r -> r < 1 -> 0 <= spread ->
  - (spread / 2) <= (r - 0.5) * spread /\ (r - 0.5) * spread <= spread / 2.
Proof.
  intros H0 H1 Hs.
  pose proof (Qmult_le_0_compat _ _ H0 Hs).
  assert (0 <= (1 - r) * spread) by (apply Qmult_le_0_compat; lra).
  rewrite Qhalf. split; lra.
Qed.

Section Frame.

Variable OBJECT_CONFIG : ObjectConfig.
Variable ANIMATION_CONFIG : AnimationConfig.
Variable random : nat -> Q.

Local Abbreviation fallAndSpin' := (fallAndSpin ANIMATION_CONFIG).
Local Abbreviation recycle' := (recycle OBJECT_CONFIG random).
Local Abbreviation updateObject' := (updateObject OBJECT_CONFIG ANIMATION_CONFIG random).
Local Abbreviation threshold := (recycleThreshold OBJECT_CONFIG).

Lemma recycle_below (obj : ObjectState) (n : nat) :
  Vector3.y (position obj) < threshold ->
  recycle' obj n
  = (with_position obj
       {| Vector3.x := (random n - 0.5) * X_SPREAD OBJECT_CONFIG;
          Vector3.y := respawnHeight OBJECT_CONFIG;
          Vector3.z := (random (S n) - 0.5) * Z_SPREAD OBJECT_CONFIG |},
     S (S n)).
Proof.
  intros H. unfold recycle.
  destruct (Qlt_le_dec _ _) as [_|Hge]; [reflexivity|].
  exfalso. apply (Qlt_not_le _ _ H). exact Hge.
Qed.

Lemma recycle_above (obj : ObjectState) (n : nat) :
  threshold <= Vector3.y (position obj) ->
  recycle' obj n = (obj, n).
Proof.
  intros H. unfold recycle.
  destruct (Qlt_le_dec _ _) as [Hlt|_]; [|reflexivity].
  exfalso. apply (Qlt_not_le _ _ Hlt). exact H.
Qed.

(** Whatever the branch, recycling touches the position only. *)
Lemma recycle_keeps (obj : ObjectState) (n : nat) :
  let obj' := fst (recycle' obj n) in
  meshIndex obj' = meshIndex obj
  /\ instanceIndex obj' = instanceIndex obj
  /\ rotation obj' = rotation obj
  /\ scale obj' = scale obj
  /\ rotationSpeedX obj' = rotationSpeedX obj
  /\ rotationSpeedZ obj' = rotationSpeedZ obj.
Proof.
  unfold recycle. destruct (Qlt_le_dec _ _); simpl; repeat split; reflexivity.
Qed.

Lemma recycle_height (obj : ObjectState) (n : nat) :
  let obj' := fst (recycle' obj n) in
  (Vector3.y (position obj) < threshold
   /\ Vector3.y (position obj') = respawnHeight OBJECT_CONFIG)
  \/ (threshold <= Vector3.y (position obj) /\ obj' = obj).
Proof.
  unfold recycle. destruct (Qlt_le_dec _ _) as [Hlt|Hge]; simpl.
  - left. split; [exact Hlt | reflexivity].
  - right. split; [exact Hge | reflexivity].
Qed.

Lemma recycle_cursor (obj : ObjectState) (n : nat) :
  (n <= snd (recycle' obj n))%nat.
Proof.
  unfold recycle. destruct (Qlt_le_dec _ _); simpl; lia.
Qed.

Lemma updateObject_meshIndex (obj : ObjectState) (n : nat) :
  meshIndex (fst (updateObject' obj n)) = meshIndex obj.
Proof.
  unfold updateObject.
  destruct (recycle_keeps (fallAndSpin' obj) n) as (H & _). exact H.
Qed.

(** When the spread is not below -10 the respawn height is not below
    the threshold, so an updated object never ends below it. *)
Lemma updateObject_threshold (obj : ObjectState) (n : nat) :
  -10 <= Y_SPREAD OBJECT_CONFIG ->
  threshold <= Vector3.y (position (fst (updateObject' obj n))).
Proof.
  intros Hs. unfold updateObject.
  destruct (recycle_height (fallAndSpin' obj) n) as [[_ E]|[Hge E]].
  - rewrite E. unfold recycleThreshold, respawnHeight.
    rewrite Qhalf. lra.
  - rewrite E. exact Hge.
Qed.

End Frame.

(** ** The frame update of a scene *)

Section Frames.

Variable OBJECT_CONFIG : ObjectConfig.
Variable ANIMATION_CONFIG : AnimationConfig.
Variable random : nat -> Q.

Local Abbreviation fallAndSpin' := (fallAndSpin ANIMATION_CONFIG).
Local Abbreviation updateObject' := (updateObject OBJECT_CONFIG ANIMATION_CONFIG random).
Local Abbreviation forEachObject' := (forEachObject OBJECT_CONFIG ANIMATION_CONFIG random).
Local Abbreviation animate' := (animate OBJECT_CONFIG ANIMATION_CONFIG random).
Local Abbreviation frames' := (frames OBJECT_CONFIG ANIMATION_CONFIG random).
Local Abbreviation threshold := (recycleThreshold OBJECT_CONFIG).

Lemma writeInstance_ok (meshes : list MeshData) (obj : ObjectState) :
  (meshIndex obj < length meshes)%nat ->
  exists meshes' : list MeshData,
    writeInstance meshes obj = Ok meshes'
    /\ length meshes' = length meshes
    /\ map batchColors meshes' = map batchColors meshes.
Proof.
  intros Hlt. unfold writeInstance.
  destruct (meshes !! meshIndex obj) as [meshData|] eqn:E.
  - eexists. split; [reflexivity|]. split; [apply length_insert|].
    change (map batchColors) with (fmap (M := list) batchColors).
    rewrite list_fmap_insert. simpl.
    apply list_insert_id. rewrite list_lookup_fmap, E. reflexivity.
  - apply lookup_ge_None in E. lia.
Qed.

Lemma forEachObject_ok (objs : list ObjectState) :
  forall (meshes : list MeshData) (n : nat),
    Forall (fun o => (meshIndex o < length meshes)%nat) objs ->
    exists (objs' : list ObjectState) (meshes' : list MeshData) (n' : nat),
      forEachObject' objs meshes n = (Ok (objs', meshes'), n')
      /\ length meshes' = length meshes
      /\ map batchColors meshes' = map batchColors meshes
      /\ (n <= n')%nat
      /\ Forall2 (fun o o' => exists m : nat, o' = fst (updateObject' o m))
           objs objs'.
Proof.
  induction objs as [|obj rest IH]; intros meshes n Hwf.
  - exists [], meshes, n. repeat split; auto.
  - inversion Hwf as [|? ? Hobj Hrest]; subst.
    cbn [forEachObject]. unfold bind at 1.
    destruct (updateObject' obj n) as [obj' n1] eqn:Eu.
    assert (Hmi : (meshIndex obj' < length meshes)%nat).
    { change obj' with (fst (obj', n1)). rewrite <- Eu.
      rewrite updateObject_meshIndex. exact Hobj. }
    destruct (writeInstance_ok meshes obj' Hmi) as (meshes1 & Ew & Hl1 & Hc1).
    rewrite Ew. unfold bind.
    assert (Hrest1 : Forall (fun o => (meshIndex o < length meshes1)%nat) rest).
    { rewrite Hl1. exact Hrest. }
    destruct (IH meshes1 n1 Hrest1) as (objs' & meshes' & n' & Ef & Hl & Hc & Hn & H2).
    rewrite Ef. simpl. exists (obj' :: objs'), meshes', n'.
    split; [reflexivity|]. split; [congruence|]. split; [congruence|].
    split.
    + assert (n <= n1)%nat.
      { change n1 with (snd (obj', n1)). rewrite <- Eu. apply recycle_cursor. }
      lia.
    + constructor; [|exact H2]. exists n. rewrite Eu. reflexivity.
Qed.

(** A frame in which no object reaches the threshold: every object
    falls and spins, no random value is drawn. *)
Lemma forEachObject_falling (objs : list ObjectState) :
  forall (meshes : list MeshData) (n : nat),
    Forall (fun o => (meshIndex o < length meshes)%nat) objs ->
    Forall (fun o => threshold
                     <= Vector3.y (position o) - FALL_SPEED ANIMATION_CONFIG) objs ->
    exists meshes' : list MeshData,
      forEachObject' objs meshes n = (Ok (map fallAndSpin' objs, meshes'), n)
      /\ length meshes' = length meshes.
Proof.
  induction objs as [|obj rest IH]; intros meshes n Hwf Hno.
  - exists meshes. split; reflexivity.
  - inversion Hwf as [|? ? Hobj Hrest]; subst.
    inversion Hno as [|? ? Hy Hnorest]; subst.
    cbn [forEachObject]. unfold bind at 1. unfold updateObject.
    rewrite recycle_above by exact Hy.
    destruct (writeInstance_ok meshes (fallAndSpin' obj) Hobj)
      as (meshes1 & Ew & Hl1 & _).
    rewrite Ew. unfold bind.
    assert (Hrest1 : Forall (fun o => (meshIndex o < length meshes1)%nat) rest).
    { rewrite Hl1. exact Hrest. }
    destruct (IH meshes1 n Hrest1 Hnorest) as (meshes' & Ef & Hl).
    rewrite Ef. simpl. exists meshes'. split; [reflexivity | congruence].
Qed.

Lemma updated_meshIndex (k : nat) (l l' : list ObjectState) :
  Forall (fun o => (meshIndex o < k)%nat) l ->
  Forall2 (fun o o' => exists m : nat, o' = fst (updateObject' o m)) l l' ->
  Forall (fun o => (meshIndex o < k)%nat) l'.
Proof.
  intros Hl H2. induction H2 as [|o o' l l' [m Ho] _ IH].
  - constructor.
  - inversion Hl; subst. constructor.
    + rewrite updateObject_meshIndex. assumption.
    + apply IH. assumption.
Qed.

Lemma animate_ok (s : SceneState) (n : nat) :
  scene_wf s ->
  exists (s' : SceneState) (n' : nat),
    animate' s n = (Ok s', n')
    /\ scene_wf s'
    /\ map batchColors (instancedMeshes s') = map batchColors (instancedMeshes s)
    /\ Forall2 (fun o o' => exists m : nat, o' = fst (updateObject' o m))
         (allObjects s) (allObjects s').
Proof.
  intros Hwf. unfold animate, bind.
  destruct (forEachObject_ok (allObjects s) (instancedMeshes s) n Hwf)
    as (objs' & meshes' & n' & Ef & Hl & Hc & _ & H2).
  rewrite Ef. simpl. eexists _, n'. split; [reflexivity|]. simpl.
  split; [|split; [exact Hc | exact H2]].
  unfold scene_wf. simpl. rewrite Hl.
  eapply updated_meshIndex; [exact Hwf | exact H2].
Qed.

Lemma fallAndSpin_meshIndex (o : ObjectState) :
  meshIndex (fallAndSpin' o) = meshIndex o.
Proof. reflexivity. Qed.

Lemma animate_falling (s : SceneState) (n : nat) :
  scene_wf s ->
  Forall (fun o => threshold
                   <= Vector3.y (position o) - FALL_SPEED ANIMATION_CONFIG)
    (allObjects s) ->
  exists s' : SceneState,
    animate' s n = (Ok s', n)
    /\ scene_wf s'
    /\ allObjects s' = map fallAndSpin' (allObjects s).
Proof.
  intros Hwf Hno. unfold animate, bind.
  destruct (forEachObject_falling (allObjects s) (instancedMeshes s) n Hwf Hno)
    as (meshes' & Ef & Hl).
  rewrite Ef. simpl. eexists. split; [reflexivity|]. simpl.
  split; [|reflexivity].
  unfold scene_wf. simpl. rewrite Hl. apply Forall_map.
  eapply Forall_impl; [exact Hwf|]. intros o Ho. exact Ho.
Qed.

(** After at least one frame no object is below the threshold. *)
Lemma frames_threshold (K : nat) :
  forall (s : SceneState) (n : nat),
    scene_wf s ->
    (1 <= K)%nat ->
    allObjects s = [] \/ -10 <= Y_SPREAD OBJECT_CONFIG ->
    exists (s' : SceneState) (n' : nat),
      frames' K s n = (Ok s', n')
      /\ scene_wf s'
      /\ length (allObjects s') = length (allObjects s)
      /\ map batchColors (instancedMeshes s') = map batchColors (instancedMeshes s)
      /\ Forall (fun o => threshold <= Vector3.y (position o)) (allObjects s').
Proof.
  induction K as [|K IH]; intros s n Hwf HK Hcase; [lia|].
  destruct (animate_ok s n Hwf) as (s1 & n1 & Ea & Hwf1 & Hc1 & H2).
  assert (Hlen : length (allObjects s1) = length (allObjects s)).
  { symmetry. eapply Forall2_length. exact H2. }
  assert (Hthr : Forall (fun o => threshold <= Vector3.y (position o))
                   (allObjects s1)).
  { destruct Hcase as [Hnil|Hs].
    - rewrite Hnil in Hlen. destruct (allObjects s1); [constructor | discriminate].
    - clear -H2 Hs. induction H2 as [|o o' l l' [m Ho] _ IHl]; constructor.
      + rewrite Ho. apply updateObject_threshold. exact Hs.
      + exact IHl. }
  cbn [frames]. unfold bind. rewrite Ea.
  destruct K as [|K'].
  - exists s1, n1. simpl. unfold ret. repeat split; assumption.
  - assert (Hcase1 : allObjects s1 = [] \/ -10 <= Y_SPREAD OBJECT_CONFIG).
    { destruct Hcase as [Hnil|Hs]; [left|right; exact Hs].
      rewrite Hnil in Hlen. destruct (allObjects s1); [reflexivity | discriminate]. }
    destruct (IH s1 n1 Hwf1 ltac:(lia) Hcase1)
      as (s' & n' & Ef & Hwf' & Hlen' & Hc' & Hthr').
    exists s', n'. split; [exact Ef|]. split; [exact Hwf'|].
    split; [congruence|]. split; [congruence | exact Hthr'].
Qed.

End Frames.

Lemma sample_random_range (i : nat) : 0 <= sample_random i /\ sample_random i < 1.
Proof.
  unfold sample_random, Qle, Qlt. simpl.
  pose proof (Nat.mod_upper_bound i 8 ltac:(lia)). lia.
Qed.

Lemma sample_scene_wf : scene_wf sample_scene.
Proof. repeat constructor. Qed.

(** C3: on the state that the fall step leaves, the recycling test is
    the strict comparison of position.y with Y_OFFSET - Y_SPREAD/2 - 10.
    When it holds the object gets position.y = Y_OFFSET + Y_SPREAD/2 and
    x and z from the next two draws, which lie within half the spread
    on either side of zero; otherwise the object stays as the fall step
    left it.  Rotation, scale, rotation speeds and both indices are
    those of the state before the test, and a frame leaves the colours
    of every batch as they were.  With Y_OFFSET = 0 and Y_SPREAD = 600
    an object at y = -309 is not recycled and one at y = -311 is
    recycled to y = 300. *)
Theorem recycle_spec
    (cfg : ObjectConfig) (anim : AnimationConfig) (random : nat -> Q)
    (obj : ObjectState) (n : nat)
    (HX : 0 <= X_SPREAD cfg) (HZ : 0 <= Z_SPREAD cfg)
    (Hrand : forall i : nat, 0 <= random i /\ random i < 1) :
  (Vector3.y (position (fallAndSpin anim obj)) < recycleThreshold cfg ->
   updateObject cfg anim random obj n
   = (with_position (fallAndSpin anim obj)
        {| Vector3.x := (random n - 0.5) * X_SPREAD cfg;
           Vector3.y := Y_OFFSET cfg + Y_SPREAD cfg / 2;
           Vector3.z := (random (S n) - 0.5) * Z_SPREAD cfg |},
      S (S n))
   /\ - (X_SPREAD cfg / 2) <= (random n - 0.5) * X_SPREAD cfg <= X_SPREAD cfg / 2
   /\ - (Z_SPREAD cfg / 2) <= (random (S n) - 0.5) * Z_SPREAD cfg <= Z_SPREAD cfg / 2)
  /\ (recycleThreshold cfg <= Vector3.y (position (fallAndSpin anim obj)) ->
      updateObject cfg anim random obj n = (fallAndSpin anim obj, n))
  /\ (rotation (fst (updateObject cfg anim random obj n))
      = rotation (fallAndSpin anim obj)
      /\ scale (fst (updateObject cfg anim random obj n)) = scale obj
      /\ rotationSpeedX (fst (updateObject cfg anim random obj n))
         = rotationSpeedX obj
      /\ rotationSpeedZ (fst (updateObject cfg anim random obj n))
         = rotationSpeedZ obj
      /\ meshIndex (fst (updateObject cfg anim random obj n)) = meshIndex obj
      /\ instanceIndex (fst (updateObject cfg anim random obj n))
         = instanceIndex obj)
  /\ (forall (s : SceneState) (m : nat),
         scene_wf s ->
         exists (s' : SceneState) (m' : nat),
           animate cfg anim random s m = (Ok s', m')
           /\ map batchColors (instancedMeshes s')
              = map batchColors (instancedMeshes s))
  /\ (Y_OFFSET cfg == 0 -> Y_SPREAD cfg == 600 ->
      forall (o : ObjectState) (m : nat),
        (Vector3.y (position o) == -309 -> recycle cfg random o m = (o, m))
        /\ (Vector3.y (position o) == -311 ->
            snd (recycle cfg random o m) = S (S m)
            /\ Vector3.y (position (fst (recycle cfg random o m))) == 300)).
Proof.
  split; [|split; [|split; [|split]]].
  - intros Hlt. unfold updateObject. rewrite recycle_below by exact Hlt.
    split; [reflexivity|].
    destruct (Hrand n) as [? ?]. destruct (Hrand (S n)) as [? ?].
    split; apply centred_range; assumption.
  - intros Hge. unfold updateObject. apply recycle_above. exact Hge.
  - unfold updateObject.
    destruct (recycle_keeps cfg random (fallAndSpin anim obj) n)
      as (Hm & Hi & Hr & Hs & Hsx & Hsz).
    repeat split; assumption.
  - intros s m Hwf.
    destruct (animate_ok cfg anim random s m Hwf) as (s' & m' & Ea & _ & Hc & _).
    exists s', m'. split; assumption.
  - intros Hyo Hys o m. split.
    + intros Hy. apply recycle_above. unfold recycleThreshold.
      rewrite Hy, Hyo, Hys. discriminate.
    + intros Hy. rewrite recycle_below.
      * simpl. split; [reflexivity|]. unfold respawnHeight.
        rewrite Hyo, Hys. reflexivity.
      * unfold recycleThreshold. rewrite Hy, Hyo, Hys. reflexivity.
Qed.

Lemma recycle_spec_witness :
  0 <= X_SPREAD default_OBJECT_CONFIG
  /\ 0 <= Z_SPREAD default_OBJECT_CONFIG
  /\ (forall i : nat, 0 <= sample_random i /\ sample_random i < 1)
  /\ updateObject default_OBJECT_CONFIG default_ANIMATION_CONFIG sample_random
       (sample_object 1%nat (-309.5)) 3%nat
     = (with_position (fallAndSpin default_ANIMATION_CONFIG (sample_object 1%nat (-309.5)))
          {| Vector3.x := (sample_random 3%nat - 0.5) * 200;
             Vector3.y := 0 + 600 / 2;
             Vector3.z := (sample_random 4%nat - 0.5) * 100 |},
        5%nat)
  /\ updateObject default_OBJECT_CONFIG default_ANIMATION_CONFIG sample_random
       (sample_object 0%nat 100) 3%nat
     = (fallAndSpin default_ANIMATION_CONFIG (sample_object 0%nat 100), 3%nat).
Proof.
  assert (H1 : 0 <= X_SPREAD default_OBJECT_CONFIG) by discriminate.
  assert (H2 : 0 <= Z_SPREAD default_OBJECT_CONFIG) by discriminate.
  split; [exact H1|]. split; [exact H2|]. split; [exact sample_random_range|].
  split.
  - destruct (recycle_spec default_OBJECT_CONFIG default_ANIMATION_CONFIG
                sample_random (sample_object 1%nat (-309.5)) 3%nat H1 H2
                sample_random_range) as (Hbelow & _).
    destruct (Hbelow ltac:(reflexivity)) as (E & _). exact E.
  - destruct (recycle_spec default_OBJECT_CONFIG default_ANIMATION_CONFIG
                sample_random (sample_object 0%nat 100) 3%nat H1 H2
                sample_random_range) as (_ & Habove & _).
    apply Habove. discriminate.
Defined.

(** The same two heights taken before the fall step, under the default
    configuration: 0.8 lower they are -309.8 and -311.8. *)
Example default_update_at_309 :
  updateObject default_OBJECT_CONFIG default_ANIMATION_CONFIG sample_random
    (sample_object 0%nat (-309)) 0%nat
  = (fallAndSpin default_ANIMATION_CONFIG (sample_object 0%nat (-309)), 0%nat).
Proof. reflexivity. Qed.

Example default_update_at_311 :
  let '(o, n) :=
    updateObject default_OBJECT_CONFIG default_ANIMATION_CONFIG sample_random
      (sample_object 0%nat (-311)) 0%nat in
  Qred (Vector3.y (position o)) = 300
  /\ Qred (Vector3.x (position o)) = -100
  /\ Qred (Vector3.z (position o)) = -75 # 2
  /\ n = 2%nat.
Proof. vm_compute. repeat split; reflexivity. Qed.

(** Exactly at the threshold the comparison fails and nothing is reset. *)
Example default_recycle_at_threshold :
  recycle default_OBJECT_CONFIG sample_random (sample_object 0%nat (-310)) 0%nat
  = (sample_object 0%nat (-310), 0%nat).
Proof. reflexivity. Qed.

(** C10: when every object starts with position.y between
    Y_OFFSET - Y_SPREAD/2 and Y_OFFSET + Y_SPREAD/2, then after any
    positive number of frames, all of which complete, every object has
    position.y at or above the recycle threshold
    Y_OFFSET - Y_SPREAD/2 - 10. *)
Theorem threshold_invariant
    (cfg : ObjectConfig) (anim : AnimationConfig) (random : nat -> Q)
    (s : SceneState) (K n : nat)
    (Hwf : scene_wf s)
    (Hinit : Forall (in_fall_range cfg) (allObjects s))
    (HK : (1 <= K)%nat) :
  exists (s' : SceneState) (n' : nat),
    frames cfg anim random K s n = (Ok s', n')
    /\ length (allObjects s') = length (allObjects s)
    /\ Forall (fun o => recycleThreshold cfg <= Vector3.y (position o))
         (allObjects s').
Proof.
  assert (Hcase : allObjects s = [] \/ -10 <= Y_SPREAD cfg).
  { destruct (allObjects s) as [|o l]; [left; reflexivity | right].
    inversion Hinit as [|? ? [Hlo Hhi] _]; subst.
    pose proof (Qle_trans _ _ _ Hlo Hhi) as H.
    rewrite Qhalf in H. lra. }
  destruct (frames_threshold cfg anim random K s n Hwf HK Hcase)
    as (s' & n' & Ef & _ & Hlen & _ & Hthr).
  exists s', n'. split; [exact Ef|]. split; assumption.
Qed.

Lemma threshold_invariant_witness :
  scene_wf sample_scene
  /\ Forall (in_fall_range default_OBJECT_CONFIG) (allObjects sample_scene)
  /\ (1 <= 20)%nat
  /\ exists (s' : SceneState) (n' : nat),
       frames default_OBJECT_CONFIG default_ANIMATION_CONFIG sample_random
         20 sample_scene 0%nat = (Ok s', n')
       /\ length (allObjects s') = length (allObjects sample_scene)
       /\ Forall (fun o => recycleThreshold default_OBJECT_CONFIG
                           <= Vector3.y (position o))
            (allObjects s').
Proof.
  assert (Hinit : Forall (in_fall_range default_OBJECT_CONFIG)
                    (allObjects sample_scene))
    by (repeat constructor; discriminate).
  split; [exact sample_scene_wf|]. split; [exact Hinit|]. split; [lia|].
  apply (threshold_invariant default_OBJECT_CONFIG default_ANIMATION_CONFIG
           sample_random sample_scene 20 0 sample_scene_wf Hinit).
  lia.
Defined.

(** ** Merging geometries *)

Section Merge.

Variable Float32Array_fits : nat -> bool.
Variable vertexNormals : list Q -> option (list nat) -> list Q.
Variable sphereFromPositions : list Q -> Sphere.

Local Abbreviation mergeGeometries' :=
  (mergeGeometries Float32Array_fits vertexNormals sphereFromPositions).

Lemma pushAll_attributeArray (target : list Q) (name : string) (g : BufferGeometry) :
  pushAll target (attributes g !! name) = target ++ attributeArray name g.
Proof.
  unfold pushAll, attributeArray.
  destruct (attributes g !! name); [reflexivity | now rewrite app_nil_r].
Qed.

(** The accumulation loop appends, per attribute, the arrays of the
    geometries in input order. *)
Lemma mergeStep_fold (geometries : list BufferGeometry) :
  forall positions normals uvs : list Q,
    fold_left mergeStep geometries (positions, normals, uvs)
    = (positions ++ flat_map (attributeArray "position") geometries,
       normals ++ flat_map (attributeArray "normal") geometries,
       uvs ++ flat_map (attributeArray "uv") geometries).
Proof.
  induction geometries as [|g rest IH]; intros positions normals uvs.
  - simpl. now rewrite !app_nil_r.
  - cbn [fold_left flat_map]. unfold mergeStep at 2.
    rewrite !pushAll_attributeArray, IH, <- !app_assoc. reflexivity.
Qed.

Lemma length_pos_nonnil {A} (l : list A) : (0 <? length l)%nat = true <-> l <> [].
Proof.
  destruct l; simpl; split; intros; try congruence; try reflexivity.
  discriminate.
Qed.

(** What [mergeGeometries] returns when every allocation succeeds. *)
Lemma mergeGeometries_ok (geometries : list BufferGeometry) :
  (forall n : nat, Float32Array_fits n = true) ->
  exists merged : BufferGeometry,
    mergeGeometries' geometries = Ok merged
    /\ attributes merged !! "position"
       = Some {| array := flat_map (attributeArray "position") geometries;
                 itemSize := 3 |}
    /\ attributes merged !! "normal"
       = Some (if (0 <? length (flat_map (attributeArray "normal") geometries))%nat
               then {| array := flat_map (attributeArray "normal") geometries;
                       itemSize := 3 |}
               else {| array :=
                         vertexNormals
                           (flat_map (attributeArray "position") geometries) None;
                       itemSize := 3 |})
    /\ attributes merged !! "uv"
       = (if (0 <? length (flat_map (attributeArray "uv") geometries))%nat
          then Some {| array := flat_map (attributeArray "uv") geometries;
                       itemSize := 2 |}
          else None)
    /\ index merged = None
    /\ boundingSphere merged
       = Some (sphereFromPositions
                 (flat_map (attributeArray "position") geometries)).
Proof.
  intros Hfits. unfold mergeGeometries.
  rewrite mergeStep_fold. simpl app.
  unfold Float32BufferAttribute. rewrite !Hfits. cbn [bindR].
  set (positions := flat_map (attributeArray "position") geometries).
  set (normals := flat_map (attributeArray "normal") geometries).
  set (uvs := flat_map (attributeArray "uv") geometries).
  destruct (0 <? length normals)%nat; destruct (0 <? length uvs)%nat;
    cbn [bindR]; eexists; (split; [reflexivity|]);
    unfold computeBoundingSphere, computeVertexNormals, setAttribute,
      new_BufferGeometry; cbn [attributes index boundingSphere];
    repeat (rewrite ?lookup_insert_eq;
            rewrite ?lookup_insert_ne by discriminate;
            cbn [attributes index boundingSphere array]);
    repeat split; try reflexivity.
Qed.

End Merge.

Lemma Qsquare_nonneg (c : Q) : 0 <= c * c.
Proof. nra. Qed.

Lemma sumSquares_nonneg (a : list Q) : 0 <= sumSquares a.
Proof.
  induction a as [|c a IH]; simpl; [discriminate|].
  pose proof (Qsquare_nonneg c). lra.
Qed.

Lemma vertices_sumSquares (k : nat) :
  forall (a : list Q) (p : Vector3.t),
    (length a <= k)%nat ->
    In p (vertices a) ->
    Vector3.x p * Vector3.x p + Vector3.y p * Vector3.y p
    + Vector3.z p * Vector3.z p <= sumSquares a.
Proof.
  induction k as [|k IH]; intros a p Hlen Hin.
  - destruct a; [destruct Hin | simpl in Hlen; lia].
  - destruct a as [|c1 [|c2 [|c3 rest]]]; try (destruct Hin; fail).
    simpl in Hin. destruct Hin as [E|Hin].
    + subst p. simpl. pose proof (sumSquares_nonneg rest). lra.
    + assert (Hr : (length rest <= k)%nat) by (simpl in Hlen; lia).
      pose proof (IH rest p Hr Hin) as H. simpl.
      pose proof (Qsquare_nonneg c1). pose proof (Qsquare_nonneg c2).
      pose proof (Qsquare_nonneg c3). lra.
Qed.

Lemma sample_sphere_contains (a : list Q) (p : Vector3.t) :
  In p (vertices a) -> containsPoint (sample_sphere a) p.
Proof.
  intros Hin. unfold containsPoint, distanceToSquared, sample_sphere. simpl.
  pose proof (vertices_sumSquares (length a) a p (Nat.le_refl _) Hin) as H.
  pose proof (sumSquares_nonneg a) as H0.
  pose proof (Qmult_le_0_compat _ _ H0 H0) as H1.
  setoid_replace (Vector3.x p - 0) with (Vector3.x p) using relation Qeq by ring.
  setoid_replace (Vector3.y p - 0) with (Vector3.y p) using relation Qeq by ring.
  setoid_replace (Vector3.z p - 0) with (Vector3.z p) using relation Qeq by ring.
  lra.
Qed.

(** C7: when the allocations succeed, merging returns a geometry whose
    position array is the input position arrays appended in input
    order, value by value, and whose uv array is the appended uv
    arrays when there are any (no uv attribute otherwise); the bounding
    sphere is the one computed from the merged positions and, by the
    library's contract, contains every merged vertex.  For two inputs of
    3 and 4 vertices that both carry position, normal and uv, the merged
    position, normal and uv attributes are the two arrays appended and
    count 7 vertices each. *)
Theorem mergeGeometries_concat
    (Float32Array_fits : nat -> bool)
    (vertexNormals : list Q -> option (list nat) -> list Q)
    (sphereFromPositions : list Q -> Sphere)
    (geometries : list BufferGeometry)
    (Hfits : forall n : nat, Float32Array_fits n = true)
    (Hsphere : forall (a : list Q) (p : Vector3.t),
        In p (vertices a) -> containsPoint (sphereFromPositions a) p) :
  exists merged : BufferGeometry,
    mergeGeometries Float32Array_fits vertexNormals sphereFromPositions geometries
    = Ok merged
    /\ attributes merged !! "position"
       = Some {| array := flat_map (attributeArray "position") geometries;
                 itemSize := 3 |}
    /\ attributes merged !! "uv"
       = (if (0 <? length (flat_map (attributeArray "uv") geometries))%nat
          then Some {| array := flat_map (attributeArray "uv") geometries;
                       itemSize := 2 |}
          else None)
    /\ (exists sphere : Sphere,
           boundingSphere merged = Some sphere
           /\ forall p : Vector3.t,
                In p (vertices (flat_map (attributeArray "position") geometries)) ->
                containsPoint sphere p)
    /\ (forall (g1 g2 : BufferGeometry) (p1 n1 u1 p2 n2 u2 : list Q),
           geometries = [g1; g2] ->
           attributes g1 !! "position" = Some {| array := p1; itemSize := 3 |} ->
           attributes g1 !! "normal" = Some {| array := n1; itemSize := 3 |} ->
           attributes g1 !! "uv" = Some {| array := u1; itemSize := 2 |} ->
           attributes g2 !! "position" = Some {| array := p2; itemSize := 3 |} ->
           attributes g2 !! "normal" = Some {| array := n2; itemSize := 3 |} ->
           attributes g2 !! "uv" = Some {| array := u2; itemSize := 2 |} ->
           (length p1 = 9 /\ length n1 = 9 /\ length u1 = 6)%nat ->
           (length p2 = 12 /\ length n2 = 12 /\ length u2 = 8)%nat ->
           attributes merged !! "position"
           = Some {| array := p1 ++ p2; itemSize := 3 |}
           /\ attributes merged !! "normal"
              = Some {| array := n1 ++ n2; itemSize := 3 |}
           /\ attributes merged !! "uv"
              = Some {| array := u1 ++ u2; itemSize := 2 |}
           /\ count_of {| array := p1 ++ p2; itemSize := 3 |} = 7%nat
           /\ count_of {| array := n1 ++ n2; itemSize := 3 |} = 7%nat
           /\ count_of {| array := u1 ++ u2; itemSize := 2 |} = 7%nat
           /\ length (vertices (p1 ++ p2)) = 7%nat).
Proof.
  destruct (mergeGeometries_ok Float32Array_fits vertexNormals
              sphereFromPositions geometries Hfits)
    as (merged & Em & Hp & Hn & Hu & _ & Hb).
  exists merged. split; [exact Em|]. split; [exact Hp|]. split; [exact Hu|].
  split.
  - eexists. split; [exact Hb|]. intros p Hin. apply Hsphere. exact Hin.
  - intros g1 g2 p1 n1 u1 p2 n2 u2 -> Hp1 Hn1 Hu1 Hp2 Hn2 Hu2
      (Lp1 & Ln1 & Lu1) (Lp2 & Ln2 & Lu2).
    rewrite Hp, Hn, Hu. cbn [flat_map]. unfold attributeArray.
    rewrite Hp1, Hn1, Hu1, Hp2, Hn2, Hu2. cbn [array]. rewrite !app_nil_r.
    unfold count_of. cbn [array itemSize]. rewrite !length_app.
    rewrite Lp1, Ln1, Lu1, Lp2, Ln2, Lu2.
    repeat split; try reflexivity.
    do 9 (destruct p1 as [|? p1]; [discriminate Lp1|]).
    destruct p1; [|discriminate Lp1].
    do 12 (destruct p2 as [|? p2]; [discriminate Lp2|]).
    destruct p2; [|discriminate Lp2].
    reflexivity.
Qed.

Lemma mergeGeometries_concat_witness :
  (forall n : nat, (fun _ : nat => true) n = true)
  /\ (forall (a : list Q) (p : Vector3.t),
         In p (vertices a) -> containsPoint (sample_sphere a) p)
  /\ exists merged : BufferGeometry,
       mergeGeometries (fun _ => true) sample_vertexNormals sample_sphere
         [triangle; quad] = Ok merged
       /\ attributes merged !! "position"
          = Some (attr3 (triangle_positions ++ quad_positions))
       /\ attributes merged !! "normal"
          = Some (attr3 (triangle_normals ++ quad_normals))
       /\ attributes merged !! "uv" = Some (attr2 (triangle_uvs ++ quad_uvs))
       /\ exists sphere : Sphere,
            boundingSphere merged = Some sphere
            /\ Forall (containsPoint sphere)
                 (vertices (triangle_positions ++ quad_positions)).
Proof.
  split; [reflexivity|]. split; [exact sample_sphere_contains|].
  destruct (mergeGeometries_concat (fun _ => true) sample_vertexNormals
              sample_sphere [triangle; quad] (fun _ => eq_refl)
              sample_sphere_contains)
    as (merged & Em & _ & _ & (sphere & Hb & Hin) & Htwo).
  destruct (Htwo triangle quad triangle_positions triangle_normals triangle_uvs
              quad_positions quad_normals quad_uvs eq_refl
              eq_refl eq_refl eq_refl eq_refl eq_refl eq_refl
              (conj eq_refl (conj eq_refl eq_refl))
              (conj eq_refl (conj eq_refl eq_refl)))
    as (Hp & Hn & Hu & _).
  exists merged. split; [exact Em|]. split; [exact Hp|]. split; [exact Hn|].
  split; [exact Hu|]. exists sphere. split; [exact Hb|].
  apply Forall_forall. intros p Hp'. apply Hin.
  apply list_elem_of_In in Hp'. exact Hp'.
Defined.

(** C5 (the code departs from the claim): when one input has normals
    and another has none, merging keeps the normals it collected.  For
    the triangle (with normals) and the bare quad (without), whatever
    the library routines are, the merged geometry has 7 vertices and a
    normal attribute that is the triangle's 3 normals, not normals
    recomputed for the merged positions. *)
Theorem mergeGeometries_mixed_normals :
  forall (vertexNormals : list Q -> option (list nat) -> list Q)
         (sphereFromPositions : list Q -> Sphere),
  exists merged : BufferGeometry,
    mergeGeometries (fun _ => true) vertexNormals sphereFromPositions
      [triangle; bare_quad] = Ok merged
    /\ attributes merged !! "position"
       = Some (attr3 (triangle_positions ++ quad_positions))
    /\ attributes merged !! "normal" = Some (attr3 triangle_normals)
    /\ (count_of (attr3 (triangle_positions ++ quad_positions)) = 7)%nat
    /\ (count_of (attr3 triangle_normals) = 3)%nat
    /\ (vertexNormals (triangle_positions ++ quad_positions) None
        <> triangle_normals ->
        attributes merged !! "normal"
        <> Some (attr3 (vertexNormals (triangle_positions ++ quad_positions) None))).
Proof.
  intros vertexNormals sphereFromPositions.
  destruct (mergeGeometries_ok (fun _ => true) vertexNormals sphereFromPositions
              [triangle; bare_quad] (fun _ => eq_refl))
    as (merged & Em & Hp & Hn & _).
  exists merged. split; [exact Em|]. split; [exact Hp|].
  assert (Hn' : attributes merged !! "normal" = Some (attr3 triangle_normals))
    by exact Hn.
  split; [exact Hn'|]. split; [reflexivity|]. split; [reflexivity|].
  intros Hne. rewrite Hn'. intros E. apply Hne.
  injection E as E. symmetry. exact E.
Qed.

(** Merging keeps any collected normals: as soon as one input carries a
    non-empty normal array, the merged normals are exactly the normal
    arrays of the inputs that have them. *)
Lemma mergeGeometries_keeps_partial_normals
    (vertexNormals : list Q -> option (list nat) -> list Q)
    (sphereFromPositions : list Q -> Sphere)
    (geometries : list BufferGeometry) :
  flat_map (attributeArray "normal") geometries <> [] ->
  exists merged : BufferGeometry,
    mergeGeometries (fun _ => true) vertexNormals sphereFromPositions geometries
    = Ok merged
    /\ attributes merged !! "normal"
       = Some (attr3 (flat_map (attributeArray "normal") geometries)).
Proof.
  intros Hne.
  destruct (mergeGeometries_ok (fun _ => true) vertexNormals sphereFromPositions
              geometries (fun _ => eq_refl))
    as (merged & Em & _ & Hn & _).
  exists merged. split; [exact Em|]. rewrite Hn.
  apply length_pos_nonnil in Hne. rewrite Hne. reflexivity.
Qed.

(** ** Loading models *)

Section Loading.

Variable Float32Array_fits : nat -> bool.
Variable vertexNormals : list Q -> option (list nat) -> list Q.
Variable sphereFromPositions : list Q -> Sphere.
Variable gltfLoader_load : string -> LoadOutcome.

Local Abbreviation loadPromise' :=
  (loadPromise gltfLoader_load Float32Array_fits vertexNormals sphereFromPositions).
Local Abbreviation loadModels' :=
  (loadModels gltfLoader_load Float32Array_fits vertexNormals sphereFromPositions).

Lemma omap_id_map {A B} (f : A -> option B) (l : list A) :
  omap id (map f l) = omap f l.
Proof.
  induction l as [|a l IH]; [reflexivity|].
  cbn [map omap list_omap]. simpl. destruct (f a); simpl; now rewrite IH.
Qed.

Lemma loadModels_omap (modelPaths : list string) :
  loadModels' modelPaths = omap loadPromise' modelPaths.
Proof.
  unfold loadModels. rewrite omap_id_map.
  destruct (omap loadPromise' modelPaths); reflexivity.
Qed.

Lemma onLoad_path (p : string) (scene : list Object3D) (m : LoadedModel) :
  onLoad Float32Array_fits vertexNormals sphereFromPositions p scene = Some m ->
  path m = p.
Proof.
  unfold onLoad. destruct (collectGeometries scene) as [|g0 [|g1 rest]];
    intros E; [discriminate | |]; injection E as <-; reflexivity.
Qed.

Lemma loadPromise_path (p : string) (m : LoadedModel) :
  loadPromise' p = Some m -> path m = p.
Proof.
  unfold loadPromise. destruct (gltfLoader_load p); [apply onLoad_path | discriminate].
Qed.


End Loading.





Example loadModels_sample :
  map path
    (loadModels sample_load (fun _ => true) sample_vertexNormals sample_sphere
       ["models/one.glb"; "models/missing.glb"; "models/two.glb"])
  = ["models/one.glb"; "models/two.glb"].
Proof. vm_compute. reflexivity. Qed.

Example initializeScene_no_models :
  initializeScene default_OBJECT_CONFIG default_ANIMATION_CONFIG
    default_MATERIAL_CONFIG default_MODEL_CONFIG default_OBJECT_COLORS
    sample_random None sample_load (fun _ => true) sample_vertexNormals
    sample_sphere 0%nat
  = (None, 0%nat).
Proof. vm_compute. reflexivity. Qed.

(** C9: on a geometry that already has a normal attribute the
    ensure-normals step of the single-mesh branch returns the geometry
    as it is, normals and every other attribute included; applying the
    step twice is the same as applying it once. *)
Theorem ensureNormals_idempotent
    (vertexNormals : list Q -> option (list nat) -> list Q)
    (g : BufferGeometry)
    (Hnormal : is_Some (attributes g !! "normal")) :
  ensureNormals vertexNormals (clone g) = g
  /\ attributes (ensureNormals vertexNormals (clone g)) !! "normal"
     = attributes g !! "normal"
  /\ forall g' : BufferGeometry,
       ensureNormals vertexNormals (ensureNormals vertexNormals g')
       = ensureNormals vertexNormals g'.
Proof.
  assert (E : ensureNormals vertexNormals (clone g) = g).
  { unfold ensureNormals, clone. destruct Hnormal as [a Ha]. now rewrite Ha. }
  split; [exact E|]. split; [now rewrite E|].
  intros g'. unfold ensureNormals.
  destruct (attributes g' !! "normal") as [a|] eqn:En.
  - rewrite En. reflexivity.
  - unfold computeVertexNormals.
    destruct (attributes g' !! "position") as [pa|] eqn:Ep.
    + unfold setAttribute. cbn [attributes].
      rewrite lookup_insert_eq. reflexivity.
    + rewrite En, Ep. reflexivity.
Qed.

Lemma ensureNormals_idempotent_witness :
  is_Some (attributes triangle !! "normal")
  /\ ensureNormals sample_vertexNormals (clone triangle) = triangle.
Proof.
  assert (H : is_Some (attributes triangle !! "normal"))
    by (eexists; reflexivity).
  split; [exact H|].
  exact (proj1 (ensureNormals_idempotent sample_vertexNormals triangle H)).
Defined.

Example ensureNormals_computes_missing :
  attributes (ensureNormals sample_vertexNormals (clone bare_quad)) !! "normal"
  = Some (attr3 [0; 0; 1; 0; 0; 1; 0; 0; 1; 0; 0; 1]).
Proof. vm_compute. reflexivity. Qed.

(** C6 (the code departs from the claim): when merging throws, the
    fallback hands on the first sub-mesh as it is.  With a runtime that
    refuses arrays of 16 items or more, the model whose meshes are the
    bare quad and the triangle is loaded (no error reaches the caller)
    with the bare quad as its geometry, which has no normal attribute. *)
Theorem fallback_without_normals :
  forall (vertexNormals : list Q -> option (list nat) -> list Q)
         (sphereFromPositions : list Q -> Sphere),
    mergeGeometries (fun n => (n <? 16)%nat) vertexNormals sphereFromPositions
      [bare_quad; triangle] = Throw
    /\ loadModels sample_load (fun n => (n <? 16)%nat) vertexNormals
         sphereFromPositions ["models/bare.glb"]
       = [ {| path := "models/bare.glb"; model_geometry := bare_quad |} ]
    /\ attributes bare_quad !! "normal" = None.
Proof.
  intros vertexNormals sphereFromPositions.
  split; [reflexivity|]. split; reflexivity.
Qed.

(** ** Populating the scene *)

Section Populate.

Variable OBJECT_CONFIG : ObjectConfig.
Variable ANIMATION_CONFIG : AnimationConfig.
Variable OBJECT_COLORS : list Z.
Variable random : nat -> Q.

Hypothesis random_range : forall i : nat, 0 <= random i /\ random i < 1.
Hypothesis spread_nonneg : 0 <= Y_SPREAD OBJECT_CONFIG.

Local Abbreviation initInstance' :=
  (initInstance OBJECT_CONFIG ANIMATION_CONFIG OBJECT_COLORS random).
Local Abbreviation populate' :=
  (populate OBJECT_CONFIG ANIMATION_CONFIG OBJECT_COLORS random).

Lemma initInstance_spec (mi i n : nat) (meshData : MeshData)
    (objs : list ObjectState) :
  exists (meshData' : MeshData) (o : ObjectState),
    initInstance' mi (meshData, objs) i n
    = ((meshData', objs ++ [o]), (n + 10)%nat)
    /\ meshIndex o = mi
    /\ instanceIndex o = i
    /\ in_fall_range OBJECT_CONFIG o
    /\ count meshData' = count meshData.
Proof.
  cbv beta iota zeta delta [initInstance bind newObjectState Math_random ret].
  match goal with
  | |- context [new_Color ?h] => destruct (new_Color h) as [[cr cg] cb]
  end.
  eexists _, _. split.
  - f_equal. lia.
  - cbn [meshIndex instanceIndex position Vector3.y count].
    split; [reflexivity|]. split; [reflexivity|]. split; [|reflexivity].
    destruct (random_range (S n)) as [H0 H1].
    destruct (centred_range (random (S n)) (Y_SPREAD OBJECT_CONFIG) H0 H1
                spread_nonneg) as [Hlo Hhi].
    unfold in_fall_range. cbn [position Vector3.y]. split; lra.
Qed.

Lemma foldM_initInstance (mi : nat) (l : list nat) :
  forall (meshData : MeshData) (objs : list ObjectState) (n : nat),
    exists (meshData' : MeshData) (news : list ObjectState),
      foldM (initInstance' mi) (meshData, objs) l n
      = ((meshData', objs ++ news), (n + 10 * length l)%nat)
      /\ Forall (fun o => meshIndex o = mi /\ in_fall_range OBJECT_CONFIG o) news
      /\ length news = length l
      /\ count meshData' = count meshData.
Proof.
  induction l as [|i l IH]; intros meshData objs n.
  - exists meshData, []. cbn [foldM]. unfold ret. rewrite app_nil_r.
    repeat split; [f_equal; simpl; lia | constructor].
  - destruct (initInstance_spec mi i n meshData objs)
      as (md1 & o & E1 & Hm & _ & Hr & Hc1).
    destruct (IH md1 (objs ++ [o]) (n + 10)%nat)
      as (md' & news & E2 & Hall & Hlen & Hc2).
    exists md', (o :: news). cbn [foldM]. unfold bind. rewrite E1, E2.
    rewrite <- app_assoc. simpl app. split; [f_equal; simpl; lia|].
    split; [constructor; [split; assumption | exact Hall]|].
    split; [simpl; lia | congruence].
Qed.

Lemma populate_spec (todo : list MeshData) :
  forall (mi : nat) (objs : list ObjectState) (n : nat),
    exists (todo' : list MeshData) (news : list ObjectState) (n' : nat),
      populate' mi todo objs n = ((todo', objs ++ news), n')
      /\ length todo' = length todo
      /\ map count todo' = map count todo
      /\ Forall (fun o => (mi <= meshIndex o < mi + length todo)%nat
                          /\ in_fall_range OBJECT_CONFIG o) news
      /\ length news = requested todo.
Proof.
  induction todo as [|meshData rest IH]; intros mi objs n.
  - exists [], [], n. cbn [populate]. unfold ret. rewrite app_nil_r.
    repeat split; constructor.
  - destruct (foldM_initInstance mi (seq 0 (Z.to_nat (count meshData)))
                meshData objs n) as (md' & news1 & E1 & Hall1 & Hlen1 & Hc1).
    destruct (IH (S mi) (objs ++ news1)
                (n + 10 * length (seq 0 (Z.to_nat (count meshData))))%nat)
      as (rest' & news2 & n' & E2 & Hl2 & Hc2 & Hall2 & Hlen2).
    exists (attachColors md' :: rest'), (news1 ++ news2), n'.
    cbn [populate]. unfold bind. rewrite E1, E2. unfold ret.
    rewrite <- app_assoc. split; [reflexivity|].
    split; [simpl; congruence|].
    split; [simpl; congruence|].
    split.
    + apply Forall_app. split.
      * eapply Forall_impl; [exact Hall1|]. intros o [Hm Hr]. simpl.
        split; [simpl; lia | exact Hr].
      * eapply Forall_impl; [exact Hall2|]. intros o [Hm Hr]. simpl in *.
        split; [lia | exact Hr].
    + rewrite length_app, Hlen1, Hlen2, length_seq. reflexivity.
Qed.

End Populate.

Lemma requested_sum (batches : list MeshData) :
  Forall (fun b => (0 < count b)%Z) batches ->
  Z.of_nat (requested batches) = sumZ (map count batches).
Proof.
  induction 1 as [|b l Hb _ IH]; [reflexivity|].
  simpl. rewrite Nat2Z.inj_add, IH, Z2Nat.id by lia. reflexivity.
Qed.

(** ** From start-up to the running animation *)

Section Startup.

Variable OBJECT_CONFIG : ObjectConfig.
Variable ANIMATION_CONFIG : AnimationConfig.
Variable MATERIAL_CONFIG : MaterialConfig.
Variable MODEL_CONFIG : ModelConfig.
Variable OBJECT_COLORS : list Z.
Variable random : nat -> Q.
Variable directoryListing : option (list string).
Variable gltfLoader_load : string -> LoadOutcome.
Variable Float32Array_fits : nat -> bool.
Variable vertexNormals : list Q -> option (list nat) -> list Q.
Variable sphereFromPositions : list Q -> Sphere.

Hypothesis random_range : forall i : nat, 0 <= random i /\ random i < 1.
Hypothesis spread_nonneg : 0 <= Y_SPREAD OBJECT_CONFIG.

Local Abbreviation loadedModels :=
  (loadAllModels MODEL_CONFIG directoryListing gltfLoader_load
     Float32Array_fits vertexNormals sphereFromPositions).
Local Abbreviation initializeScene' :=
  (initializeScene OBJECT_CONFIG ANIMATION_CONFIG MATERIAL_CONFIG MODEL_CONFIG
     OBJECT_COLORS random directoryListing gltfLoader_load Float32Array_fits
     vertexNormals sphereFromPositions).

(** With at least one model loaded the scene is built: its batches
    have the counts of the partition, its objects refer to existing
    batches and start inside the fall range. *)
Lemma initializeScene_reachable (n : nat) :
  loadedModels <> [] ->
  exists (s : SceneState) (n' : nat),
    initializeScene' n = (Some s, n')
    /\ scene_wf s
    /\ Forall (in_fall_range OBJECT_CONFIG) (allObjects s)
    /\ map count (instancedMeshes s)
       = map count (fst (createBatches OBJECT_CONFIG MATERIAL_CONFIG loadedModels))
    /\ length (allObjects s)
       = requested (fst (createBatches OBJECT_CONFIG MATERIAL_CONFIG loadedModels)).
Proof.
  intros Hne. unfold initializeScene.
  destruct loadedModels as [|m0 ms] eqn:El; [congruence|].
  cbn [length Nat.eqb].
  destruct (createBatches OBJECT_CONFIG MATERIAL_CONFIG (m0 :: ms))
    as [batches total] eqn:Eb.
  destruct (populate_spec OBJECT_CONFIG ANIMATION_CONFIG OBJECT_COLORS random
              random_range spread_nonneg batches 0 [] n)
    as (batches' & news & n' & Ep & Hlen & Hc & Hall & Hreq).
  unfold bind. rewrite Ep. simpl app. unfold ret.
  eexists _, n'. split; [reflexivity|]. unfold scene_wf.
  cbn [instancedMeshes allObjects fst].
  split; [|split; [|split; [exact Hc | exact Hreq]]].
  - eapply Forall_impl; [exact Hall|]. intros o [Hm _]. simpl in Hm |- *. lia.
  - eapply Forall_impl; [exact Hall|]. intros o [_ Hr]. exact Hr.
Qed.

(** The animation as it runs: the scene is built, and after any
    positive number of frames no object is below the threshold. *)
Lemma animation_threshold (K n : nat) :
  loadedModels <> [] ->
  (1 <= K)%nat ->
  exists (s : SceneState) (n1 : nat) (s' : SceneState) (n' : nat),
    initializeScene' n = (Some s, n1)
    /\ frames OBJECT_CONFIG ANIMATION_CONFIG random K s n1 = (Ok s', n')
    /\ length (allObjects s') = length (allObjects s)
    /\ Forall (fun o => recycleThreshold OBJECT_CONFIG <= Vector3.y (position o))
         (allObjects s').
Proof.
  intros Hne HK.
  destruct (initializeScene_reachable n Hne) as (s & n1 & Ei & Hwf & Hr & _).
  assert (Hs : allObjects s = [] \/ -10 <= Y_SPREAD OBJECT_CONFIG)
    by (right; lra).
  destruct (frames_threshold OBJECT_CONFIG ANIMATION_CONFIG random K s n1
              Hwf HK Hs) as (s' & n' & Ef & _ & Hlen & _ & Hthr).
  exists s, n1, s', n'. repeat split; assumption.
Qed.

End Startup.

(** ** Which acquired geometries have normals *)

(** Apart from the fallback after a failed merge, a loaded model whose
    meshes all carry positions has a normal attribute. *)
Lemma onLoad_normals
    (vertexNormals : list Q -> option (list nat) -> list Q)
    (sphereFromPositions : list Q -> Sphere)
    (p : string) (scene : list Object3D) (m : LoadedModel) :
  Forall (fun g => is_Some (attributes g !! "position")) (collectGeometries scene) ->
  onLoad (fun _ => true) vertexNormals sphereFromPositions p scene = Some m ->
  is_Some (attributes (model_geometry m) !! "normal").
Proof.
  intros Hpos. unfold onLoad.
  destruct (collectGeometries scene) as [|g0 [|g1 rest]] eqn:Eg;
    intros E; [discriminate | |]; injection E as <-; cbn [model_geometry].
  - inversion Hpos as [|? ? [pa Hpa] _]; subst.
    unfold ensureNormals, clone.
    destruct (attributes g0 !! "normal") as [a|] eqn:En.
    + rewrite En. eexists; reflexivity.
    + unfold computeVertexNormals, setAttribute. rewrite Hpa.
      cbn [attributes]. rewrite lookup_insert_eq. eexists; reflexivity.
  - destruct (mergeGeometries_ok (fun _ => true) vertexNormals
                sphereFromPositions (g0 :: g1 :: rest) (fun _ => eq_refl))
      as (merged & Em & _ & Hn & _).
    rewrite Em, Hn. eexists; reflexivity.
Qed.

(** Two loadable models, a count of three, and ten frames: two batches
    of 2 and 1 objects, three objects with colours from the palette,
    each 8 lower after the frames. *)
Example startup_sample :
  match initializeScene (config_with_count 3) default_ANIMATION_CONFIG
          default_MATERIAL_CONFIG default_MODEL_CONFIG default_OBJECT_COLORS
          sample_random (Some ["one.glb"; "two.glb"]) sample_load
          (fun _ => true) sample_vertexNormals sample_sphere 0%nat with
  | (Some s, n) =>
      map count (instancedMeshes s) = [2; 1]%Z
      /\ map objects (instancedMeshes s) = [[0; 1]; [2]]%nat
      /\ map meshIndex (allObjects s) = [0; 0; 1]%nat
      /\ n = 30%nat
      /\ match frames (config_with_count 3) default_ANIMATION_CONFIG
                  sample_random 10 s n with
         | (Ok s', n') =>
             n' = 30%nat
             /\ map (fun o => Qred (Vector3.y (position o))) (allObjects s)
                = [-3 # 8; -1 # 8; 1 # 8]
             /\ map (fun o => Qred (Vector3.y (position o))) (allObjects s')
                = [-67 # 8; -65 # 8; -63 # 8]
             /\ map colorArray (instancedMeshes s')
                = [[239 # 255; 97 # 255; 241 # 255; 139 # 255; 74 # 255; 224 # 255];
                   [60 # 255; 89 # 255; 233 # 255]]
         | (Throw, _) => False
         end
  | (None, _) => False
  end.
Proof. vm_compute. repeat split; reflexivity. Qed.

(** ** The number of objects in the scene *)

Lemma createBatches_counts
    (cfg : ObjectConfig) (mat : MaterialConfig)
    (loadedModels : list LoadedModel) :
  (0 <= OBJECT_COUNT cfg)%Z ->
  loadedModels <> [] ->
  Forall (fun b => (0 < count b)%Z) (fst (createBatches cfg mat loadedModels))
  /\ sumZ (map count (fst (createBatches cfg mat loadedModels)))
     = OBJECT_COUNT cfg.
Proof.
  intros HN HM.
  assert (HMpos : (0 < Z.of_nat (length loadedModels))%Z).
  { destruct loadedModels; [congruence | simpl length; lia]. }
  pose proof (Math_ceil_div_bounds (OBJECT_COUNT cfg) _ HMpos) as HB.
  cbv zeta in HB. fold (objectsPerModel cfg loadedModels) in HB.
  assert (HP : (0 <= objectsPerModel cfg loadedModels)%Z) by nia.
  destruct (createBatch_fold cfg mat _ loadedModels HP [] 0%Z ltac:(lia))
    as (newbs & Hf & _ & Hs & Hok & _).
  unfold createBatches. rewrite Hf. simpl fst. simpl app. split; [|lia].
  eapply Forall_impl; [exact Hok|]. intros b Hb. destruct Hb as [? _]. lia.
Qed.

(** With a non-negative target count and at least one model loaded,
    the scene holds exactly [OBJECT_COUNT] objects. *)
Lemma initializeScene_object_count
    (cfg : ObjectConfig) (anim : AnimationConfig) (mat : MaterialConfig)
    (mcfg : ModelConfig) (colors : list Z) (random : nat -> Q)
    (listing : option (list string)) (load : string -> LoadOutcome)
    (fits : nat -> bool)
    (vertexNormals : list Q -> option (list nat) -> list Q)
    (sphereFromPositions : list Q -> Sphere) (n : nat) :
  (forall i : nat, 0 <= random i /\ random i < 1) ->
  0 <= Y_SPREAD cfg ->
  (0 <= OBJECT_COUNT cfg)%Z ->
  loadAllModels mcfg listing load fits vertexNormals sphereFromPositions <> [] ->
  exists (s : SceneState) (n' : nat),
    initializeScene cfg anim mat mcfg colors random listing load fits
      vertexNormals sphereFromPositions n = (Some s, n')
    /\ Z.of_nat (length (allObjects s)) = OBJECT_COUNT cfg
    /\ sumZ (map count (instancedMeshes s)) = OBJECT_COUNT cfg.
Proof.
  intros Hrand Hspread HN Hne.
  destruct (initializeScene_reachable cfg anim mat mcfg colors random listing
              load fits vertexNormals sphereFromPositions Hrand Hspread n Hne)
    as (s & n' & Ei & _ & _ & Hc & Hlen).
  destruct (createBatches_counts cfg mat _ HN Hne) as [Hpos Hsum].
  exists s, n'. split; [exact Ei|].
  rewrite Hlen, Hc, requested_sum by exact Hpos. split; exact Hsum.
Qed.

(** ** Further properties of model acquisition *)

(** The paths of the loaded models are the requested paths with the
    failed ones struck out: same order, nothing added. *)
Theorem loaded_paths_sublist
    (gltfLoader_load : string -> LoadOutcome)
    (Float32Array_fits : nat -> bool)
    (vertexNormals : list Q -> option (list nat) -> list Q)
    (sphereFromPositions : list Q -> Sphere)
    (modelPaths : list string) :
  map path (loadModels gltfLoader_load Float32Array_fits vertexNormals
              sphereFromPositions modelPaths)
  `sublist_of` modelPaths
  /\ (length (loadModels gltfLoader_load Float32Array_fits vertexNormals
                sphereFromPositions modelPaths)
      <= length modelPaths)%nat
  /\ (NoDup modelPaths ->
      NoDup (map path (loadModels gltfLoader_load Float32Array_fits
                         vertexNormals sphereFromPositions modelPaths))).
Proof.
  assert (Hsub : map path (loadModels gltfLoader_load Float32Array_fits
                             vertexNormals sphereFromPositions modelPaths)
                 `sublist_of` modelPaths).
  { rewrite loadModels_omap.
    induction modelPaths as [|p l IH]; [constructor|].
    cbn [omap list_omap].
    destruct (loadPromise gltfLoader_load Float32Array_fits vertexNormals
                sphereFromPositions p) as [m|] eqn:E.
    - cbn [map]. rewrite (loadPromise_path _ _ _ _ _ _ E).
      apply sublist_skip. exact IH.
    - apply sublist_cons. exact IH. }
  split; [exact Hsub|]. split.
  - apply sublist_length in Hsub. rewrite length_map in Hsub. exact Hsub.
  - intros Hnd. eapply sublist_NoDup; [exact Hnd | exact Hsub].
Qed.

(** Whatever the inputs carry, a merged geometry has no index and no
    attribute besides position, normal and uv; position and normal are
    always there. *)
Theorem mergeGeometries_attributes
    (Float32Array_fits : nat -> bool)
    (vertexNormals : list Q -> option (list nat) -> list Q)
    (sphereFromPositions : list Q -> Sphere)
    (geometries : list BufferGeometry) (merged : BufferGeometry)
    (Hmerged : mergeGeometries Float32Array_fits vertexNormals
                 sphereFromPositions geometries = Ok merged) :
  index merged = None
  /\ (forall name : string,
         is_Some (attributes merged !! name) ->
         name = "position" \/ name = "normal" \/ name = "uv")
  /\ is_Some (attributes merged !! "position")
  /\ is_Some (attributes merged !! "normal").
Proof.
  unfold mergeGeometries in Hmerged. rewrite mergeStep_fold in Hmerged.
  simpl app in Hmerged. unfold Float32BufferAttribute in Hmerged.
  repeat match type of Hmerged with
         | context [if ?b then _ else _] => destruct b
         end;
    cbn [bindR] in Hmerged; try discriminate;
    injection Hmerged as <-;
    unfold computeBoundingSphere, computeVertexNormals, setAttribute,
      new_BufferGeometry; cbn [attributes index boundingSphere];
    rewrite ?lookup_insert_eq; cbn [attributes index boundingSphere];
    (split; [reflexivity|]);
    (split;
     [intros name [a Ha];
      destruct (decide (name = "position")) as [|H1]; [auto|];
      destruct (decide (name = "normal")) as [|H2]; [auto|];
      destruct (decide (name = "uv")) as [|H3]; [auto|];
      exfalso;
      rewrite ?lookup_insert_ne in Ha by congruence;
      rewrite lookup_empty in Ha; discriminate
     |]);
    split;
    rewrite ?lookup_insert_eq;
    repeat (rewrite lookup_insert_ne by discriminate; rewrite ?lookup_insert_eq);
    eexists; reflexivity.
Qed.

Lemma mergeGeometries_attributes_witness :
  exists merged : BufferGeometry,
    mergeGeometries (fun _ => true) sample_vertexNormals sample_sphere
      [indexed_triangle; quad] = Ok merged
    /\ index merged = None
    /\ attributes merged !! "color" = None.
Proof.
  destruct (mergeGeometries (fun _ => true) sample_vertexNormals sample_sphere
              [indexed_triangle; quad]) as [merged|] eqn:E;
    [|exfalso; vm_compute in E; discriminate].
  exists merged. split; [reflexivity|].
  destruct (mergeGeometries_attributes _ _ _ _ _ E) as (Hi & Hdom & _).
  split; [exact Hi|].
  destruct (attributes merged !! "color") as [a|] eqn:Ec; [|reflexivity].
  destruct (Hdom "color" (ex_intro _ a Ec)) as [H|[H|H]]; discriminate.
Defined.

(** On a runtime that allocates every typed array asked for, a model
    with a single mesh keeps that mesh's geometry: index, bounding
    sphere and every attribute other than the normals are the mesh's
    own.  (The clone and the computed normals allocate typed arrays
    too; the embedding charges allocation failures to the merge only,
    so the property is stated for a runtime where none occurs.) *)
Theorem single_mesh_kept
    (Float32Array_fits : nat -> bool)
    (vertexNormals : list Q -> option (list nat) -> list Q)
    (sphereFromPositions : list Q -> Sphere)
    (p : string) (scene : list Object3D) (g : BufferGeometry)
    (Hfits : forall n : nat, Float32Array_fits n = true)
    (Hone : collectGeometries scene = [g]) :
  exists m : LoadedModel,
    onLoad Float32Array_fits vertexNormals sphereFromPositions p scene = Some m
    /\ path m = p
    /\ index (model_geometry m) = index g
    /\ boundingSphere (model_geometry m) = boundingSphere g
    /\ forall name : string,
         name <> "normal" ->
         attributes (model_geometry m) !! name = attributes g !! name.
Proof.
  unfold onLoad. rewrite Hone. eexists. split; [reflexivity|].
  cbn [path model_geometry]. split; [reflexivity|].
  unfold ensureNormals, clone, computeVertexNormals.
  destruct (attributes g !! "normal") as [na|];
    [repeat split; reflexivity|].
  destruct (attributes g !! "position") as [pa|];
    [|repeat split; reflexivity].
  unfold setAttribute. cbn [index boundingSphere attributes].
  split; [reflexivity|]. split; [reflexivity|].
  intros name Hne. apply lookup_insert_ne. congruence.
Qed.

Lemma single_mesh_kept_witness :
  collectGeometries [group_node; mesh_of bare_quad] = [bare_quad]
  /\ exists m : LoadedModel,
       onLoad (fun _ => true) sample_vertexNormals sample_sphere
         "models/quad.glb" [group_node; mesh_of bare_quad] = Some m
       /\ attributes (model_geometry m) !! "position"
          = Some (attr3 quad_positions).
Proof.
  assert (H : collectGeometries [group_node; mesh_of bare_quad] = [bare_quad])
    by reflexivity.
  split; [exact H|].
  destruct (single_mesh_kept (fun _ => true) sample_vertexNormals sample_sphere
              "models/quad.glb" _ _ (fun _ => eq_refl) H)
    as (m & Em & _ & _ & _ & Hattr).
  exists m. split; [exact Em|].
  rewrite Hattr by discriminate. reflexivity.
Defined.

(** ** Further properties of the partition *)

Lemma spec_assign_closed (perModel N : Z) (m : nat) :
  (0 < perModel)%Z ->
  forall R : Z,
    (0 <= R <= Z.of_nat m * perModel)%Z ->
    List.filter (Z.ltb 0) (spec_assign perModel N (N - R) m)
    = replicate (Z.to_nat (R / perModel)) perModel
      ++ (if (0 <? R mod perModel)%Z then [(R mod perModel)%Z] else []).
Proof.
  intros HP. induction m as [|m IH]; intros R HR.
  - assert (R = 0)%Z by lia. subst R. rewrite Z.div_0_l, Z.mod_0_l by lia.
    reflexivity.
  - cbn [spec_assign List.filter].
    replace (N - (N - R))%Z with R by lia.
    destruct (Z.le_gt_cases perModel R) as [Hge|Hlt].
    + rewrite Z.min_l by lia.
      replace (0 <? perModel)%Z with true by (symmetry; apply Z.ltb_lt; lia).
      assert (Ed : (R / perModel = (R - perModel) / perModel + 1)%Z).
      { replace R with ((R - perModel) + 1 * perModel)%Z at 1 by lia.
        apply Z.div_add. lia. }
      assert (Em : (R mod perModel = (R - perModel) mod perModel)%Z).
      { replace R with ((R - perModel) + 1 * perModel)%Z at 1 by lia.
        apply Z.mod_add. lia. }
      rewrite Ed, Em.
      replace (N - R + perModel)%Z with (N - (R - perModel))%Z by lia.
      rewrite IH by lia.
      rewrite Z2Nat.inj_add by (try apply Z.div_pos; lia).
      rewrite Nat.add_comm. reflexivity.
    + rewrite Z.min_r by lia.
      rewrite Z.div_small, Z.mod_small by lia. cbn [Z.to_nat replicate app].
      destruct (0 <? R)%Z eqn:E0.
      * replace (N - R + R)%Z with (N - 0)%Z by lia.
        rewrite IH by lia. rewrite Z.div_0_l, Z.mod_0_l by lia. reflexivity.
      * apply Z.ltb_ge in E0. assert (R = 0)%Z by lia. subst R.
        replace (N - 0 + 0)%Z with (N - 0)%Z by lia.
        rewrite IH by lia. rewrite Z.div_0_l, Z.mod_0_l by lia. reflexivity.
Qed.

(** The batch sizes in closed form: [N / perModel] batches of
    [perModel] objects each, then one batch with the remainder when
    there is one.  So all batches but the last are full, and models
    beyond those batches get none. *)
Theorem createBatches_closed_form
    (cfg : ObjectConfig) (mat : MaterialConfig)
    (loadedModels : list LoadedModel)
    (HN : (0 <= OBJECT_COUNT cfg)%Z)
    (HM : loadedModels <> []) :
  map count (fst (createBatches cfg mat loadedModels))
  = replicate
      (Z.to_nat (OBJECT_COUNT cfg / objectsPerModel cfg loadedModels))
      (objectsPerModel cfg loadedModels)
    ++ (if (0 <? OBJECT_COUNT cfg mod objectsPerModel cfg loadedModels)%Z
        then [(OBJECT_COUNT cfg mod objectsPerModel cfg loadedModels)%Z]
        else [])
  /\ (length (fst (createBatches cfg mat loadedModels))
      <= length loadedModels)%nat.
Proof.
  assert (HMpos : (0 < Z.of_nat (length loadedModels))%Z).
  { destruct loadedModels; [congruence | simpl length; lia]. }
  pose proof (Math_ceil_div_bounds (OBJECT_COUNT cfg) _ HMpos) as HB.
  cbv zeta in HB. fold (objectsPerModel cfg loadedModels) in HB.
  assert (HP : (0 <= objectsPerModel cfg loadedModels)%Z) by nia.
  destruct (createBatch_fold cfg mat _ loadedModels HP [] 0%Z ltac:(lia))
    as (newbs & Hf & Hc & Hs & _ & Hg).
  unfold createBatches. rewrite Hf. simpl fst. simpl app. split.
  - rewrite Hc.
    destruct (Z.eq_dec (objectsPerModel cfg loadedModels) 0%Z) as [E0|Hne].
    + assert (EN : OBJECT_COUNT cfg = 0%Z) by nia.
      rewrite E0, EN. cbn [Z.div Z.modulo Z.to_nat replicate Z.ltb Z.compare app].
      clear. induction (length loadedModels) as [|k IH]; [reflexivity|].
      cbn [spec_assign List.filter]. exact IH.
    + replace 0%Z with (OBJECT_COUNT cfg - OBJECT_COUNT cfg)%Z at 2 by lia.
      apply spec_assign_closed; lia.
  - apply (f_equal (@length _)) in Hg. rewrite !length_map, length_take in Hg.
    lia.
Qed.

Lemma createBatches_closed_form_witness :
  (0 <= OBJECT_COUNT default_OBJECT_CONFIG)%Z
  /\ sample_models 5 <> []
  /\ map count
       (fst (createBatches default_OBJECT_CONFIG default_MATERIAL_CONFIG
               (sample_models 5)))
     = replicate 4 10%Z ++ [8%Z].
Proof.
  assert (H1 : (0 <= OBJECT_COUNT default_OBJECT_CONFIG)%Z)
    by (vm_compute; discriminate).
  assert (H2 : sample_models 5 <> []) by discriminate.
  split; [exact H1|]. split; [exact H2|].
  rewrite (proj1 (createBatches_closed_form default_OBJECT_CONFIG
                    default_MATERIAL_CONFIG (sample_models 5) H1 H2)).
  reflexivity.
Defined.

(** ** Further properties of object creation *)

Lemma scaled_range (r d : Q) : 0 <= r -> r < 1 -> 0 <= d -> 0 <= r * d /\ r * d <= d.
Proof.
  intros H0 H1 Hd.
  pose proof (Qmult_le_0_compat _ _ H0 Hd).
  assert (0 <= (1 - r) * d) by (apply Qmult_le_0_compat; lra).
  split; lra.
Qed.

Lemma turn_range (r : Q) : 0 <= r -> r < 1 -> 0 <= r * Math_PI /\ r * Math_PI < Math_PI.
Proof.
  intros H0 H1.
  assert (HPI : 0 < Math_PI) by reflexivity.
  split.
  - apply Qmult_le_0_compat; [exact H0 | apply Qlt_le_weak; exact HPI].
  - setoid_replace Math_PI with (1 * Math_PI) using relation Qeq at 2 by ring.
    apply Qmult_lt_compat_r; assumption.
Qed.

Lemma palette_index (colors : list Z) (r : Q) :
  colors <> [] -> 0 <= r -> r < 1 ->
  exists c : Z,
    array_get colors (Math_floor (r * inject_Z (Z.of_nat (length colors)))) = Some c
    /\ In c colors.
Proof.
  intros Hne H0 H1.
  set (len := Z.of_nat (length colors)).
  assert (Hlen : (0 < len)%Z).
  { subst len. destruct colors; [congruence | simpl length; lia]. }
  assert (HlenQ : 0 < inject_Z len).
  { change 0 with (inject_Z 0). rewrite <- Zlt_Qlt. exact Hlen. }
  destruct (scaled_range r (inject_Z len) H0 H1 (Qlt_le_weak _ _ HlenQ)) as [Hlo _].
  assert (Hhi : r * inject_Z len < inject_Z len).
  { setoid_replace (inject_Z len) with (1 * inject_Z len) using relation Qeq at 2
      by ring.
    apply Qmult_lt_compat_r; assumption. }
  unfold Math_floor.
  assert (L : (0 <= Qfloor (r * inject_Z len))%Z).
  { change 0%Z with (Qfloor 0). apply Qfloor_resp_le. exact Hlo. }
  assert (U : (Qfloor (r * inject_Z len) < len)%Z).
  { rewrite Zlt_Qlt. eapply Qle_lt_trans; [apply Qfloor_le | exact Hhi]. }
  unfold array_get.
  replace (Qfloor (r * inject_Z len) <? 0)%Z with false
    by (symmetry; apply Z.ltb_ge; exact L).
  destruct (colors !! Z.to_nat (Qfloor (r * inject_Z len))) as [c|] eqn:E.
  - exists c. split; [reflexivity|].
    apply list_elem_of_In. eapply list_elem_of_lookup_2. exact E.
  - apply lookup_ge_None in E. subst len. lia.
Qed.

Section Creation.

Variable OBJECT_CONFIG : ObjectConfig.
Variable ANIMATION_CONFIG : AnimationConfig.
Variable OBJECT_COLORS : list Z.
Variable random : nat -> Q.

Local Abbreviation created mi i n :=
  (fst (newObjectState OBJECT_CONFIG ANIMATION_CONFIG random mi i n)).

(** A new object lies in the configured box, is turned by less than
    half a turn about each axis, has a scale between MIN_SCALE and
    MAX_SCALE and rotation speeds within half of MAX_ROTATION_SPEED
    either way; creating it takes nine random values. *)
Theorem newObjectState_ranges (mi i n : nat)
    (Hrand : forall k : nat, 0 <= random k /\ random k < 1)
    (HX : 0 <= X_SPREAD OBJECT_CONFIG)
    (HY : 0 <= Y_SPREAD OBJECT_CONFIG)
    (HZ : 0 <= Z_SPREAD OBJECT_CONFIG)
    (Hscale : MIN_SCALE OBJECT_CONFIG <= MAX_SCALE OBJECT_CONFIG)
    (Hspeed : 0 <= MAX_ROTATION_SPEED ANIMATION_CONFIG) :
  snd (newObjectState OBJECT_CONFIG ANIMATION_CONFIG random mi i n) = (n + 9)%nat
  /\ meshIndex (created mi i n) = mi
  /\ instanceIndex (created mi i n) = i
  /\ (- (X_SPREAD OBJECT_CONFIG / 2) <= Vector3.x (position (created mi i n))
      /\ Vector3.x (position (created mi i n)) <= X_SPREAD OBJECT_CONFIG / 2)
  /\ in_fall_range OBJECT_CONFIG (created mi i n)
  /\ (- (Z_SPREAD OBJECT_CONFIG / 2) <= Vector3.z (position (created mi i n))
      /\ Vector3.z (position (created mi i n)) <= Z_SPREAD OBJECT_CONFIG / 2)
  /\ (0 <= Euler.x (rotation (created mi i n))
      /\ Euler.x (rotation (created mi i n)) < Math_PI)
  /\ (0 <= Euler.y (rotation (created mi i n))
      /\ Euler.y (rotation (created mi i n)) < Math_PI)
  /\ (0 <= Euler.z (rotation (created mi i n))
      /\ Euler.z (rotation (created mi i n)) < Math_PI)
  /\ (MIN_SCALE OBJECT_CONFIG <= scale (created mi i n)
      /\ scale (created mi i n) <= MAX_SCALE OBJECT_CONFIG)
  /\ (- (MAX_ROTATION_SPEED ANIMATION_CONFIG / 2) <= rotationSpeedX (created mi i n)
      /\ rotationSpeedX (created mi i n) <= MAX_ROTATION_SPEED ANIMATION_CONFIG / 2)
  /\ (- (MAX_ROTATION_SPEED ANIMATION_CONFIG / 2) <= rotationSpeedZ (created mi i n)
      /\ rotationSpeedZ (created mi i n) <= MAX_ROTATION_SPEED ANIMATION_CONFIG / 2).
Proof.
  cbv beta iota zeta delta [newObjectState bind Math_random ret fst snd].
  cbn [meshIndex instanceIndex position rotation scale rotationSpeedX
       rotationSpeedZ Vector3.x Vector3.y Vector3.z Euler.x Euler.y Euler.z].
  pose proof (fun k => proj1 (Hrand k)) as H0.
  pose proof (fun k => proj2 (Hrand k)) as H1.
  split; [lia|]. split; [reflexivity|]. split; [reflexivity|].
  split; [apply centred_range; auto|].
  split.
  { destruct (centred_range (random (S n)) (Y_SPREAD OBJECT_CONFIG)
                (H0 _) (H1 _) HY) as [Hlo Hhi].
    unfold in_fall_range. cbn [position Vector3.y]. split; lra. }
  split; [apply centred_range; auto|].
  split; [apply turn_range; auto|].
  split; [apply turn_range; auto|].
  split; [apply turn_range; auto|].
  split.
  { destruct (scaled_range (random (S (S (S (S (S (S n)))))))
                (MAX_SCALE OBJECT_CONFIG - MIN_SCALE OBJECT_CONFIG)
                (H0 _) (H1 _) ltac:(lra)) as [Hlo Hhi].
    split; lra. }
  split; apply centred_range; auto.
Qed.

End Creation.

Lemma newObjectState_ranges_witness :
  (forall k : nat, 0 <= sample_random k /\ sample_random k < 1)
  /\ MIN_SCALE default_OBJECT_CONFIG
     <= scale (fst (newObjectState default_OBJECT_CONFIG default_ANIMATION_CONFIG
                      sample_random 0 0 0%nat))
  /\ scale (fst (newObjectState default_OBJECT_CONFIG default_ANIMATION_CONFIG
                   sample_random 0 0 0%nat))
     <= MAX_SCALE default_OBJECT_CONFIG.
Proof.
  split; [exact sample_random_range|].
  destruct (newObjectState_ranges default_OBJECT_CONFIG default_ANIMATION_CONFIG
              sample_random 0 0 0 sample_random_range
              ltac:(discriminate) ltac:(discriminate) ltac:(discriminate)
              ltac:(discriminate) ltac:(discriminate))
    as (_ & _ & _ & _ & _ & _ & _ & _ & _ & Hs & _).
  exact Hs.
Defined.

(** ** The instance buffers mirror the object states *)

Lemma writeInstance_matrixAt (meshes : list MeshData) (o : ObjectState) :
  is_Some (matrixAt meshes (slot o)) ->
  exists meshes' : list MeshData,
    writeInstance meshes o = Ok meshes'
    /\ mirrored meshes' o
    /\ forall sl : nat * nat,
         sl <> slot o -> matrixAt meshes' sl = matrixAt meshes sl.
Proof.
  unfold matrixAt, slot, mirrored, writeInstance. cbn [fst snd].
  intros [m Hm].
  destruct (meshes !! meshIndex o) as [meshData|] eqn:E; [|discriminate].
  eexists. split; [reflexivity|].
  assert (Hlt : (meshIndex o < length meshes)%nat)
    by (eapply lookup_lt_Some; exact E).
  assert (Hi : (instanceIndex o < length (instanceMatrix (mesh meshData)))%nat)
    by (eapply lookup_lt_Some; exact Hm).
  split.
  - unfold matrixAt. cbn [fst snd].
    rewrite list_lookup_insert_eq by exact Hlt.
    cbn [with_mesh mesh setMatrixAt instanceMatrix].
    apply list_lookup_insert_eq. exact Hi.
  - intros [mi ii] Hne. cbn [fst snd].
    destruct (decide (mi = meshIndex o)) as [->|Hmi].
    + rewrite list_lookup_insert_eq by exact Hlt. rewrite E.
      cbn [with_mesh mesh setMatrixAt instanceMatrix].
      apply list_lookup_insert_ne. congruence.
    + rewrite list_lookup_insert_ne by congruence. reflexivity.
Qed.

Section Mirror.

Variable OBJECT_CONFIG : ObjectConfig.
Variable ANIMATION_CONFIG : AnimationConfig.
Variable random : nat -> Q.

Local Abbreviation updateObject' := (updateObject OBJECT_CONFIG ANIMATION_CONFIG random).
Local Abbreviation forEachObject' := (forEachObject OBJECT_CONFIG ANIMATION_CONFIG random).
Local Abbreviation animate' := (animate OBJECT_CONFIG ANIMATION_CONFIG random).
Local Abbreviation frames' := (frames OBJECT_CONFIG ANIMATION_CONFIG random).

Lemma updateObject_slot (o : ObjectState) (n : nat) :
  slot (fst (updateObject' o n)) = slot o.
Proof.
  unfold slot, updateObject.
  destruct (recycle_keeps OBJECT_CONFIG random (fallAndSpin ANIMATION_CONFIG o) n)
    as (Hm & Hi & _).
  rewrite Hm, Hi. reflexivity.
Qed.

Lemma forEachObject_mirror (objs : list ObjectState) :
  forall (meshes : list MeshData) (n : nat),
    NoDup (map slot objs) ->
    Forall (fun o => is_Some (matrixAt meshes (slot o))) objs ->
    exists (objs' : list ObjectState) (meshes' : list MeshData) (n' : nat),
      forEachObject' objs meshes n = (Ok (objs', meshes'), n')
      /\ map slot objs' = map slot objs
      /\ Forall (mirrored meshes') objs'
      /\ (forall sl : nat * nat,
             ~ In sl (map slot objs) -> matrixAt meshes' sl = matrixAt meshes sl)
      /\ (forall sl : nat * nat,
             is_Some (matrixAt meshes sl) -> is_Some (matrixAt meshes' sl)).
Proof.
  induction objs as [|obj rest IH]; intros meshes n Hnd Hin.
  - exists [], meshes, n. repeat split; auto.
  - cbn [map] in Hnd. apply NoDup_cons in Hnd as [Hfresh Hnd].
    inversion Hin as [|? ? Hobj Hrest]; subst.
    cbn [forEachObject]. unfold bind at 1.
    destruct (updateObject' obj n) as [obj' n1] eqn:Eu.
    assert (Hslot : slot obj' = slot obj).
    { change obj' with (fst (obj', n1)). rewrite <- Eu. apply updateObject_slot. }
    assert (Hobj' : is_Some (matrixAt meshes (slot obj'))) by (rewrite Hslot; exact Hobj).
    destruct (writeInstance_matrixAt meshes obj' Hobj') as (meshes1 & Ew & Hm1 & Hframe1).
    rewrite Ew. unfold bind.
    assert (Hsome1 : forall sl, is_Some (matrixAt meshes sl) ->
                                is_Some (matrixAt meshes1 sl)).
    { intros sl Hs. destruct (decide (sl = slot obj')) as [->|Hne].
      - unfold mirrored in Hm1. rewrite Hm1. eexists; reflexivity.
      - rewrite Hframe1 by exact Hne. exact Hs. }
    assert (Hrest1 : Forall (fun o => is_Some (matrixAt meshes1 (slot o))) rest).
    { eapply Forall_impl; [exact Hrest|]. intros o Ho. apply Hsome1. exact Ho. }
    destruct (IH meshes1 n1 Hnd Hrest1)
      as (objs' & meshes' & n' & Ef & Hslots & Hmir & Hframe & Hsome).
    rewrite Ef. simpl. exists (obj' :: objs'), meshes', n'.
    split; [reflexivity|]. split; [cbn [map]; congruence|]. split.
    + constructor; [|exact Hmir]. unfold mirrored.
      rewrite Hframe; [exact Hm1|]. rewrite Hslot.
      intros Hc. apply Hfresh. apply list_elem_of_In. exact Hc.
    + split.
      * intros sl Hsl. cbn [map] in Hsl.
        rewrite Hframe by (intros Hc; apply Hsl; right; exact Hc).
        apply Hframe1. rewrite Hslot. intros ->. apply Hsl. left. reflexivity.
      * intros sl Hs. apply Hsome. apply Hsome1. exact Hs.
Qed.

Lemma animate_mirror (s : SceneState) (n : nat) :
  slots_ok s ->
  exists (s' : SceneState) (n' : nat),
    animate' s n = (Ok s', n')
    /\ slots_ok s'
    /\ Forall (mirrored (instancedMeshes s')) (allObjects s').
Proof.
  intros [Hnd Hin]. unfold animate, bind.
  destruct (forEachObject_mirror (allObjects s) (instancedMeshes s) n Hnd Hin)
    as (objs' & meshes' & n' & Ef & Hslots & Hmir & _ & _).
  rewrite Ef. simpl. eexists _, n'. split; [reflexivity|].
  unfold slots_ok. cbn [allObjects instancedMeshes].
  split; [|exact Hmir]. split; [rewrite Hslots; exact Hnd|].
  eapply Forall_impl; [exact Hmir|]. intros o Ho.
  unfold mirrored in Ho. rewrite Ho. eexists; reflexivity.
Qed.

Lemma frames_mirror (K : nat) :
  forall (s : SceneState) (n : nat),
    slots_ok s ->
    (1 <= K)%nat ->
    exists (s' : SceneState) (n' : nat),
      frames' K s n = (Ok s', n')
      /\ slots_ok s'
      /\ Forall (mirrored (instancedMeshes s')) (allObjects s').
Proof.
  induction K as [|K IH]; intros s n Hok HK; [lia|].
  destruct (animate_mirror s n Hok) as (s1 & n1 & Ea & Hok1 & Hm1).
  cbn [frames]. unfold bind. rewrite Ea.
  destruct K as [|K'].
  - exists s1, n1. simpl. unfold ret. repeat split; try assumption; apply Hok1.
  - apply IH; [exact Hok1 | lia].
Qed.

End Mirror.

Lemma sample_scene_slots : slots_ok sample_scene.
Proof.
  split.
  - simpl. repeat constructor; rewrite ?elem_of_cons, ?elem_of_nil;
      intros H; repeat destruct H as [H|H]; try discriminate; exact H.
  - repeat constructor; eexists; reflexivity.
Qed.

(** When every object has its own slot in the buffers, each completed
    frame, and so any positive number of frames, leaves in every
    object's slot the matrix composed from the object's position,
    rotation and scale at the end of the frame; the slots stay as they
    were. *)
Theorem buffers_mirror_objects
    (cfg : ObjectConfig) (anim : AnimationConfig) (random : nat -> Q)
    (s : SceneState) (K n : nat)
    (Hslots : slots_ok s)
    (HK : (1 <= K)%nat) :
  exists (s' : SceneState) (n' : nat),
    frames cfg anim random K s n = (Ok s', n')
    /\ slots_ok s'
    /\ Forall (mirrored (instancedMeshes s')) (allObjects s').
Proof. apply frames_mirror; assumption. Qed.

Lemma buffers_mirror_objects_witness :
  slots_ok sample_scene
  /\ exists (s' : SceneState) (n' : nat),
       frames default_OBJECT_CONFIG default_ANIMATION_CONFIG sample_random
         20 sample_scene 0%nat = (Ok s', n')
       /\ Forall (mirrored (instancedMeshes s')) (allObjects s').
Proof.
  split; [exact sample_scene_slots|].
  destruct (buffers_mirror_objects default_OBJECT_CONFIG default_ANIMATION_CONFIG
              sample_random sample_scene 20 0 sample_scene_slots ltac:(lia))
    as (s' & n' & Ef & _ & Hm).
  exists s', n'. split; assumption.
Defined.

(** ** The buffers after populating the scene *)

Section PopulateBuffers.

Variable OBJECT_CONFIG : ObjectConfig.
Variable ANIMATION_CONFIG : AnimationConfig.
Variable OBJECT_COLORS : list Z.
Variable random : nat -> Q.

Local Abbreviation initInstance' :=
  (initInstance OBJECT_CONFIG ANIMATION_CONFIG OBJECT_COLORS random).
Local Abbreviation populate' :=
  (populate OBJECT_CONFIG ANIMATION_CONFIG OBJECT_COLORS random).





End PopulateBuffers.


Section StartupBuffers.

Variable OBJECT_CONFIG : ObjectConfig.
Variable ANIMATION_CONFIG : AnimationConfig.
Variable MATERIAL_CONFIG : MaterialConfig.
Variable MODEL_CONFIG : ModelConfig.
Variable OBJECT_COLORS : list Z.
Variable random : nat -> Q.
Variable directoryListing : option (list string).
Variable gltfLoader_load : string -> LoadOutcome.
Variable Float32Array_fits : nat -> bool.
Variable vertexNormals : list Q -> option (list nat) -> list Q.
Variable sphereFromPositions : list Q -> Sphere.

Local Abbreviation loadedModels :=
  (loadAllModels MODEL_CONFIG directoryListing gltfLoader_load
     Float32Array_fits vertexNormals sphereFromPositions).
Local Abbreviation initializeScene' :=
  (initializeScene OBJECT_CONFIG ANIMATION_CONFIG MATERIAL_CONFIG MODEL_CONFIG
     OBJECT_COLORS random directoryListing gltfLoader_load Float32Array_fits
     vertexNormals sphereFromPositions).




End StartupBuffers.



(** With a non-empty palette and a draw in [0, 1), the palette index
    [floor(r * length)] never leaves the palette: the lookup yields an
    entry of the palette, never [undefined], and the colour that is
    constructed is that entry's colour. *)
Theorem palette_lookup_defined (colors : list Z) (r : Q)
    (Hcolors : colors <> [])
    (Hlow : 0 <= r)
    (Hhigh : r < 1) :
  exists c : Z,
    array_get colors (Math_floor (r * inject_Z (Z.of_nat (length colors))))
    = Some c
    /\ In c colors
    /\ drawnColor colors r = new_Color (Some c).
Proof.
  destruct (palette_index colors r Hcolors Hlow Hhigh) as (c & Ec & Hin).
  exists c. split; [exact Ec|]. split; [exact Hin|].
  unfold drawnColor. rewrite Ec. reflexivity.
Qed.

Lemma palette_lookup_defined_witness :
  default_OBJECT_COLORS <> []
  /\ 0 <= 7 # 8
  /\ 7 # 8 < 1
  /\ exists c : Z,
       array_get default_OBJECT_COLORS
         (Math_floor ((7 # 8)
                      * inject_Z (Z.of_nat (length default_OBJECT_COLORS))))
       = Some c
       /\ In c default_OBJECT_COLORS.
Proof.
  assert (Hc : default_OBJECT_COLORS <> []) by discriminate.
  assert (Hl : 0 <= 7 # 8) by discriminate.
  assert (Hh : 7 # 8 < 1) by reflexivity.
  split; [exact Hc|]. split; [exact Hl|]. split; [exact Hh|].
  destruct (palette_lookup_defined default_OBJECT_COLORS (7 # 8) Hc Hl Hh)
    as (c & Ec & Hin & _).
  exists c. split; assumption.
Defined.

(** ** Further properties of the frame update *)

Section FrameMore.

Variable OBJECT_CONFIG : ObjectConfig.
Variable ANIMATION_CONFIG : AnimationConfig.
Variable random : nat -> Q.

Local Abbreviation updateObject' := (updateObject OBJECT_CONFIG ANIMATION_CONFIG random).
Local Abbreviation forEachObject' := (forEachObject OBJECT_CONFIG ANIMATION_CONFIG random).
Local Abbreviation animate' := (animate OBJECT_CONFIG ANIMATION_CONFIG random).
Local Abbreviation frames' := (frames OBJECT_CONFIG ANIMATION_CONFIG random).
Local Abbreviation threshold := (recycleThreshold OBJECT_CONFIG).
Local Abbreviation willRecycle' := (willRecycle OBJECT_CONFIG ANIMATION_CONFIG).

Lemma updateObject_cursor (o : ObjectState) (n : nat) :
  snd (updateObject' o n) = (n + if willRecycle' o then 2 else 0)%nat.
Proof.
  unfold updateObject, recycle, willRecycle. cbn [fallAndSpin with_rotation
    with_position position Vector3.y].
  destruct (Qlt_le_dec _ _); simpl; lia.
Qed.

Lemma updateObject_turned (o : ObjectState) (n : nat) :
  turned ANIMATION_CONFIG o (fst (updateObject' o n)).
Proof.
  unfold updateObject.
  destruct (recycle_keeps OBJECT_CONFIG random (fallAndSpin ANIMATION_CONFIG o) n)
    as (Hm & Hi & Hr & Hs & Hsx & Hsz).
  unfold turned, slot. rewrite Hr, Hs, Hsx, Hsz, Hm, Hi.
  cbn [fallAndSpin with_rotation with_position rotation Euler.x Euler.y Euler.z
       scale rotationSpeedX rotationSpeedZ meshIndex instanceIndex].
  set (dx := rotationSpeedX o * ROTATION_MULTIPLIER ANIMATION_CONFIG).
  set (dz := rotationSpeedZ o * ROTATION_MULTIPLIER ANIMATION_CONFIG).
  repeat split; try reflexivity; intros H; lra.
Qed.

Lemma turned_refl (o : ObjectState) : turned ANIMATION_CONFIG o o.
Proof.
  unfold turned. repeat split; try reflexivity; intros _; apply Qle_refl.
Qed.

Lemma turned_trans (o o1 o' : ObjectState) :
  turned ANIMATION_CONFIG o o1 ->
  turned ANIMATION_CONFIG o1 o' ->
  turned ANIMATION_CONFIG o o'.
Proof.
  unfold turned.
  intros (Asl & As & Asx & Asz & Ay & Ax1 & Ax2 & Az1 & Az2)
         (Bsl & Bs & Bsx & Bsz & By & Bx1 & Bx2 & Bz1 & Bz2).
  rewrite Asx in Bx1, Bx2. rewrite Asz in Bz1, Bz2.
  repeat split; try congruence; intros H.
  - eapply Qle_trans; [apply Ax1 | apply Bx1]; exact H.
  - eapply Qle_trans; [apply Bx2 | apply Ax2]; exact H.
  - eapply Qle_trans; [apply Az1 | apply Bz1]; exact H.
  - eapply Qle_trans; [apply Bz2 | apply Az2]; exact H.
Qed.

Lemma Forall2_chain {A} (R1 R2 R : A -> A -> Prop) (l1 l2 l3 : list A) :
  (forall a b c, R1 a b -> R2 b c -> R a c) ->
  Forall2 R1 l1 l2 -> Forall2 R2 l2 l3 -> Forall2 R l1 l3.
Proof.
  intros Hc H12. revert l3. induction H12 as [|a b l1 l2 Hab _ IH]; intros l3 H23.
  - inversion H23. constructor.
  - inversion H23; subst. constructor; [eapply Hc; eassumption | apply IH; assumption].
Qed.

(** A step relation that every completed run of frames lifts to the
    object lists. *)
Lemma frames_lift (R : nat -> ObjectState -> ObjectState -> Prop) :
  (forall o, R 0%nat o o) ->
  (forall K o o1 o' m, o1 = fst (updateObject' o m) -> R K o1 o' -> R (S K) o o') ->
  forall (K : nat) (s : SceneState) (n : nat),
    scene_wf s ->
    exists (s' : SceneState) (n' : nat),
      frames' K s n = (Ok s', n')
      /\ scene_wf s'
      /\ Forall2 (R K) (allObjects s) (allObjects s').
Proof.
  intros H0 HS. induction K as [|K IH]; intros s n Hwf.
  - exists s, n. split; [reflexivity|]. split; [exact Hwf|].
    clear -H0. induction (allObjects s); constructor; auto.
  - destruct (animate_ok OBJECT_CONFIG ANIMATION_CONFIG random s n Hwf)
      as (s1 & n1 & Ea & Hwf1 & _ & H1).
    destruct (IH s1 n1 Hwf1) as (s' & n' & Ef & Hwf' & H2).
    exists s', n'. cbn [frames]. unfold bind. rewrite Ea.
    split; [exact Ef|]. split; [exact Hwf'|].
    eapply Forall2_chain; [|exact H1|exact H2].
    intros a b c [m Hb] Hbc. eapply HS; eassumption.
Qed.

Lemma forEachObject_cursor (objs : list ObjectState) :
  forall (meshes : list MeshData) (n : nat),
    Forall (fun o => (meshIndex o < length meshes)%nat) objs ->
    exists res : list ObjectState * list MeshData,
      forEachObject' objs meshes n
      = (Ok res, (n + 2 * length (List.filter willRecycle' objs))%nat).
Proof.
  induction objs as [|obj rest IH]; intros meshes n Hwf.
  - eexists. cbn [forEachObject]. unfold ret. f_equal. simpl. lia.
  - inversion Hwf as [|? ? Hobj Hrest]; subst.
    cbn [forEachObject]. unfold bind at 1.
    pose proof (updateObject_cursor obj n) as Hc.
    pose proof (updateObject_meshIndex OBJECT_CONFIG ANIMATION_CONFIG random obj n) as Hm.
    destruct (updateObject' obj n) as [obj' n1]. cbn [fst snd] in Hc, Hm.
    destruct (writeInstance_ok meshes obj' ltac:(rewrite Hm; exact Hobj))
      as (meshes1 & Ew & Hl1 & _).
    rewrite Ew. unfold bind.
    destruct (IH meshes1 n1 ltac:(rewrite Hl1; exact Hrest)) as (res & Ef).
    rewrite Ef. simpl. eexists. f_equal. subst n1.
    destruct (willRecycle' obj); simpl; lia.
Qed.

End FrameMore.

(** A completed frame draws two random values for each object it
    recycles and none for the others. *)
Theorem frame_draws
    (cfg : ObjectConfig) (anim : AnimationConfig) (random : nat -> Q)
    (s : SceneState) (n : nat)
    (Hwf : scene_wf s) :
  exists s' : SceneState,
    animate cfg anim random s n
    = (Ok s',
       (n + 2 * length (List.filter (willRecycle cfg anim) (allObjects s)))%nat).
Proof.
  unfold animate, bind.
  destruct (forEachObject_cursor cfg anim random (allObjects s)
              (instancedMeshes s) n Hwf) as (res & Ef).
  rewrite Ef. simpl. eexists. reflexivity.
Qed.

Lemma frame_draws_witness :
  scene_wf sample_scene
  /\ exists s' : SceneState,
       animate default_OBJECT_CONFIG default_ANIMATION_CONFIG sample_random
         {| instancedMeshes := instancedMeshes sample_scene;
            allObjects := [sample_object 0%nat (-310); sample_object 1%nat 7] |}
         4%nat
       = (Ok s', 6%nat).
Proof.
  split; [exact sample_scene_wf|].
  apply (frame_draws default_OBJECT_CONFIG default_ANIMATION_CONFIG sample_random
           {| instancedMeshes := instancedMeshes sample_scene;
              allObjects := [sample_object 0%nat (-310); sample_object 1%nat 7] |}
           4%nat).
  repeat constructor.
Defined.

(** Over any number of frames, recycling or not, every object keeps
    its batch, slot, scale and rotation speeds, its rotation about y
    stays, and its rotation about x and about z never moves against
    the sign of its speed times ROTATION_MULTIPLIER; no object is
    added or removed. *)
Theorem frames_turn
    (cfg : ObjectConfig) (anim : AnimationConfig) (random : nat -> Q)
    (s : SceneState) (K n : nat)
    (Hwf : scene_wf s) :
  exists (s' : SceneState) (n' : nat),
    frames cfg anim random K s n = (Ok s', n')
    /\ Forall2 (turned anim) (allObjects s) (allObjects s').
Proof.
  destruct (frames_lift cfg anim random (fun _ => turned anim)
              (turned_refl anim)
              (fun K o o1 o' m E H =>
                 turned_trans anim o o1 o'
                   (eq_ind_r (fun x => turned anim o x)
                      (updateObject_turned cfg anim random o m) E) H)
              K s n Hwf) as (s' & n' & Ef & _ & H2).
  exists s', n'. split; assumption.
Qed.

Lemma frames_turn_witness :
  scene_wf sample_scene
  /\ exists (s' : SceneState) (n' : nat),
       frames default_OBJECT_CONFIG default_ANIMATION_CONFIG sample_random
         20 sample_scene 0%nat = (Ok s', n')
       /\ Forall2 (turned default_ANIMATION_CONFIG)
            (allObjects sample_scene) (allObjects s').
Proof.
  split; [exact sample_scene_wf|].
  exact (frames_turn default_OBJECT_CONFIG default_ANIMATION_CONFIG
           sample_random sample_scene 20 0 sample_scene_wf).
Defined.

(** ** The frame-rate limiter *)

Section Limiter.

Context {S : Type}.
Variable animateFunction : S -> S.
Variable targetFPS : Q.

Local Abbreviation step := (fun st t => limitedAnimate animateFunction targetFPS t st).
Local Abbreviation frameTime := (1000 / targetFPS).

Lemma limited_fold (T : Q) (ticks : list (option Q)) :
  0 < targetFPS ->
  Forall (fun c => match c with Some t => t <= T | None => True end) ticks ->
  forall (state : S) (last : Q),
    last <= T ->
    exists k : nat,
      (k <= length ticks)%nat
      /\ fst (fold_left step ticks (state, last)) = Nat.iter k animateFunction state
      /\ last + inject_Z (Z.of_nat k) * frameTime
         <= snd (fold_left step ticks (state, last))
      /\ snd (fold_left step ticks (state, last)) <= T.
Proof.
  intros Hfps Hall.
  assert (Hmode : Qle_bool targetFPS 0 = false).
  { destruct (Qle_bool targetFPS 0) eqn:E; [|reflexivity].
    apply Qle_bool_iff in E. lra. }
  set (ft := 1000 / targetFPS) in *.
  induction Hall as [|c ticks Hc _ IH]; intros state last Hlast.
  - exists 0%nat. cbn [fold_left fst snd length Nat.iter nat_rect].
    change (inject_Z (Z.of_nat 0)) with 0.
    split; [lia|]. split; [reflexivity|]. split; lra.
  - cbn [fold_left]. unfold limitedAnimate at 2 4 6. rewrite Hmode.
    fold ft.
    destruct c as [t|].
    + destruct (Qle_bool ft (t - last)) eqn:E.
      * apply Qle_bool_iff in E.
        destruct (IH (animateFunction state) t Hc) as (k & Hk & Hs & Hlo & Hhi).
        exists (Datatypes.S k). split; [simpl; lia|].
        split; [rewrite Hs; symmetry; apply Nat.iter_succ_r|].
        split; [|exact Hhi].
        rewrite Nat2Z.inj_succ, <- Z.add_1_r, inject_Z_plus.
        change (inject_Z 1) with 1. lra.
      * destruct (IH state last Hlast) as (k & Hk & Hs & Hlo & Hhi).
        exists k. split; [simpl; lia|]. repeat split; assumption.
    + destruct (IH state last Hlast) as (k & Hk & Hs & Hlo & Hhi).
      exists k. split; [simpl; lia|]. repeat split; assumption.
Qed.

Lemma unlimited_fold (ticks : list (option Q)) :
  targetFPS <= 0 ->
  forall (state : S) (last : Q),
    fold_left step ticks (state, last)
    = (Nat.iter (length ticks) animateFunction state, last).
Proof.
  intros Hfps.
  assert (Hmode : Qle_bool targetFPS 0 = true) by (apply Qle_bool_iff; exact Hfps).
  induction ticks as [|c ticks IH]; intros state last; [reflexivity|].
  cbn [fold_left length]. unfold limitedAnimate at 2. rewrite Hmode, IH.
  rewrite Nat.iter_succ_r. reflexivity.
Qed.

Lemma spaced_fold (ticks : list (option Q)) :
  0 < targetFPS ->
  forall (state : S) (last : Q),
    spaced frameTime last ticks ->
    fst (fold_left step ticks (state, last))
    = Nat.iter (length ticks) animateFunction state.
Proof.
  intros Hfps.
  assert (Hmode : Qle_bool targetFPS 0 = false).
  { destruct (Qle_bool targetFPS 0) eqn:E; [|reflexivity].
    apply Qle_bool_iff in E. lra. }
  induction ticks as [|c ticks IH]; intros state last Hsp; [reflexivity|].
  destruct c as [t|]; [|destruct Hsp]. destruct Hsp as [Hgap Hrest].
  cbn [fold_left length]. unfold limitedAnimate at 2. rewrite Hmode.
  replace (Qle_bool frameTime (t - last)) with true
    by (symmetry; apply Qle_bool_iff; exact Hgap).
  rewrite IH by exact Hrest. rewrite Nat.iter_succ_r. reflexivity.
Qed.

End Limiter.

(** With a positive target rate, however the ticks come, the limited
    animation has run [animateFunction] some k times with
    k * (1000 / targetFPS) no more than the latest timestamp: it never
    exceeds the target rate.  Ticks without a timestamp run nothing. *)
Theorem limiter_rate_bound
    {S : Type} (animateFunction : S -> S) (targetFPS T : Q)
    (ticks : list (option Q)) (state : S)
    (Hfps : 0 < targetFPS)
    (HT : 0 <= T)
    (Hticks : Forall (fun c => match c with Some t => t <= T | None => True end)
                ticks) :
  exists k : nat,
    fst (limitedRun animateFunction targetFPS ticks state)
    = Nat.iter k animateFunction state
    /\ (k <= length ticks)%nat
    /\ inject_Z (Z.of_nat k) * (1000 / targetFPS) <= T.
Proof.
  destruct (limited_fold animateFunction targetFPS T ticks Hfps Hticks state 0 HT)
    as (k & Hk & Hs & Hlo & Hhi).
  exists k. split; [exact Hs|]. split; [exact Hk|]. lra.
Qed.

Lemma limiter_rate_bound_witness :
  0 < 120
  /\ exists k : nat,
       fst (limitedRun Datatypes.S 120
              [None; Some 5; Some 10; Some 15; Some 20; Some 25; Some 30] 0%nat)
       = Nat.iter k Datatypes.S 0%nat
       /\ inject_Z (Z.of_nat k) * (1000 / 120) <= 30.
Proof.
  split; [reflexivity|].
  destruct (limiter_rate_bound Datatypes.S 120 30
              [None; Some 5; Some 10; Some 15; Some 20; Some 25; Some 30] 0%nat
              ltac:(reflexivity) ltac:(discriminate)
              ltac:(repeat constructor; discriminate))
    as (k & Hs & _ & Hb).
  exists k. split; assumption.
Defined.

(** The limiter lets every tick through when the target rate is zero
    or negative, and also when the rate is positive and the ticks come
    no faster than the target rate allows. *)
Theorem limiter_transparent
    {S : Type} (animateFunction : S -> S) (targetFPS : Q)
    (ticks : list (option Q)) (state : S)
    (Hmode : targetFPS <= 0
             \/ (0 < targetFPS /\ spaced (1000 / targetFPS) 0 ticks)) :
  fst (limitedRun animateFunction targetFPS ticks state)
  = Nat.iter (length ticks) animateFunction state.
Proof.
  unfold limitedRun. destruct Hmode as [Hle|[Hlt Hsp]].
  - rewrite unlimited_fold by exact Hle. reflexivity.
  - apply spaced_fold; assumption.
Qed.

Lemma limiter_transparent_witness :
  fst (limitedRun Datatypes.S 120 [Some 10; Some 20; Some 30] 0%nat) = 3%nat
  /\ fst (limitedRun Datatypes.S 0 [None; Some 1; Some 2] 0%nat) = 3%nat.
Proof.
  split.
  - apply (limiter_transparent Datatypes.S 120 [Some 10; Some 20; Some 30] 0%nat).
    right. split; [reflexivity|]. simpl. repeat split; discriminate.
  - apply (limiter_transparent Datatypes.S 0 [None; Some 1; Some 2] 0%nat).
    left. discriminate.
Defined.

(** ** The camera log *)

Lemma cameraLogStep_cases (t : Q) (last : option Z) :
  (cameraLogStep t last = (true, Some (Math_floor t))
   /\ Z.rem (Math_floor t) 5 = 0%Z
   /\ last <> Some (Math_floor t))
  \/ (cameraLogStep t last = (false, last)
      /\ (Z.rem (Math_floor t) 5 = 0%Z -> last = Some (Math_floor t))).
Proof.
  unfold cameraLogStep.
  destruct (Z.eqb_spec (Z.rem (Math_floor t) 5) 0) as [Hr|Hr]; cbn [andb].
  - destruct last as [l|]; cbn [negb].
    + destruct (Z.eqb_spec (Math_floor t) l) as [->|Hne]; cbn [negb].
      * right. split; [reflexivity | intros _; reflexivity].
      * left. repeat split; [exact Hr | congruence].
    + left. repeat split; [exact Hr | discriminate].
  - right. split; [reflexivity | intros H; contradiction].
Qed.

Lemma cameraLogs_sorted (times : list Q) :
  StronglySorted Qle times ->
  forall (last : option Z) (b : Z),
    Forall (fun t => (b <= Math_floor t)%Z) times ->
    StronglySorted Z.lt (cameraLogs times last)
    /\ Forall (fun x => (b <= x)%Z /\ (last = Some b -> (b < x)%Z))
         (cameraLogs times last).
Proof.
  induction 1 as [|t rest Hrest IH Hle]; intros last b Hb.
  - split; constructor.
  - inversion Hb as [|? ? Ht Hbrest]; subst.
    assert (Hfl : Forall (fun t' => (Math_floor t <= Math_floor t')%Z) rest).
    { eapply Forall_impl; [exact Hle|]. intros t' Htt'.
      apply Qfloor_resp_le. exact Htt'. }
    cbn [cameraLogs].
    destruct (cameraLogStep_cases t last) as [(E & Hr & Hne)|(E & Hsame)];
      rewrite E.
    + destruct (IH (Some (Math_floor t)) (Math_floor t) Hfl) as [Hs Hall].
      cbn [app]. split.
      * constructor; [exact Hs|]. eapply Forall_impl; [exact Hall|].
        intros x [_ Hx]. apply Hx. reflexivity.
      * constructor.
        -- split; [exact Ht|]. intros El. subst last.
           assert (Math_floor t <> b) by congruence. lia.
        -- eapply Forall_impl; [exact Hall|]. intros x [_ Hx].
           specialize (Hx eq_refl). split; [lia | intros _; lia].
    + destruct (IH last (Math_floor t) Hfl) as [Hs Hall].
      cbn [app]. split; [exact Hs|].
      eapply Forall_impl; [exact Hall|]. intros x [Hx1 Hx2].
      split; [lia|]. intros El.
      destruct (Z.eq_dec (Math_floor t) b) as [Eb|Hnb].
      * rewrite Eb in Hx2. apply Hx2. exact El.
      * lia.
Qed.

Lemma cameraLogs_marks (times : list Q) :
  forall last : option Z,
    Forall (fun x => Z.rem x 5 = 0%Z) (cameraLogs times last)
    /\ (length (cameraLogs times last) <= length times)%nat
    /\ forall t : Q,
         In t times -> Z.rem (Math_floor t) 5 = 0%Z ->
         In (Math_floor t) (cameraLogs times last) \/ last = Some (Math_floor t).
Proof.
  induction times as [|t rest IH]; intros last.
  - repeat split; [constructor | simpl; lia | intros t []].
  - cbn [cameraLogs].
    destruct (cameraLogStep_cases t last) as [(E & Hr & Hne)|(E & Hsame)];
      rewrite E; cbn [app].
    + destruct (IH (Some (Math_floor t))) as (Hall & Hlen & Hin).
      split; [constructor; assumption|]. split; [simpl; lia|].
      intros t' [<-|Ht'] Hr'; [left; left; reflexivity|].
      destruct (Hin t' Ht' Hr') as [H|H].
      * left. right. exact H.
      * left. left. congruence.
    + destruct (IH last) as (Hall & Hlen & Hin).
      split; [exact Hall|]. split; [simpl; lia|].
      intros t' [<-|Ht'] Hr'; [right; apply Hsame; exact Hr'|].
      apply Hin; assumption.
Qed.

(** When the elapsed times of the frames never go back, the camera is
    logged at strictly increasing whole seconds, all multiples of
    five, so at most once per such second; and every frame that falls
    into a second that is a multiple of five has that second logged. *)
Theorem camera_log_throttle
    (times : list Q)
    (Hmono : StronglySorted Qle times) :
  StronglySorted Z.lt (cameraLogs times None)
  /\ Forall (fun x => Z.rem x 5 = 0%Z) (cameraLogs times None)
  /\ (length (cameraLogs times None) <= length times)%nat
  /\ forall t : Q,
       In t times -> Z.rem (Math_floor t) 5 = 0%Z ->
       In (Math_floor t) (cameraLogs times None).
Proof.
  destruct (cameraLogs_marks times None) as (Hall & Hlen & Hin).
  split; [|split; [exact Hall|split; [exact Hlen|]]].
  - destruct times as [|t0 rest]; [constructor|].
    apply (cameraLogs_sorted (t0 :: rest) Hmono None (Math_floor t0)).
    inversion Hmono as [|? ? _ Hle]; subst. constructor; [lia|].
    eapply Forall_impl; [exact Hle|]. intros t' Htt'.
    apply Qfloor_resp_le. exact Htt'.
  - intros t Ht Hr. destruct (Hin t Ht Hr) as [H|H]; [exact H | discriminate].
Qed.

Lemma camera_log_throttle_witness :
  StronglySorted Qle [0; 0.5; 4.9; 5.1; 5.9; 6.2; 10; 10.01]
  /\ cameraLogs [0; 0.5; 4.9; 5.1; 5.9; 6.2; 10; 10.01] None = [0; 5; 10]%Z
  /\ StronglySorted Z.lt (cameraLogs [0; 0.5; 4.9; 5.1; 5.9; 6.2; 10; 10.01] None).
Proof.
  assert (H : StronglySorted Qle [0; 0.5; 4.9; 5.1; 5.9; 6.2; 10; 10.01])
    by (repeat constructor; discriminate).
  split; [exact H|]. split; [reflexivity|].
  exact (proj1 (camera_log_throttle _ H)).
Defined.

(** ** [Math.round] is within a half of its argument *)

Lemma Math_round_bounds (a : Q) :
  a - (1 # 2) < inject_Z (Math_round a) /\ inject_Z (Math_round a) <= a + (1 # 2).
Proof.
  unfold Math_round. split.
  - pose proof (Qlt_floor (a + (1 # 2))) as H.
    rewrite inject_Z_plus in H. change (inject_Z 1) with 1 in H. lra.
  - apply Qfloor_le.
Qed.

(** ** Model discovery *)

Lemma filter_none {A} (f : A -> bool) (l : list A) :
  Forall (fun a => f a = false) l -> List.filter f l = [].
Proof.
  induction 1 as [|a l Ha _ IH]; [reflexivity|].
  cbn [List.filter]. rewrite Ha. exact IH.
Qed.

Lemma list_ascii_append (a b : string) :
  String.list_ascii_of_string (a +:+ b)
  = String.list_ascii_of_string a ++ String.list_ascii_of_string b.
Proof. induction a as [|c a IH]; simpl; [reflexivity | now rewrite IH]. Qed.

Lemma endsWith_append (suffix d h : string) :
  endsWith suffix h = true -> endsWith suffix (d +:+ h) = true.
Proof.
  unfold endsWith. rewrite !bool_decide_eq_true, list_ascii_append.
  apply suffix_app_r.
Qed.

(** Discovery uses the fallback list exactly when the fetch fails or
    the response is not OK.  An OK response gives the directory
    prepended to the links that end in .glb, in document order, and
    every such path ends in .glb; when the page has no such link the
    result is empty, the fallback list is not used, and
    [initializeScene] builds no scene. *)
Theorem discovery_outcomes
    (mcfg : ModelConfig) (hrefs : list string) :
  discoverModelPaths mcfg (glbLinks FetchFails) = FALLBACK_MODELS mcfg
  /\ discoverModelPaths mcfg (glbLinks (FetchResponse false hrefs))
     = FALLBACK_MODELS mcfg
  /\ discoverModelPaths mcfg (glbLinks (FetchResponse true hrefs))
     = map (fun href => DIRECTORY mcfg +:+ href)
         (List.filter (endsWith ".glb") hrefs)
  /\ Forall (fun p => endsWith ".glb" p = true)
       (discoverModelPaths mcfg (glbLinks (FetchResponse true hrefs)))
  /\ (length (discoverModelPaths mcfg (glbLinks (FetchResponse true hrefs)))
      <= length hrefs)%nat
  /\ (Forall (fun h => endsWith ".glb" h = false) hrefs ->
      discoverModelPaths mcfg (glbLinks (FetchResponse true hrefs)) = []
      /\ forall (cfg : ObjectConfig) (anim : AnimationConfig)
                (mat : MaterialConfig) (colors : list Z) (random : nat -> Q)
                (load : string -> LoadOutcome) (fits : nat -> bool)
                (vertexNormals : list Q -> option (list nat) -> list Q)
                (sphereFromPositions : list Q -> Sphere) (n : nat),
           initializeScene cfg anim mat mcfg colors random
             (glbLinks (FetchResponse true hrefs)) load fits vertexNormals
             sphereFromPositions n
           = (None, n)).
Proof.
  split; [reflexivity|]. split; [reflexivity|]. split; [reflexivity|].
  cbn [glbLinks discoverModelPaths].
  split; [|split].
  - apply Forall_map. apply Forall_forall. intros h Hh.
    apply list_elem_of_In, filter_In in Hh as [_ Hh].
    cbn beta. apply endsWith_append. exact Hh.
  - rewrite length_map. apply filter_length_le.
  - intros Hnone.
    assert (E : List.filter (endsWith ".glb") hrefs = [])
      by (apply filter_none; exact Hnone).
    rewrite E. split; [reflexivity|]. intros.
    unfold initializeScene, loadAllModels, discoverModelPaths, glbLinks.
    rewrite ?E. reflexivity.
Qed.

Example discovery_sample :
  discoverModelPaths default_MODEL_CONFIG
    (glbLinks (FetchResponse true ["../"; "dd.glb"; "notes.txt"; "cube.GLB"; "a.glb"]))
  = ["models/dd.glb"; "models/a.glb"].
Proof. reflexivity. Qed.

(** ** The earlier scripts use the last mesh *)

Lemma legacy_fold (scene : list Object3D) :
  forall acc : option BufferGeometry,
    fold_left
      (fun modelGeometry child =>
         if isMesh child then geometry child else modelGeometry)
      scene acc
    = match last (List.filter isMesh scene) with
      | Some child => geometry child
      | None => acc
      end.
Proof.
  induction scene as [|c rest IH]; intros acc; [reflexivity|].
  cbn [fold_left List.filter]. rewrite IH.
  destruct (isMesh c); [|reflexivity].
  destruct (List.filter isMesh rest) as [|c' l]; [reflexivity|].
  change (last (c :: c' :: l)) with (last (c' :: l)).
  destruct (last (c' :: l)) eqn:El; [reflexivity|].
  apply last_None in El. discriminate.
Qed.

(** The geometry that the earlier single-model scripts instance is
    that of the last mesh the traversal visits, not of the first; when
    that last mesh carries no geometry, or the scene has no mesh,
    nothing is picked, whatever earlier meshes carry. *)
Theorem legacy_picks_last_mesh (scene : list Object3D) :
  legacy_pickGeometry scene
  = match last (List.filter isMesh scene) with
    | Some child => geometry child
    | None => None
    end
  /\ (forall (before : list Object3D) (child : Object3D) (after : list Object3D),
         scene = before ++ child :: after ->
         isMesh child = true ->
         Forall (fun c => isMesh c = false) after ->
         legacy_pickGeometry scene = geometry child)
  /\ (Forall (fun c => isMesh c = false) scene -> legacy_pickGeometry scene = None).
Proof.
  assert (E : legacy_pickGeometry scene
              = match last (List.filter isMesh scene) with
                | Some child => geometry child
                | None => None
                end) by apply legacy_fold.
  split; [exact E|]. split.
  - intros before child after -> Hmesh Hafter. rewrite E.
    rewrite List.filter_app. cbn [List.filter]. rewrite Hmesh.
    assert (Ea : List.filter isMesh after = [])
      by (apply filter_none; exact Hafter).
    rewrite Ea, last_snoc. reflexivity.
  - intros Hnone. rewrite E.
    assert (Ea : List.filter isMesh scene = [])
      by (apply filter_none; exact Hnone).
    rewrite Ea. reflexivity.
Qed.

Example legacy_pick_sample :
  legacy_pickGeometry [group_node; mesh_of triangle; mesh_of quad; group_node]
  = Some quad
  /\ legacy_pickGeometry
       [mesh_of triangle; {| isMesh := true; geometry := None |}]
     = None.
Proof. split; reflexivity. Qed.

(** ** The object lists of the batches *)

Section References.

Variable OBJECT_CONFIG : ObjectConfig.
Variable ANIMATION_CONFIG : AnimationConfig.
Variable OBJECT_COLORS : list Z.
Variable random : nat -> Q.

Local Abbreviation populate' :=
  (populate OBJECT_CONFIG ANIMATION_CONFIG OBJECT_COLORS random).

Local Abbreviation initInstance' :=
  (initInstance OBJECT_CONFIG ANIMATION_CONFIG OBJECT_COLORS random).




End References.


Section StartupReferences.

Variable OBJECT_CONFIG : ObjectConfig.
Variable ANIMATION_CONFIG : AnimationConfig.
Variable MATERIAL_CONFIG : MaterialConfig.
Variable MODEL_CONFIG : ModelConfig.
Variable OBJECT_COLORS : list Z.
Variable random : nat -> Q.
Variable directoryListing : option (list string).
Variable gltfLoader_load : string -> LoadOutcome.
Variable Float32Array_fits : nat -> bool.
Variable vertexNormals : list Q -> option (list nat) -> list Q.
Variable sphereFromPositions : list Q -> Sphere.

Local Abbreviation loadedModels :=
  (loadAllModels MODEL_CONFIG directoryListing gltfLoader_load
     Float32Array_fits vertexNormals sphereFromPositions).
Local Abbreviation initializeScene' :=
  (initializeScene OBJECT_CONFIG ANIMATION_CONFIG MATERIAL_CONFIG MODEL_CONFIG
     OBJECT_COLORS random directoryListing gltfLoader_load Float32Array_fits
     vertexNormals sphereFromPositions).


End StartupReferences.


(** ** What a frame leaves alone *)

Section FrameKeeps.

Variable OBJECT_CONFIG : ObjectConfig.
Variable ANIMATION_CONFIG : AnimationConfig.
Variable random : nat -> Q.

Local Abbreviation updateObject' :=
  (updateObject OBJECT_CONFIG ANIMATION_CONFIG random).
Local Abbreviation forEachObject' :=
  (forEachObject OBJECT_CONFIG ANIMATION_CONFIG random).
Local Abbreviation animate' := (animate OBJECT_CONFIG ANIMATION_CONFIG random).
Local Abbreviation frames' := (frames OBJECT_CONFIG ANIMATION_CONFIG random).

Lemma writeInstance_frame (meshes meshes' : list MeshData) (obj : ObjectState) :
  writeInstance meshes obj = Ok meshes' ->
  map batchFrame meshes' = map batchFrame meshes.
Proof.
  unfold writeInstance.
  destruct (meshes !! meshIndex obj) as [meshData|] eqn:E; [|discriminate].
  intros H. injection H as <-.
  change (map batchFrame) with (fmap (M := list) batchFrame).
  rewrite list_fmap_insert.
  apply list_insert_id. rewrite list_lookup_fmap, E.
  unfold batchFrame, with_mesh, setMatrixAt. cbn. rewrite length_insert.
  reflexivity.
Qed.

Lemma forEachObject_frame (objs : list ObjectState) :
  forall (meshes : list MeshData) (n : nat) (objs' : list ObjectState)
         (meshes' : list MeshData) (n' : nat),
    forEachObject' objs meshes n = (Ok (objs', meshes'), n') ->
    map batchFrame meshes' = map batchFrame meshes
    /\ map slot objs' = map slot objs.
Proof.
  induction objs as [|obj rest IH]; intros meshes n objs' meshes' n' H.
  - cbn [forEachObject] in H. unfold ret in H. injection H as <- <- _.
    split; reflexivity.
  - cbn [forEachObject] in H. unfold bind at 1 in H.
    pose proof (updateObject_slot OBJECT_CONFIG ANIMATION_CONFIG random obj n)
      as Hs.
    destruct (updateObject' obj n) as [obj' n1]. cbn [fst] in Hs.
    destruct (writeInstance meshes obj') as [meshes1|] eqn:Ew;
      [|unfold ret in H; discriminate].
    unfold bind in H.
    destruct (forEachObject' rest meshes1 n1) as [[[objs1 meshes2]|] n2] eqn:Ef;
      unfold ret in H; cbn in H; [|discriminate].
    injection H as <- <- _.
    destruct (IH meshes1 n1 objs1 meshes2 n2 Ef) as [Hf Hsl].
    split.
    + rewrite Hf. eapply writeInstance_frame; exact Ew.
    + cbn [map]. rewrite Hs, Hsl. reflexivity.
Qed.

Lemma animate_frame (s s' : SceneState) (n n' : nat) :
  animate' s n = (Ok s', n') ->
  map batchFrame (instancedMeshes s') = map batchFrame (instancedMeshes s)
  /\ map slot (allObjects s') = map slot (allObjects s).
Proof.
  unfold animate, bind.
  destruct (forEachObject' (allObjects s) (instancedMeshes s) n)
    as [[[objs' meshes']|] n1] eqn:Ef; unfold ret; cbn; [|discriminate].
  intros H. injection H as <- _. cbn [instancedMeshes allObjects].
  eapply forEachObject_frame; exact Ef.
Qed.

Lemma frames_frame (K : nat) :
  forall (s s' : SceneState) (n n' : nat),
    frames' K s n = (Ok s', n') ->
    map batchFrame (instancedMeshes s') = map batchFrame (instancedMeshes s)
    /\ map slot (allObjects s') = map slot (allObjects s).
Proof.
  induction K as [|K IH]; intros s s' n n' H.
  - cbn [frames] in H. unfold ret in H. injection H as <- _. split; reflexivity.
  - cbn [frames] in H. unfold bind in H.
    destruct (animate' s n) as [[s1|] n1] eqn:Ea;
      [|unfold ret in H; discriminate].
    destruct (animate_frame s s1 n n1 Ea) as [Hf1 Hs1].
    destruct (IH s1 s' n1 n' H) as [Hf Hs].
    split; congruence.
Qed.

Lemma references_ok_keeps (meshes meshes' : list MeshData)
    (all all' : list ObjectState) :
  map batchFrame meshes' = map batchFrame meshes ->
  map slot all' = map slot all ->
  references_ok 0%nat meshes all -> references_ok 0%nat meshes' all'.
Proof.
  intros Hf Hs Href i md' Hl.
  assert (Hm : map batchFrame meshes' !! i = Some (batchFrame md'))
    by (change (map batchFrame meshes') with (batchFrame <$> meshes');
        rewrite list_lookup_fmap, Hl; reflexivity).
  rewrite Hf in Hm.
  change (map batchFrame meshes) with (batchFrame <$> meshes) in Hm.
  rewrite list_lookup_fmap in Hm.
  destruct (meshes !! i) as [md|] eqn:E; [|discriminate].
  cbn in Hm. injection Hm as Ho Hc _.
  destruct (Href i md E) as [Hlen Hr].
  rewrite <- Ho, <- Hc. split; [exact Hlen|].
  intros j r Hj. destruct (Hr j r Hj) as (o & Hall & Hso).
  assert (Hm : map slot all !! r = Some (slot o))
    by (change (map slot all) with (slot <$> all);
        rewrite list_lookup_fmap, Hall; reflexivity).
  rewrite <- Hs in Hm.
  change (map slot all') with (slot <$> all') in Hm.
  rewrite list_lookup_fmap in Hm.
  destruct (all' !! r) as [o'|]; [|discriminate].
  cbn in Hm. exists o'. split; [reflexivity|]. congruence.
Qed.

(** In a well-formed scene any number of frames complete, and they
    change nothing of the batches but instance matrices: the object
    lists, counts, colour arrays, geometries, materials, instance
    colours and buffer lengths of all batches are as before, no object
    changes its slot, and the object lists still refer to the batches'
    own objects. *)
Theorem frames_touch_only_matrices (K : nat) (s : SceneState) (n : nat)
    (Hwf : scene_wf s) :
  exists (s' : SceneState) (n' : nat),
    frames' K s n = (Ok s', n')
    /\ map batchFrame (instancedMeshes s') = map batchFrame (instancedMeshes s)
    /\ map slot (allObjects s') = map slot (allObjects s)
    /\ (references_ok 0%nat (instancedMeshes s) (allObjects s) ->
        references_ok 0%nat (instancedMeshes s') (allObjects s')).
Proof.
  destruct (frames_lift OBJECT_CONFIG ANIMATION_CONFIG random
              (fun _ _ _ => True) (fun _ => I) (fun _ _ _ _ _ _ _ => I)
              K s n Hwf) as (s' & n' & Ef & _ & _).
  destruct (frames_frame K s s' n n' Ef) as [Hf Hs].
  exists s', n'. split; [exact Ef|]. split; [exact Hf|]. split; [exact Hs|].
  apply references_ok_keeps; assumption.
Qed.

End FrameKeeps.

Lemma frames_touch_only_matrices_witness :
  scene_wf sample_scene
  /\ exists (s' : SceneState) (n' : nat),
       frames default_OBJECT_CONFIG default_ANIMATION_CONFIG sample_random
         40 sample_scene 0%nat = (Ok s', n')
       /\ map batchFrame (instancedMeshes s')
          = map batchFrame (instancedMeshes sample_scene)
       /\ map slot (allObjects s') = map slot (allObjects sample_scene).
Proof.
  split; [exact sample_scene_wf|].
  destruct (frames_touch_only_matrices default_OBJECT_CONFIG
              default_ANIMATION_CONFIG sample_random 40 sample_scene 0%nat
              sample_scene_wf) as (s' & n' & Ef & Hf & Hs & _).
  exists s', n'. repeat split; assumption.
Defined.

(** * Claims that depend on rounding, in the binary64 reading *)

(** ** The object count in binary64 *)

(** C1, amended: [calculateObjectCount] reads the configuration only
    and returns [Math.round] of the double that
    [volume * (TARGET_DENSITY / 1000000)] evaluates to, each product
    and the quotient rounded to binary64: the integer n with
    n <= v + 1/2 < n + 1 for that double v (so ties go up), and no
    integer when v is not finite.  For spreads 200, 600, 100 and
    density 4 it returns 48. *)
Theorem calculateObjectCount_binary64 :
  (forall cfg : Binary64.ObjectConfig,
      match Binary64.value
              (Binary64.X_SPREAD cfg * Binary64.Y_SPREAD cfg
               * Binary64.Z_SPREAD cfg
               * (Binary64.TARGET_DENSITY cfg / 1000000))%float with
      | Some v =>
          exists n : Z,
            Binary64.calculateObjectCount cfg = Some n
            /\ inject_Z n <= v + (1 # 2)
            /\ v + (1 # 2) < inject_Z n + 1
      | None => Binary64.calculateObjectCount cfg = None
      end)
  /\ (forall yo smin smax : float,
         Binary64.calculateObjectCount
           {| Binary64.TARGET_DENSITY := 4; Binary64.X_SPREAD := 200;
              Binary64.Y_SPREAD := 600; Binary64.Z_SPREAD := 100;
              Binary64.Y_OFFSET := yo; Binary64.MIN_SCALE := smin;
              Binary64.MAX_SCALE := smax |} = Some 48%Z)
  /\ Binary64.calculateObjectCount Binary64.default_OBJECT_CONFIG = Some 48%Z
  /\ Binary64.calculateObjectCount
       {| Binary64.TARGET_DENSITY := 2500000; Binary64.X_SPREAD := 1;
          Binary64.Y_SPREAD := 1; Binary64.Z_SPREAD := 1;
          Binary64.Y_OFFSET := 0; Binary64.MIN_SCALE := 0;
          Binary64.MAX_SCALE := 0 |} = Some 3%Z
  /\ Binary64.calculateObjectCount
       {| Binary64.TARGET_DENSITY := 2500000; Binary64.X_SPREAD := -1;
          Binary64.Y_SPREAD := 1; Binary64.Z_SPREAD := 1;
          Binary64.Y_OFFSET := 0; Binary64.MIN_SCALE := 0;
          Binary64.MAX_SCALE := 0 |} = Some (-2)%Z
  /\ Binary64.calculateObjectCount
       {| Binary64.TARGET_DENSITY := 4; Binary64.X_SPREAD := infinity;
          Binary64.Y_SPREAD := 600; Binary64.Z_SPREAD := 100;
          Binary64.Y_OFFSET := 0; Binary64.MIN_SCALE := 0;
          Binary64.MAX_SCALE := 0 |} = None.
Proof.
  repeat apply conj.
  - intros cfg. unfold Binary64.calculateObjectCount, Binary64.Math_round.
    destruct (Binary64.value _) as [v|]; [|reflexivity].
    exists (Qfloor (v + (1 # 2))). split; [reflexivity|]. split.
    + apply Qfloor_le.
    + pose proof (Qlt_floor (v + (1 # 2))) as H.
      rewrite inject_Z_plus in H. exact H.
  - intros. vm_compute. reflexivity.
  - vm_compute. reflexivity.
  - vm_compute. reflexivity.
  - vm_compute. reflexivity.
  - vm_compute. reflexivity.
Qed.

(** C1 as stated fails: with spreads 200, 600, 100 and density 4.375,
    all of them doubles, X * Y * Z * density / 1,000,000 is 52.5 and
    rounds to 53, but the double that the code rounds is just below
    52.5 and the code returns 52. *)
Lemma calculateObjectCount_formula_fails :
  Binary64.calculateObjectCount
    {| Binary64.TARGET_DENSITY := 4.375; Binary64.X_SPREAD := 200;
       Binary64.Y_SPREAD := 600; Binary64.Z_SPREAD := 100;
       Binary64.Y_OFFSET := 0; Binary64.MIN_SCALE := 0.02;
       Binary64.MAX_SCALE := 0.1 |} = Some 52%Z
  /\ (200 * 600 * 100 * (4.375 / 1000000))%float = 52.499999999999993%float
  /\ spec_objectCount 200 600 100 4.375 = 53%Z
  /\ Binary64.value 200 = Some 200
  /\ Binary64.value 600 = Some 600
  /\ Binary64.value 100 = Some 100
  /\ Binary64.value 4.375 = Some (Qred 4.375).
Proof. vm_compute. repeat split; reflexivity. Qed.

(** ** Falling and spinning in binary64 *)

Section Binary64Frames.

Variable OBJECT_CONFIG : Binary64.ObjectConfig.
Variable ANIMATION_CONFIG : Binary64.AnimationConfig.
Variable random : nat -> float.

Local Abbreviation updateObject64 :=
  (Binary64.updateObject OBJECT_CONFIG ANIMATION_CONFIG random).
Local Abbreviation forEachObject64 :=
  (Binary64.forEachObject OBJECT_CONFIG ANIMATION_CONFIG random).
Local Abbreviation animate64 :=
  (Binary64.animate OBJECT_CONFIG ANIMATION_CONFIG random).
Local Abbreviation frames64 :=
  (Binary64.frames OBJECT_CONFIG ANIMATION_CONFIG random).
Local Abbreviation moved64 := (Binary64.moved OBJECT_CONFIG ANIMATION_CONFIG).
Local Abbreviation threshold64 := (Binary64.recycleThreshold OBJECT_CONFIG).
Local Abbreviation F64 := (Binary64.FALL_SPEED ANIMATION_CONFIG).

Lemma updateObject64_cases (o : Binary64.ObjectState) (m : nat) :
  let o1 := fst (updateObject64 o m) in
  Binary64.meshIndex o1 = Binary64.meshIndex o
  /\ Binary64.instanceIndex o1 = Binary64.instanceIndex o
  /\ Binary64.scale o1 = Binary64.scale o
  /\ Binary64.rotationSpeedX o1 = Binary64.rotationSpeedX o
  /\ Binary64.rotationSpeedZ o1 = Binary64.rotationSpeedZ o
  /\ Binary64.rotation o1
     = {| Binary64.Euler.x :=
            (Binary64.Euler.x (Binary64.rotation o)
             + Binary64.rotationSpeedX o
               * Binary64.ROTATION_MULTIPLIER ANIMATION_CONFIG)%float;
          Binary64.Euler.y := Binary64.Euler.y (Binary64.rotation o);
          Binary64.Euler.z :=
            (Binary64.Euler.z (Binary64.rotation o)
             + Binary64.rotationSpeedZ o
               * Binary64.ROTATION_MULTIPLIER ANIMATION_CONFIG)%float |}
  /\ (((Binary64.Vector3.y (Binary64.position o) - F64 <? threshold64)%float
       = false
       /\ Binary64.position o1
          = {| Binary64.Vector3.x := Binary64.Vector3.x (Binary64.position o);
               Binary64.Vector3.y :=
                 (Binary64.Vector3.y (Binary64.position o) - F64)%float;
               Binary64.Vector3.z := Binary64.Vector3.z (Binary64.position o) |}
       /\ snd (updateObject64 o m) = m)
      \/ ((Binary64.Vector3.y (Binary64.position o) - F64 <? threshold64)%float
          = true
          /\ Binary64.Vector3.y (Binary64.position o1)
             = Binary64.respawnHeight OBJECT_CONFIG
          /\ snd (updateObject64 o m) = S (S m))).
Proof.
  unfold Binary64.updateObject, Binary64.recycle.
  cbn [Binary64.fallAndSpin Binary64.with_rotation Binary64.with_position
       Binary64.position Binary64.Vector3.y].
  destruct (_ <? _)%float eqn:E; cbn.
  - repeat split; try reflexivity. right. repeat split; reflexivity.
  - repeat split; try reflexivity. left. repeat split; reflexivity.
Qed.

Lemma lowered_succ (step y : float) (k : nat) :
  Binary64.lowered step (S k) y = Binary64.lowered step k (y - step)%float.
Proof.
  unfold Binary64.lowered.
  exact (Nat.iter_succ_r k (fun y => (y - step)%float) y).
Qed.

Lemma advanced_succ (step r : float) (k : nat) :
  Binary64.advanced step (S k) r = Binary64.advanced step k (r + step)%float.
Proof.
  unfold Binary64.advanced.
  exact (Nat.iter_succ_r k (fun r => (r + step)%float) r).
Qed.

Lemma moved64_zero (o : Binary64.ObjectState) : moved64 0 o o.
Proof.
  unfold Binary64.moved. repeat split; try reflexivity.
  - left. reflexivity.
  - intros _. destruct o as [mi ii [px py pz] r sc sx sz]. reflexivity.
Qed.

Lemma moved64_step (K : nat) (o o' : Binary64.ObjectState) (m : nat) :
  moved64 K (fst (updateObject64 o m)) o' -> moved64 (S K) o o'.
Proof.
  destruct (updateObject64_cases o m)
    as (Am & Ai & As & Asx & Asz & Ar & Ap).
  set (o1 := fst (updateObject64 o m)) in *.
  unfold Binary64.moved.
  intros (Bm & Bi & Bs & Bsx & Bsz & Brx & Bry & Brz & By & Bno).
  rewrite Asx in Brx. rewrite Asz in Brz. rewrite Ar in Brx, Bry, Brz.
  cbn [Binary64.Euler.x Binary64.Euler.y Binary64.Euler.z] in Brx, Bry, Brz.
  rewrite !advanced_succ.
  split; [congruence|]. split; [congruence|]. split; [congruence|].
  split; [congruence|]. split; [congruence|].
  split; [exact Brx|]. split; [exact Bry|]. split; [exact Brz|].
  split.
  - destruct By as [By|(j & Hj & By)];
      [|right; exists j; split; [lia | exact By]].
    destruct Ap as [(_ & Ep & _)|(_ & Ey & _)].
    + left. rewrite lowered_succ, By, Ep. reflexivity.
    + right. exists K. split; [lia|]. rewrite By, Ey. reflexivity.
  - intros Hno.
    pose proof (Hno 0%nat ltac:(lia)) as H0.
    change ((Binary64.Vector3.y (Binary64.position o) - F64
             <? threshold64)%float = false) in H0.
    destruct Ap as [(_ & Ep & _)|(Et & _)];
      [|rewrite H0 in Et; discriminate].
    rewrite Bno.
    + rewrite lowered_succ, Ep. reflexivity.
    + intros j Hj. rewrite Ep. cbn [Binary64.Vector3.y].
      rewrite <- lowered_succ. apply Hno. lia.
Qed.

Lemma writeInstance64_ok (meshes : list (list Binary64.Matrix4))
    (obj : Binary64.ObjectState) :
  (Binary64.meshIndex obj < length meshes)%nat ->
  exists meshes' : list (list Binary64.Matrix4),
    Binary64.writeInstance meshes obj = Ok meshes'
    /\ length meshes' = length meshes.
Proof.
  intros Hlt. unfold Binary64.writeInstance.
  destruct (meshes !! Binary64.meshIndex obj) as [buffer|] eqn:E.
  - eexists. split; [reflexivity | apply length_insert].
  - apply lookup_ge_None in E. lia.
Qed.

Lemma forEachObject64_ok (objs : list Binary64.ObjectState) :
  forall (meshes : list (list Binary64.Matrix4)) (n : nat),
    Forall (fun o => (Binary64.meshIndex o < length meshes)%nat) objs ->
    exists (objs' : list Binary64.ObjectState)
           (meshes' : list (list Binary64.Matrix4)) (n' : nat),
      forEachObject64 objs meshes n = (Ok (objs', meshes'), n')
      /\ length meshes' = length meshes
      /\ Forall2 (fun o o' => exists m : nat, o' = fst (updateObject64 o m))
           objs objs'.
Proof.
  induction objs as [|obj rest IH]; intros meshes n Hwf.
  - exists [], meshes, n. repeat split; constructor.
  - inversion Hwf as [|? ? Hobj Hrest]; subst.
    cbn [Binary64.forEachObject]. unfold bind at 1.
    destruct (updateObject64_cases obj n) as (Hm & _).
    destruct (updateObject64 obj n) as [obj' n1] eqn:Eu. cbn [fst] in Hm.
    destruct (writeInstance64_ok meshes obj' ltac:(rewrite Hm; exact Hobj))
      as (meshes1 & Ew & Hl1).
    rewrite Ew. unfold bind.
    destruct (IH meshes1 n1 ltac:(rewrite Hl1; exact Hrest))
      as (objs' & meshes' & n' & Ef & Hl & H2).
    rewrite Ef. cbn. exists (obj' :: objs'), meshes', n'.
    split; [reflexivity|]. split; [congruence|].
    constructor; [|exact H2]. exists n. rewrite Eu. reflexivity.
Qed.

Lemma updated64_meshIndex (bound : nat)
    (objs objs' : list Binary64.ObjectState) :
  Forall (fun o => (Binary64.meshIndex o < bound)%nat) objs ->
  Forall2 (fun o o' => exists m : nat, o' = fst (updateObject64 o m))
    objs objs' ->
  Forall (fun o => (Binary64.meshIndex o < bound)%nat) objs'.
Proof.
  intros Hwf H2. induction H2 as [|o o' l l' [m ->] _ IH]; [constructor|].
  inversion Hwf; subst. constructor; [|apply IH; assumption].
  destruct (updateObject64_cases o m) as (Hm & _). rewrite Hm. assumption.
Qed.

Lemma animate64_ok (s : Binary64.SceneState) (n : nat) :
  Binary64.scene_wf s ->
  exists (s' : Binary64.SceneState) (n' : nat),
    animate64 s n = (Ok s', n')
    /\ Binary64.scene_wf s'
    /\ Forall2 (fun o o' => exists m : nat, o' = fst (updateObject64 o m))
         (Binary64.allObjects s) (Binary64.allObjects s').
Proof.
  intros Hwf. unfold Binary64.animate, bind.
  destruct (forEachObject64_ok (Binary64.allObjects s)
              (Binary64.instancedMeshes s) n Hwf)
    as (objs' & meshes' & n' & Ef & Hl & H2).
  rewrite Ef. cbn. eexists _, n'. split; [reflexivity|]. cbn.
  split; [|exact H2].
  unfold Binary64.scene_wf. cbn. rewrite Hl.
  eapply updated64_meshIndex; [exact Hwf | exact H2].
Qed.

Lemma frames64_moved (K : nat) :
  forall (s : Binary64.SceneState) (n : nat),
    Binary64.scene_wf s ->
    exists (s' : Binary64.SceneState) (n' : nat),
      frames64 K s n = (Ok s', n')
      /\ Forall2 (moved64 K) (Binary64.allObjects s) (Binary64.allObjects s').
Proof.
  induction K as [|K IH]; intros s n Hwf.
  - exists s, n. split; [reflexivity|].
    induction (Binary64.allObjects s); constructor;
      [apply moved64_zero | assumption].
  - destruct (animate64_ok s n Hwf) as (s1 & n1 & Ea & Hwf1 & H1).
    destruct (IH s1 n1 Hwf1) as (s' & n' & Ef & H2).
    exists s', n'. cbn [Binary64.frames]. unfold bind. rewrite Ea.
    split; [exact Ef|].
    eapply Forall2_chain; [|exact H1|exact H2].
    intros a b c [m ->] Hbc. eapply moved64_step. exact Hbc.
Qed.

(** C4, amended: in every frame the fall step makes position.y the
    binary64 difference position.y - FALL_SPEED, and the updated object
    has rotation.x and rotation.z the binary64 sums with the object's
    speed times ROTATION_MULTIPLIER and rotation.y untouched; its
    position.y is that difference, or the respawn height when the
    difference is below the threshold.  In a scene whose objects refer
    to existing batches any K frames complete, and then every object
    has been turned by K such rounded additions, whether recycled or
    not; its position.y is the result of K rounded subtractions from
    where it started, or of fewer than K from the respawn height; and
    an object that none of its K frames recycled has the former, with
    x and z as they were.  (The K-fold rounded difference need not be
    position.y - K * FALL_SPEED.) *)
Theorem frame_motion_binary64 (s : Binary64.SceneState) (K n : nat)
    (Hwf : Binary64.scene_wf s) :
  (forall (obj : Binary64.ObjectState) (m : nat),
      Binary64.Vector3.y
        (Binary64.position (Binary64.fallAndSpin ANIMATION_CONFIG obj))
      = (Binary64.Vector3.y (Binary64.position obj) - F64)%float
      /\ Binary64.Euler.x (Binary64.rotation (fst (updateObject64 obj m)))
         = (Binary64.Euler.x (Binary64.rotation obj)
            + Binary64.rotationSpeedX obj
              * Binary64.ROTATION_MULTIPLIER ANIMATION_CONFIG)%float
      /\ Binary64.Euler.z (Binary64.rotation (fst (updateObject64 obj m)))
         = (Binary64.Euler.z (Binary64.rotation obj)
            + Binary64.rotationSpeedZ obj
              * Binary64.ROTATION_MULTIPLIER ANIMATION_CONFIG)%float
      /\ Binary64.Euler.y (Binary64.rotation (fst (updateObject64 obj m)))
         = Binary64.Euler.y (Binary64.rotation obj)
      /\ (((Binary64.Vector3.y (Binary64.position obj) - F64
            <? threshold64)%float = false
           /\ Binary64.Vector3.y (Binary64.position (fst (updateObject64 obj m)))
              = (Binary64.Vector3.y (Binary64.position obj) - F64)%float)
          \/ ((Binary64.Vector3.y (Binary64.position obj) - F64
               <? threshold64)%float = true
              /\ Binary64.Vector3.y
                   (Binary64.position (fst (updateObject64 obj m)))
                 = Binary64.respawnHeight OBJECT_CONFIG)))
  /\ (exists (s1 : Binary64.SceneState) (n1 : nat),
         animate64 s n = (Ok s1, n1)
         /\ Forall2 (fun o o' => exists c : nat, o' = fst (updateObject64 o c))
              (Binary64.allObjects s) (Binary64.allObjects s1))
  /\ exists (s' : Binary64.SceneState) (n' : nat),
       frames64 K s n = (Ok s', n')
       /\ Forall2 (moved64 K) (Binary64.allObjects s) (Binary64.allObjects s').
Proof.
  split; [|split].
  - intros obj m.
    destruct (updateObject64_cases obj m) as (_ & _ & _ & _ & _ & Er & Ep).
    split; [reflexivity|]. rewrite Er. cbn.
    split; [reflexivity|]. split; [reflexivity|]. split; [reflexivity|].
    destruct Ep as [(Ef & Ep & _)|(Et & Ey & _)].
    + left. split; [exact Ef|]. rewrite Ep. reflexivity.
    + right. split; [exact Et | exact Ey].
  - destruct (animate64_ok s n Hwf) as (s1 & n1 & Ea & _ & H1).
    exists s1, n1. split; assumption.
  - apply frames64_moved. exact Hwf.
Qed.

End Binary64Frames.

Lemma frame_motion_binary64_witness :
  Binary64.scene_wf (Binary64.sample_scene 100)
  /\ exists (s' : Binary64.SceneState) (n' : nat),
       Binary64.frames Binary64.default_OBJECT_CONFIG
         Binary64.default_ANIMATION_CONFIG Binary64.sample_random 5
         (Binary64.sample_scene 100) 0%nat = (Ok s', n')
       /\ Forall2 (Binary64.moved Binary64.default_OBJECT_CONFIG
                     Binary64.default_ANIMATION_CONFIG 5)
            (Binary64.allObjects (Binary64.sample_scene 100))
            (Binary64.allObjects s').
Proof.
  assert (Hwf : Binary64.scene_wf (Binary64.sample_scene 100))
    by (repeat constructor).
  split; [exact Hwf|].
  exact (proj2 (proj2 (frame_motion_binary64 Binary64.default_OBJECT_CONFIG
                         Binary64.default_ANIMATION_CONFIG
                         Binary64.sample_random (Binary64.sample_scene 100)
                         5 0 Hwf))).
Defined.

(** C4 as stated fails: from position.y = -302 with the configured
    FALL_SPEED 0.8, nine frames pass without a recycle and leave
    position.y at -309.2000000000001, which is neither the double that
    -302 - 9 * 0.8 evaluates to nor the real number -302 - 9 * 0.8; the
    tenth frame then recycles the object, although -302 - 10 * 0.8 is
    -310 and not below the threshold -310.  Likewise three frames from
    the respawn height 300 leave 297.59999999999997, not the double
    that 300 - 3 * 0.8 evaluates to. *)
Lemma frame_motion_exact_fails :
  (let '(r, n) :=
     Binary64.frames Binary64.default_OBJECT_CONFIG
       Binary64.default_ANIMATION_CONFIG Binary64.sample_random 9
       (Binary64.sample_scene (-302)) 0%nat in
   Binary64.heights r = Some [(-309.2000000000001)%float] /\ n = 0%nat)
  /\ (-302 - 9 * 0.8)%float = (-309.2)%float
  /\ ((-309.2000000000001) =? (-309.2))%float = false
  /\ match Binary64.value (-309.2000000000001) with
     | Some q => ~ q == -302 - 9 * 0.8
     | None => False
     end
  /\ Binary64.recycleThreshold Binary64.default_OBJECT_CONFIG = (-310)%float
  /\ (-302 - 10 * 0.8 <? -310)%float = false
  /\ (let '(r, n) :=
        Binary64.frames Binary64.default_OBJECT_CONFIG
          Binary64.default_ANIMATION_CONFIG Binary64.sample_random 10
          (Binary64.sample_scene (-302)) 0%nat in
      Binary64.heights r = Some [300%float] /\ n = 2%nat)
  /\ (let '(r, n) :=
        Binary64.frames Binary64.default_OBJECT_CONFIG
          Binary64.default_ANIMATION_CONFIG Binary64.sample_random 3
          (Binary64.sample_scene
             (Binary64.respawnHeight Binary64.default_OBJECT_CONFIG))
          0%nat in
      Binary64.heights r = Some [297.59999999999997%float] /\ n = 0%nat)
  /\ (300 - 3 * 0.8)%float = 297.60000000000002%float
  /\ (297.59999999999997 =? 297.60000000000002)%float = false.
Proof.
  vm_compute. repeat split; try reflexivity. intros H. discriminate H.
Qed.

Example frames64_five :
  let '(r, n) :=
    Binary64.frames Binary64.default_OBJECT_CONFIG
      Binary64.default_ANIMATION_CONFIG Binary64.sample_random 5
      (Binary64.sample_scene 100) 0%nat in
  Binary64.heights r = Some [Binary64.lowered 0.8 5 100] /\ n = 0%nat.
Proof. vm_compute. split; reflexivity. Qed.
